(** * arxiv-daily: the metadata ingestion pipeline of [daily_arxiv.py]

    A shallow embedding of the ID normalizer, the existing-store loader,
    the incremental writer, the paginated fetcher and the category
    statistic of the report, with the properties the specification states
    about them and further properties read off the code.

    Python values are modelled as follows.
    - [str] is [string], a sequence of code points below 256; every
      literal the code compares against is ASCII.
    - [set] of identifiers is [gset string].
    - [dict] is an association list in insertion order (the fetcher slices
      [list(full_content.items())], so the order is observable).
    - exceptions are explicit outcomes; [time.sleep] appends to a log;
      the HTTP server and the disk are oracles indexed by a call counter.
    - a file opened for appending text is buffered: what is written to
      it is sent to the disk when the file is closed, and it is there
      that a failing disk shows. *)

From Stdlib Require Import ZArith Ascii String Decimal DecimalString.
From stdpp Require Import gmap strings list.

Open Scope Z_scope.

(** ** Python string primitives *)

Module Py.

Definition is_empty (s : string) : bool :=
  match s with EmptyString => true | String _ _ => false end.

(** [s.startswith(p)] *)
Fixpoint startswith (p s : string) : bool :=
  match p, s with
  | EmptyString, _ => true
  | String _ _, EmptyString => false
  | String a p', String b s' => Ascii.eqb a b && startswith p' s'
  end.

(** [sub in s] *)
Fixpoint contains (sub s : string) : bool :=
  startswith sub s ||
  match s with
  | EmptyString => false
  | String _ s' => contains sub s'
  end.

(** [s.find(sub)]; Python's [-1] is [None] *)
Fixpoint find (sub s : string) : option nat :=
  if startswith sub s then Some 0%nat
  else match s with
       | EmptyString => None
       | String _ s' => S <$> find sub s'
       end.

(** [s[:n]] for [n >= 0] *)
Fixpoint take (n : nat) (s : string) : string :=
  match n, s with
  | S n', String c s' => String c (take n' s')
  | _, _ => EmptyString
  end.

(** [s[n:]] for [n >= 0] *)
Fixpoint drop (n : nat) (s : string) : string :=
  match n, s with
  | S n', String _ s' => drop n' s'
  | _, _ => s
  end.

(** [s.split(sep)] for a non-empty [sep]: cut at the leftmost occurrence
    and go on behind it.  Each cut removes at least one character, so
    [String.length s] rounds are enough. *)
Fixpoint split_aux (fuel : nat) (sep s : string) : list string :=
  match find sep s with
  | None => [s]
  | Some i =>
      match fuel with
      | O => [s]
      | S fuel' =>
          take i s :: split_aux fuel' sep (drop (i + String.length sep) s)
      end
  end.

Definition split (sep s : string) : list string :=
  split_aux (String.length s) sep s.

(** [l[-1]] on a list of strings that is never empty here *)
Definition last (l : list string) : string := List.last l EmptyString.

Definition is_digit (c : ascii) : bool :=
  match Ascii.is_nat c with Some _ => true | None => false end.

Fixpoint all_digits (s : string) : bool :=
  match s with
  | EmptyString => true
  | String c s' => is_digit c && all_digits s'
  end.

(** [str(n)] for a positive integer *)
Definition str (n : positive) : string :=
  NilEmpty.string_of_uint (Pos.to_uint n).

(** The string without its maximal run of trailing decimal digits. *)
Fixpoint rstrip_digits (s : string) : string :=
  match s with
  | EmptyString => EmptyString
  | String c s' =>
      let r := rstrip_digits s' in
      if is_digit c && is_empty r then EmptyString else String c r
  end.

End Py.

(** ** 4.1 ID normalizer *)

Definition normalize_arxiv_id (arxiv_id : string) : string :=
  if Py.is_empty arxiv_id then ""
  else
    let arxiv_id :=
      if Py.contains "/abs/" arxiv_id then Py.last (Py.split "/abs/" arxiv_id)
      else if Py.contains "arxiv.org" arxiv_id then Py.last (Py.split "/" arxiv_id)
      else arxiv_id in
    match Py.find "v" arxiv_id with
    | Some ver_pos => Py.take ver_pos arxiv_id
    | None => arxiv_id
    end.

(** Canonical form as the specification words it: no ["/abs/"], no source
    domain, and no ['v'] in front of the trailing digits. *)
Definition canonical (s : string) : Prop :=
  Py.contains "/abs/" s = false ∧
  Py.contains "arxiv.org" s = false ∧
  Py.contains "v" (Py.rstrip_digits s) = false.


(** ** More string primitives *)

Module PyStr.

(** [s.endswith(suf)] *)
Definition endswith (suf s : string) : bool :=
  (String.length suf <=? String.length s)%nat &&
  Py.startswith suf (Py.drop (String.length s - String.length suf) s).

(** Whitespace as [str.strip] and [str.split] see it, for code points
    below 256: TAB, LF, VT, FF, CR, FS, GS, RS, US, SPACE, NEL, NBSP. *)
Definition is_space (c : ascii) : bool :=
  match c with
  | "009" | "010" | "011" | "012" | "013"
  | "028" | "029" | "030" | "031" | " " | "133" | "160" => true
  | _ => false
  end%char.

Fixpoint lstrip (s : string) : string :=
  match s with
  | String c s' => if is_space c then lstrip s' else s
  | EmptyString => EmptyString
  end.

Fixpoint rstrip (s : string) : string :=
  match s with
  | EmptyString => EmptyString
  | String c s' =>
      let r := rstrip s' in
      if is_space c && Py.is_empty r then EmptyString else String c r
  end.

(** [s.strip()] *)
Definition strip (s : string) : string := rstrip (lstrip s).

(** [s.split()]: the maximal runs of non-whitespace characters. *)
Fixpoint words_go (cur : option string) (s : string) : list string :=
  match s with
  | EmptyString => option_list (String.rev <$> cur)
  | String c s' =>
      if is_space c then option_list (String.rev <$> cur) ++ words_go None s'
      else words_go (Some (String c (default EmptyString cur))) s'
  end.
Definition words (s : string) : list string := words_go None s.

(** [sep.join(l)] *)
Fixpoint join (sep : string) (l : list string) : string :=
  match l with
  | [] => EmptyString
  | [x] => x
  | x :: l' => x +:+ sep +:+ join sep l'
  end.

(** [s.replace(a, b)] for single characters *)
Fixpoint replace_char (a b : ascii) (s : string) : string :=
  match s with
  | EmptyString => EmptyString
  | String c s' => String (if Ascii.eqb c a then b else c) (replace_char a b s')
  end.

(** [s.lower()] on the ASCII letters; the fetcher only looks for ASCII
    words in the result. *)
Definition lower_char (c : ascii) : ascii :=
  let n := nat_of_ascii c in
  if (65 <=? n)%nat && (n <=? 90)%nat then ascii_of_nat (n + 32) else c.
Fixpoint lower (s : string) : string :=
  match s with
  | EmptyString => EmptyString
  | String c s' => String (lower_char c) (lower s')
  end.

(** [s[:-n]] *)
Definition drop_last (n : nat) (s : string) : string :=
  Py.take (String.length s - n) s.

Definition newline : string := String "010" EmptyString.

(** The lines of a text file opened for reading: a line ends at LF or
    CR.  Python reads CR LF as one line end; here it gives one more
    empty line, which the loader skips as blank. *)
Definition is_eol (c : ascii) : bool :=
  match c with "010" | "013" => true | _ => false end%char.

Fixpoint lines (s : string) : list string :=
  match s with
  | EmptyString => []
  | String c s' =>
      if is_eol c then EmptyString :: lines s'
      else match lines s' with
           | [] => [String c EmptyString]
           | l :: ls => String c l :: ls
           end
  end.

(** The text is empty or ends with a line end. *)
Fixpoint line_closed (s : string) : bool :=
  match s with
  | EmptyString => true
  | String c s' => if Py.is_empty s' then is_eol c else line_closed s'
  end.

End PyStr.

(** ** Values and exceptions *)

(** What [json.loads] returns and [json.dumps] takes. *)
Inductive json :=
  | JNull
  | JBool (b : bool)
  | JNum (z : Z)
  | JStr (s : string)
  | JArr (l : list json)
  | JObj (d : list (string * json)).

(** A [dict] with string keys, in insertion order. *)
Abbreviation pydict := (list (string * json)).

Fixpoint dict_get {A} (k : string) (d : list (string * A)) : option A :=
  match d with
  | [] => None
  | (k', v) :: d' => if String.eqb k k' then Some v else dict_get k d'
  end.

(** [k in d] *)
Definition dict_mem {A} (k : string) (d : list (string * A)) : bool :=
  match dict_get k d with Some _ => true | None => false end.

(** [d[k] = v] for a key that is not in [d] yet *)
Definition dict_add {A} (k : string) (v : A) (d : list (string * A)) :
  list (string * A) := d ++ [(k, v)].

Definition keys {A} (d : list (string * A)) : list string := d.*1.

Inductive exn :=
  | HTTPError (code : Z)
  | TypeError
  | AttributeError
  | OSError
  | OtherError.

Global Instance exn_eq_dec : EqDecision exn.
Proof. solve_decision. Defined.

Inductive result (A : Type) :=
  | Ok (a : A)
  | Raise (e : exn).
Arguments Ok {A} a.
Arguments Raise {A} e.

Definition is_raise {A} (r : result A) : bool :=
  match r with Raise _ => true | Ok _ => false end.

(** Truth value of a Python object *)
Definition truthy (v : json) : bool :=
  match v with
  | JNull => false
  | JBool b => b
  | JNum z => negb (z =? 0)
  | JStr s => negb (Py.is_empty s)
  | JArr l => match l with [] => false | _ => true end
  | JObj d => match d with [] => false | _ => true end
  end.

(** [normalize_arxiv_id] on whatever object it is handed: a false value
    gives [""], a string is normalized, and anything else fails on
    ['/abs/' in x], [x.split] or [x.find]. *)
Definition normalize_arxiv_id_obj (v : json) : result string :=
  if negb (truthy v) then Ok ""
  else match v with
       | JStr s => Ok (normalize_arxiv_id s)
       | JNull | JBool _ | JNum _ => Raise TypeError
       | JArr _ | JObj _ => Raise AttributeError
       end.

(** ['id' in data] *)
Definition has_id (data : json) : result bool :=
  match data with
  | JObj d => Ok (dict_mem "id" d)
  | JArr l =>
      Ok (existsb (λ x, match x with JStr s => String.eqb s "id" | _ => false end) l)
  | JStr s => Ok (Py.contains "id" s)
  | JNull | JBool _ | JNum _ => Raise TypeError
  end.

(** [data['id']], once ['id' in data] holds *)
Definition get_id (data : json) : result json :=
  match data with
  | JObj d => match dict_get "id" d with Some v => Ok v | None => Raise OtherError end
  | _ => Raise TypeError
  end.

(** ** The feed *)

(** An element's [.text] is [None] when the element is empty; [find]
    gives [None] when the element is missing. *)
Record entry := {
  e_id : option (option string);
  e_title : option (option string);
  e_summary : option (option string);
  e_authors : list (option (option string));
  e_published : option (option string);
  e_updated : option (option string);
  e_categories : list (option string);
  e_links : list (option string)
}.

(** What one [urlopen] and [read().decode()] comes to: a body, which
    parses into entries or is not well-formed XML, an HTTP error status,
    or any other failure. *)
Inductive response :=
  | Body (feed : option (list entry))
  | HttpFailure (code : Z)
  | Failure.

(** The store directory [./metadata]: file name to content, [None] when
    the directory does not exist. *)
Abbreviation directory := (option (gmap string string)).

Definition store_name (period : string) : string :=
  "arxiv-metadata-oai-snapshot-" +:+ period +:+ ".json".

(** ** 4.2 Store-file names *)

(** One attempt of the pattern
    [arxiv-metadata-oai-snapshot(-(\d{6}))?\.json] against the end of
    [s]: [None] when it fails, otherwise group 2 (the period, if any). *)
Definition match_end (s : string) : option (option string) :=
  if PyStr.endswith "arxiv-metadata-oai-snapshot.json" s then Some None
  else if PyStr.endswith ".json" s && (39 <=? String.length s)%nat then
    let tail := Py.drop (String.length s - 39) s in
    let digits := Py.take 6 (Py.drop 28 tail) in
    if Py.startswith "arxiv-metadata-oai-snapshot-" tail && Py.all_digits digits
    then Some (Some digits)
    else None
  else None.

(** [re.search(arxiv_pattern, filename)]; [$] also matches in front of a
    final newline. *)
Definition arxiv_match (filename : string) : option (option string) :=
  match match_end filename with
  | Some g => Some g
  | None =>
      if PyStr.endswith PyStr.newline filename
      then match_end (PyStr.drop_last 1 filename)
      else None
  end.

(** ** 4.3 Records built from feed entries *)

(** The entry is a search-information entry, not a paper. *)
Definition is_search_info (e : entry) : bool :=
  match e_title e with
  | Some (Some text) =>
      negb (Py.is_empty text) &&
      Py.contains "title" (PyStr.lower text) &&
      Py.contains "result" (PyStr.lower text)
  | _ => false
  end.

(** The fetcher's own derivation of the paper ID from [entry_id]. *)
Definition entry_paper_id (entry_id : string) : string :=
  let paper_id :=
    if Py.contains "/abs/" entry_id then Py.last (Py.split "/abs/" entry_id)
    else entry_id in
  match Py.find "v" paper_id with
  | Some ver_pos => Py.take ver_pos paper_id
  | None => paper_id
  end.

(** [authors_str += author.name + ", "] over the authors; a name that is
    [None] cannot be added to a string. *)
Fixpoint concat_authors (authors : list (option string)) (authors_str : string) :
    result string :=
  match authors with
  | [] => Ok authors_str
  | Some name :: rest => concat_authors rest (authors_str +:+ name +:+ ", ")
  | None :: _ => Raise TypeError
  end.

Definition get_authors (authors : list (option string)) : result string :=
  match authors with
  | [] => Ok "None"
  | _ =>
      match concat_authors authors "" with
      | Ok authors_str => Ok (PyStr.drop_last 2 authors_str)
      | Raise e => Raise e
      end
  end.

(** [[last, first, middle]] of one author name *)
Definition parse_author (name : string) : json :=
  let name_parts := PyStr.words name in
  if (2 <=? length name_parts)%nat then
    let last := List.last name_parts "" in
    let first := default "" (head name_parts) in
    let middle :=
      if (2 <? length name_parts)%nat
      then PyStr.join " " (List.removelast (List.tl name_parts))
      else "" in
    JArr [JStr last; JStr first; JStr middle]
  else JArr [JStr name; JStr ""; JStr ""].

(** [author.name.split()] needs a name that is a string. *)
Fixpoint parse_authors (authors : list (option string)) : result (list json) :=
  match authors with
  | [] => Ok []
  | Some name :: rest =>
      match parse_authors rest with
      | Ok parsed => Ok (parse_author name :: parsed)
      | Raise err => Raise err
      end
  | None :: _ => Raise AttributeError
  end.

Definition json_opt_str (o : option string) : json :=
  match o with Some s => JStr s | None => JNull end.

(** The text of an optional element through [f], or [""] when the
    element is missing; an element without text makes [f] fail. *)
Definition text_or_empty (err : exn) (f : string → string)
    (elem : option (option string)) : result string :=
  match elem with
  | None => Ok ""
  | Some (Some text) => Ok (f text)
  | Some None => Raise err
  end.

(** The dictionary stored under [paper_id], built in the order of the
    source; any failure on the way drops the entry. *)
Definition build_record (paper_id entry_id : string) (title : option string)
    (e : entry) : result pydict :=
  let authors := omap id (e_authors e) in
  let categories :=
    omap (λ term, match term with
                  | Some t => if Py.is_empty t then None else Some t
                  | None => None
                  end) (e_categories e) in
  let primary_category := head categories in
  let links := e_links e in
  match get_authors authors with
  | Raise err => Raise err
  | Ok paper_authors =>
  match text_or_empty AttributeError (PyStr.replace_char "010" " ") (e_summary e) with
  | Raise err => Raise err
  | Ok abstract =>
  match text_or_empty TypeError (Py.take 10) (e_published e) with
  | Raise err => Raise err
  | Ok publish_time =>
  match text_or_empty TypeError (Py.take 10) (e_updated e) with
  | Raise err => Raise err
  | Ok update_time =>
  match parse_authors authors with
  | Raise err => Raise err
  | Ok authors_parsed =>
      Ok [("id", JStr paper_id);
          ("authors", JStr paper_authors);
          ("title", json_opt_str title);
          ("comments", JNull);
          ("journal-ref", JNull);
          ("doi", JNull);
          ("categories", JArr (JStr <$> categories));
          ("abstract", JStr abstract);
          ("update_date", JStr update_time);
          ("authors_parsed", JArr authors_parsed);
          ("primary_category", json_opt_str primary_category);
          ("publish_time", JStr publish_time);
          ("entry_id", JStr entry_id);
          ("links", JArr (json_opt_str <$> links))]
  end end end end end.

(** One round of [for entry in entries], with its [try]/[except] that
    logs and goes on: the running [entry_count] and [full_content]. *)
Definition process_entry (acc : nat * list (string * pydict)) (e : entry) :
    nat * list (string * pydict) :=
  let '(entry_count, full_content) := acc in
  if is_search_info e then acc
  else
    let entry_count := S entry_count in
    match e_id e, e_title e with
    | Some entry_id_text, Some title =>
        match entry_id_text with
        | None => (entry_count, full_content)
        | Some entry_id =>
            let paper_id := entry_paper_id entry_id in
            if dict_mem paper_id full_content then (entry_count, full_content)
            else
              match build_record paper_id entry_id title e with
              | Ok paper => (entry_count, dict_add paper_id paper full_content)
              | Raise _ => (entry_count, full_content)
              end
        end
    | _, _ => (entry_count, full_content)
    end.

Definition process_entries (full_content : list (string * pydict))
    (entries : list entry) : nat * list (string * pydict) :=
  foldl process_entry (0%nat, full_content) entries.

(** What an entry contributes when no record has its ID yet: the ID and
    the record, provided the entry is a paper entry, has its [id] and
    [title] elements and builds without failure. *)
Definition entry_record (e : entry) : option (string * pydict) :=
  if is_search_info e then None
  else
    match e_id e, e_title e with
    | Some (Some entry_id), Some title =>
        match build_record (entry_paper_id entry_id) entry_id title e with
        | Ok paper => Some (entry_paper_id entry_id, paper)
        | Raise _ => None
        end
    | _, _ => None
    end.

(** [d.setdefault(k, v)]: the first value stored under a key stays. *)
Definition dict_setdefault {A} (d : list (string * A)) (kv : string * A) :
    list (string * A) :=
  if dict_mem kv.1 d then d else dict_add kv.1 kv.2 d.

(** The entries of a page that count as results. *)
Definition real_entries (entries : list entry) : list entry :=
  filter (λ e, is_search_info e = false) entries.

(** [l[-n:]] for [n > 0] *)
Definition last_n {A} (n : nat) (l : list A) : list A :=
  drop (length l - n) l.

(** ** The world outside the program *)

Record world := World {
  w_dir : directory;       (* ./metadata *)
  w_writes : nat;          (* writes sent to the disk for store files so far *)
  w_requests : nat;        (* [urlopen] calls so far *)
  w_sleeps : list Z        (* the seconds of every [time.sleep], latest first *)
}.

Definition sleep (seconds : Z) (w : world) : world :=
  World (w_dir w) (w_writes w) (w_requests w) (seconds :: w_sleeps w).

Definition set_dir (d : directory) (w : world) : world :=
  World d (w_writes w) (w_requests w) (w_sleeps w).

(** [os.makedirs(metadata_dir, exist_ok=True)] *)
Definition makedirs (w : world) : world :=
  match w_dir w with
  | None => set_dir (Some ∅) w
  | Some _ => w
  end.

Definition read_file (name : string) (w : world) : option string :=
  match w_dir w with
  | Some files => files !! name
  | None => None
  end.

(** [open(name, 'a')] creates the file when it is missing. *)
Definition open_append (name : string) (w : world) : world :=
  match w_dir w with
  | Some files =>
      match files !! name with
      | Some _ => w
      | None => set_dir (Some (<[name := ""]> files)) w
      end
  | None => w
  end.

(** The fetch loop's variables; [fetched] is specification-only: every
    entry parsed so far, in order. *)
Record state := State {
  start : Z;
  empty_page_count : Z;
  full_content : list (string * pydict);
  existing_data : gset string;
  new_papers_count : Z;
  fetched : list entry
}.

Inductive ctl := Continue | Break.

(** The sleeps of [count] retries numbered from [first], each [unit]
    seconds times its number, latest first. *)
Definition backoff (unit : Z) (first count : nat) : list Z :=
  rev ((λ i, unit * Z.of_nat i) <$> seq first count).

(** The two kinds of answer the retry loop tries again, with the unit of
    their backoff and the exception raised when the retries are used up. *)
Inductive transient : response → Z → exn → Prop :=
  | transient_503 : transient (HttpFailure 503) 10 (HTTPError 503)
  | transient_failure : transient Failure 5 OtherError.


Definition max_retries : Z := 5.
Definition batch_size : Z := 100.
Definition max_empty_pages : Z := 3.

(** ** Periods as numbers *)

Definition digit_value (c : ascii) : Z := Z.of_N (N_of_ascii c) - 48.

(** The number a string of decimal digits stands for. *)
Fixpoint number_from (acc : Z) (s : string) : Z :=
  match s with
  | EmptyString => acc
  | String c s' => number_from (10 * acc + digit_value c) s'
  end.

Definition period_number (p : string) : Z := number_from 0 p.

(** ** The category statistic of the report *)

(** [s.split(sep)[0]] *)
Definition first_piece (sep s : string) : string :=
  default "" (head (Py.split sep s)).

(** The main category a tag is counted under. *)
Definition main_category (category : string) : string :=
  if Py.contains "." category then first_piece "." category
  else if Py.contains "/" category then first_piece "/" category
  else category.

(** [category_counts[main_category] =
     category_counts.get(main_category, 0) + 1] *)
Definition count_category (category_counts : gmap string Z)
    (category : string) : gmap string Z :=
  let main_category := main_category category in
  <[main_category := default 0 (category_counts !! main_category) + 1]>
    category_counts.

(** [x in l] for a string [x] and a list [l] *)
Definition list_has (x : string) (l : list json) : bool :=
  existsb (λ v, match v with JStr s => String.eqb s x | _ => false end) l.

(** One round of [for category in categories]: a tag that is not a
    string fails on ['.' in category], on [category.split] or as a
    dictionary key. *)
Definition tally_tag (category_counts : gmap string Z) (category : json) :
    result (gmap string Z) :=
  match category with
  | JStr s => Ok (count_category category_counts s)
  | JNull | JBool _ | JNum _ => Raise TypeError
  | JArr l =>
      if list_has "." l || list_has "/" l then Raise AttributeError
      else Raise TypeError
  | JObj d =>
      if dict_mem "." d || dict_mem "/" d then Raise AttributeError
      else Raise TypeError
  end.

Fixpoint tally_tags (category_counts : gmap string Z) (categories : list json) :
    result (gmap string Z) :=
  match categories with
  | [] => Ok category_counts
  | category :: rest =>
      match tally_tag category_counts category with
      | Ok category_counts => tally_tags category_counts rest
      | Raise e => Raise e
      end
  end.

(** The tally of one parsed line: [data.get('categories', [])] is a
    list of tags, a comma-separated string of tags, or something else,
    which counts nothing; [data] that is no dictionary has no [get]. *)
Definition tally_record (category_counts : gmap string Z) (data : json) :
    result (gmap string Z) :=
  match data with
  | JObj d =>
      match default (JArr []) (dict_get "categories" d) with
      | JArr categories => tally_tags category_counts categories
      | JStr categories =>
          Ok (foldl count_category category_counts
                (PyStr.strip <$> Py.split "," categories))
      | _ => Ok category_counts
      end
  | _ => Raise AttributeError
  end.

(** Every key of the tally is free of dots and every count positive. *)
Definition main_counts (category_counts : gmap string Z) : Prop :=
  ∀ k z, category_counts !! k = Some z → Py.contains "." k = false ∧ 0 < z.

(** ** A small concrete environment

    Used to run the definitions: a codec for records that hold nothing
    but an ['id'], a reader for records that hold nothing but their
    tags, feed entries, scripted servers and disks. *)

Module Demo.

(** [{"id": "X"}] is written [{X}]; a record without a string ['id']
    is written [{}]. *)
Definition dumps (v : json) : string :=
  match v with
  | JObj d =>
      match dict_get "id" d with
      | Some (JStr s) => "{" +:+ s +:+ "}"
      | _ => "{}"
      end
  | JNum _ => "5"
  | _ => "null"
  end.

Definition loads (s : string) : option json :=
  if Py.startswith "{" s && PyStr.endswith "}" s then
    let body := PyStr.drop_last 1 (Py.drop 1 s) in
    Some (JObj (if Py.is_empty body then [] else [("id", JStr body)]))
  else if String.eqb s "5" then Some (JNum 5)
  else None.

Definition paper (entry_id title : string) : entry :=
  {| e_id := Some (Some entry_id);
     e_title := Some (Some title);
     e_summary := Some (Some "An abstract.");
     e_authors := [Some (Some "Ada Lovelace")];
     e_published := Some (Some "2025-08-01T00:00:00Z");
     e_updated := Some (Some "2025-08-02T00:00:00Z");
     e_categories := [Some "cs.AI"];
     e_links := [Some entry_id] |}.

(** The same entry without its [title] element. *)
Definition untitled (entry_id : string) : entry :=
  {| e_id := Some (Some entry_id);
     e_title := None;
     e_summary := Some (Some "An abstract.");
     e_authors := [Some (Some "Ada Lovelace")];
     e_published := Some (Some "2025-08-01T00:00:00Z");
     e_updated := Some (Some "2025-08-02T00:00:00Z");
     e_categories := [Some "cs.AI"];
     e_links := [Some entry_id] |}.

(** The [n]-th request gets the [n]-th answer; later ones an empty feed. *)
Definition server (answers : list response) : nat → Z → Z → response :=
  λ n _ _, default (Body (Some [])) (answers !! n).

Definition disk_good : nat → bool := λ _, true.
Definition disk_bad : nat → bool := λ _, false.
(** Only the first write sent to the disk fails. *)
Definition disk_first_fails : nat → bool :=
  λ n, match n with O => false | S _ => true end.

Definition year_month : string := "202508".

(** No [./metadata] directory yet. *)
Definition fresh : world := World None 0 0 [].

(** A store file that does not end with a newline. *)
Definition unterminated : world :=
  World (Some {[store_name year_month := "{1}"]}) 0 0 [].

Definition record (paper_id : string) : string * pydict :=
  (paper_id, [("id", JStr paper_id)]).

Definition v1 : string := "http://arxiv.org/abs/2508.00001v1".
Definition v2 : string := "http://arxiv.org/abs/2508.00001v2".
Definition other : string := "http://arxiv.org/abs/2508.00002v1".

Definition first_state : state := State 0 0 [] ∅ 0 [].

(** A reader for lines that hold the tags of a record, separated by
    commas: [cs.AI,cs.LG] is read as [{"categories": ["cs.AI", "cs.LG"]}]. *)
Definition tagged (s : string) : option json :=
  Some (JObj [("categories", JArr (JStr <$> Py.split "," s))]).


End Demo.

(** ** The pipeline against its environment *)

Section pipeline.

Set Default Proof Using "Type".

(** [json.loads]; [None] stands for [JSONDecodeError]. *)
Variable json_loads : string → option json.
(** [json.dumps(_, ensure_ascii=False)] *)
Variable json_dumps : json → string.
(** [datetime.now().strftime("%Y%m")], taken as fixed during a run *)
Variable current_year_month : string.
(** The answer to the [n]-th request, asked for [max_results] entries
    from offset [start]. *)
Variable urlopen : nat → Z → Z → response.
(** Whether the [n]-th write sent to the disk for a store file goes
    through. *)
Variable disk_ok : nat → bool.

(** *** 4.2 Existing-store loader *)

(** One line of a store file: nothing to add, an ID to add, or an
    exception other than [JSONDecodeError]. *)
Definition load_line (line : string) : result (option string) :=
  let line := PyStr.strip line in
  if Py.is_empty line then Ok None
  else
    match json_loads line with
    | None => Ok None
    | Some data =>
        match has_id data with
        | Raise e => Raise e
        | Ok false => Ok None
        | Ok true =>
            match get_id data with
            | Raise e => Raise e
            | Ok paper_id =>
                match normalize_arxiv_id_obj paper_id with
                | Raise e => Raise e
                | Ok paper_id => Ok (Some paper_id)
                end
            end
        end
    end.

(** The scan of one file; an exception ends it, is logged by the
    file's handler, and what was added stays added. *)
Fixpoint load_lines (ls : list string) (ids : gset string) : gset string :=
  match ls with
  | [] => ids
  | line :: rest =>
      match load_line line with
      | Ok None => load_lines rest ids
      | Ok (Some paper_id) => load_lines rest ({[paper_id]} ∪ ids)
      | Raise _ => ids
      end
  end.

Definition load_file (skip_no_date_files : bool) (ids : gset string)
    (file : string * string) : gset string :=
  let '(filename, content) := file in
  match arxiv_match filename with
  | None => ids
  | Some file_year_month =>
      match file_year_month with
      | None =>
          if skip_no_date_files then ids
          else load_lines (PyStr.lines content) ids
      | Some ym =>
          if String.leb ym current_year_month
          then load_lines (PyStr.lines content) ids
          else ids
      end
  end.

(** The loop over [os.listdir(metadata_dir)], in the order listed. *)
Definition load_listing (skip_no_date_files : bool)
    (listing : list (string * string)) : gset string :=
  foldl (load_file skip_no_date_files) ∅ listing.

(** Of the three sets the source returns only the one under
    ['arxiv-metadata-oai-snapshot'] is ever filled or read. *)
Definition load_existing_metadata_files (skip_no_date_files : bool)
    (dir : directory) : gset string :=
  match dir with
  | None => ∅
  | Some files => load_listing skip_no_date_files (map_to_list files)
  end.

(** *** 4.4 Incremental writer *)

Definition arxiv_file : string := store_name current_year_month.

(** [data] sent to the disk for the store file: it is appended, or the
    write fails with [OSError] and the file stays as it was. *)
Definition write (data : string) (w : world) : result unit * world :=
  let n := w_writes w in
  match w_dir w with
  | Some files =>
      if disk_ok n then
        let content := default "" (files !! arxiv_file) +:+ data in
        (Ok (),
         World (Some (<[arxiv_file := content]> files)) (S n)
           (w_requests w) (w_sleeps w))
      else (Raise OSError, World (w_dir w) (S n) (w_requests w) (w_sleeps w))
  | None => (Raise OSError, World None (S n) (w_requests w) (w_sleeps w))
  end.

(** The block that makes a non-empty file end with a newline; the file
    is closed as soon as the newline is written. *)
Definition ensure_newline (w : world) : result unit * world :=
  match read_file arxiv_file w with
  | Some content =>
      if negb (Py.is_empty content) && negb (PyStr.endswith PyStr.newline content)
      then write PyStr.newline w
      else (Ok (), w)
  | None => (Ok (), w)
  end.

(** [for paper_id, paper_data in new_dict.items()] on the file opened
    with [open(arxiv_file, 'a')].  Such a file is buffered: [f.write]
    puts the line behind the text that waits in the buffer, [pending],
    and does not fail; the counter and the set are changed right after
    it.  The set is changed in place, so it is handed back on failure
    too. *)
Fixpoint save_items (items : list (string * pydict)) (new_entries : nat)
    (known : gset string) (pending : string) :
    result nat * gset string * string :=
  match items with
  | [] => (Ok new_entries, known, pending)
  | (paper_id, paper_data) :: rest =>
      let full_paper_id := default (JStr paper_id) (dict_get "id" paper_data) in
      match normalize_arxiv_id_obj full_paper_id with
      | Raise e => (Raise e, known, pending)
      | Ok clean_paper_id =>
          if decide (clean_paper_id ∈ known) then
            save_items rest new_entries known pending
          else
            save_items rest (S new_entries) ({[clean_paper_id]} ∪ known)
              (pending +:+ (json_dumps (JObj paper_data) +:+ PyStr.newline))
      end
  end.

(** Leaving the [with] block closes the file, whether the loop has
    ended or raised: the text that waits in the buffer is sent to the
    disk, in one piece, and a failure of that write is raised here.  The
    text of one batch is taken to fit the buffer, so that nothing is
    sent before. *)
Definition close (pending : string) (w : world) : result unit * world :=
  if Py.is_empty pending then (Ok (), w) else write pending w.

(** Returns [(new_entries, total_arxiv)] or raises; the third component
    of the source's result is the set, given here in both cases.  An
    exception of [close] takes the place of one the loop has raised. *)
Definition save_metadata_files (new_dict : list (string * pydict))
    (existing_data : option (gset string)) (skip_no_date_files : bool)
    (w : world) : result (nat * nat) * gset string * world :=
  let w := makedirs w in
  let known :=
    match existing_data with
    | Some known => known
    | None => load_existing_metadata_files skip_no_date_files (w_dir w)
    end in
  match ensure_newline w with
  | (Raise e, w) => (Raise e, known, w)
  | (Ok _, w) =>
      let w := open_append arxiv_file w in
      let '(looped, known, pending) := save_items new_dict 0 known "" in
      match close pending w with
      | (Raise e, w) => (Raise e, known, w)
      | (Ok _, w) =>
          match looped with
          | Ok new_entries => (Ok (new_entries, size known), known, w)
          | Raise e => (Raise e, known, w)
          end
      end
  end.

(** *** 4.3 Paginated fetcher *)

(** The retry loop [while retry_count < max_retries]; [fuel] bounds its
    rounds and running out of it is the loop ending with
    [content is None]. *)
Fixpoint retry_loop (fuel : nat) (retry_count : Z) (page_start page_max : Z)
    (w : world) : result (option (list entry)) * world :=
  match fuel with
  | O => (Raise OtherError, w)
  | S fuel' =>
      if retry_count <? max_retries then
        let answer := urlopen (w_requests w) page_start page_max in
        let w := World (w_dir w) (w_writes w) (S (w_requests w)) (w_sleeps w) in
        match answer with
        | Body content => (Ok content, w)
        | HttpFailure code =>
            if code =? 503 then
              let retry_count := retry_count + 1 in
              let wait_time := 10 * retry_count in
              if retry_count <? max_retries
              then retry_loop fuel' retry_count page_start page_max (sleep wait_time w)
              else (Raise (HTTPError code), w)
            else (Raise (HTTPError code), w)
        | Failure =>
            let retry_count := retry_count + 1 in
            if retry_count <? max_retries
            then
              let wait_time := 5 * retry_count in
              retry_loop fuel' retry_count page_start page_max (sleep wait_time w)
            else (Raise OtherError, w)
        end
      else (Raise OtherError, w)
  end.

Definition request_page (page_start page_max : Z) (w : world) :
    result (option (list entry)) * world :=
  retry_loop (Z.to_nat max_retries) 0 page_start page_max w.

(** The records of [current_items] whose normalized ID is not known. *)
Fixpoint select_new (current_items : list (string * pydict))
    (known : gset string) : result (list (string * pydict)) :=
  match current_items with
  | [] => Ok []
  | (paper_id, paper_data) :: rest =>
      match normalize_arxiv_id_obj
              (default (JStr paper_id) (dict_get "id" paper_data)) with
      | Raise e => Raise e
      | Ok clean_paper_id =>
          match select_new rest known with
          | Raise e => Raise e
          | Ok batch_data =>
              if decide (clean_paper_id ∈ known) then Ok batch_data
              else Ok ((paper_id, paper_data) :: batch_data)
          end
      end
  end.

Definition set_saved (known : gset string) (added : Z) (st : state) : state :=
  State (start st) (empty_page_count st) (full_content st) known
    (new_papers_count st + added) (fetched st).

(** The save after a page with entries, inside its own [try]; its
    handler logs the failure and lets the loop go on. *)
Definition save_page (entry_count : nat) (st : state) (w : world) :
    state * world :=
  let current_items := last_n entry_count (full_content st) in
  match select_new current_items (existing_data st) with
  | Raise _ => (st, w)
  | Ok batch_data =>
      let batch_new_count := Z.of_nat (length batch_data) in
      if (0 <? length batch_data)%nat then
        match save_metadata_files batch_data (Some (existing_data st)) false w with
        | (Ok _, known, w) => (set_saved known batch_new_count st, sleep 5 w)
        | (Raise _, known, w) => (set_saved known 0 st, w)
        end
      else (st, w)
  end.

Definition page_max (target_results : option Z) (st : state) : Z :=
  match target_results with
  | Some target => Z.min batch_size (target - start st)
  | None => batch_size
  end.

(** One round of the [while] loop. *)
Definition page_step (target_results : option Z) (st : state) (w : world) :
    ctl * state * world :=
  let w := sleep 5 w in
  match request_page (start st) (page_max target_results st) w with
  | (Raise (HTTPError code), w) =>
      if code =? 503 then (Continue, st, sleep 10 w) else (Break, st, w)
  | (Raise _, w) => (Break, st, w)
  | (Ok None, w) => (Break, st, w)
  | (Ok (Some entries), w) =>
      let '(entry_count, content) := process_entries (full_content st) entries in
      let seen := fetched st ++ entries in
      if (entry_count =? 0)%nat then
        let empty := empty_page_count st + 1 in
        if max_empty_pages <=? empty then
          (Break,
           State (start st) empty content (existing_data st)
             (new_papers_count st) seen, w)
        else
          (Continue,
           State (start st + batch_size) empty content (existing_data st)
             (new_papers_count st) seen, w)
      else
        let st :=
          State (start st + batch_size) 0 content (existing_data st)
            (new_papers_count st) seen in
        let '(st, w) := save_page entry_count st w in
        (Continue, st, w)
  end.

Definition loop_test (target_results : option Z) (st : state) : bool :=
  match target_results with
  | Some target => start st <? target
  | None => true
  end && (empty_page_count st <? max_empty_pages).

(** The [while] loop; [None] when [fuel] rounds were not enough. *)
Fixpoint fetch_loop (fuel : nat) (target_results : option Z) (st : state)
    (w : world) : option (state * world) :=
  if loop_test target_results st then
    match fuel with
    | O => None
    | S fuel' =>
        match page_step target_results st w with
        | (Break, st, w) => Some (st, w)
        | (Continue, st, w) => fetch_loop fuel' target_results st w
        end
    end
  else Some (st, w).

Definition nonempty (o : option string) : bool :=
  match o with Some s => negb (Py.is_empty s) | None => false end.

(** [get_daily_papers]: the result it returns or the exception it
    raises, the final loop variables and the world it leaves; [None]
    when [fuel] rounds of the page loop were not enough. *)
Definition get_daily_papers (fuel : nat) (max_results : Z)
    (start_date end_date : option string) (w : world) :
    option (result (list (string * pydict) * Z) * state * world) :=
  let max_results :=
    if nonempty start_date && nonempty end_date && (max_results =? 100)
    then None else Some max_results in
  let known := load_existing_metadata_files false (w_dir w) in
  let target_results := max_results in
  match fetch_loop fuel target_results (State 0 0 [] known 0 []) w with
  | Some (st, w) => Some (Ok (full_content st, new_papers_count st), st, w)
  | None => None
  end.

(** *** Vocabulary of the properties *)

(** The ID under which the loader finds a record: its ['id'], when
    that is a string, normalized. *)
Definition dict_record_id (d : pydict) : option string :=
  match dict_get "id" d with
  | Some (JStr s) => Some (normalize_arxiv_id s)
  | _ => None
  end.

(** The canonical ID of the record on a line: the line is not blank and
    parses as an object whose ['id'] is a string. *)
Definition record_id (line : string) : option string :=
  let line := PyStr.strip line in
  if Py.is_empty line then None
  else
    match json_loads line with
    | Some (JObj d) => dict_record_id d
    | _ => None
    end.

(** The canonical IDs of the parseable records of a file, line by line. *)
Definition record_ids (content : string) : list string :=
  omap record_id (PyStr.lines content).

(** A line of a store file as §6 describes the format: blank, not
    JSON at all, or one JSON object, whose ['id'] is a string if it
    has one. *)
Definition is_record_line (line : string) : bool :=
  let line := PyStr.strip line in
  Py.is_empty line ||
  match json_loads line with
  | None => true
  | Some (JObj d) =>
      match dict_get "id" d with
      | None | Some (JStr _) => true
      | Some _ => false
      end
  | Some _ => false
  end.

Definition store_file (content : string) : Prop :=
  forallb is_record_line (PyStr.lines content) = true.

(** What the writer normalizes for an item of [new_dict]: the record's
    own ['id'], or the key when the record has none. *)
Definition item_id (item : string * pydict) : result string :=
  normalize_arxiv_id_obj (default (JStr item.1) (dict_get "id" item.2)).

Definition clean_id (item : string * pydict) : string :=
  match item_id item with Ok c => c | Raise _ => "" end.

(** The line written for a record. *)
Definition store_line (item : string * pydict) : string :=
  json_dumps (JObj item.2) +:+ PyStr.newline.

Definition store_lines (items : list (string * pydict)) : string :=
  foldr (λ item rest, store_line item +:+ rest) "" items.

(** The store file of the current period, read as empty when missing. *)
Definition store_content (w : world) : string :=
  default "" (read_file arxiv_file w).

Definition needs_newline (content : string) : bool :=
  negb (Py.is_empty content) && negb (PyStr.endswith PyStr.newline content).

Definition with_newline (content : string) : string :=
  if needs_newline content then content +:+ PyStr.newline else content.

(** Everything of the world but the store file of the current period. *)
Definition same_elsewhere (w w' : world) : Prop :=
  w_requests w' = w_requests w ∧ w_sleeps w' = w_sleeps w ∧
  ∀ name, name ≠ arxiv_file → read_file name w' = read_file name w.

Fixpoint no_eol (s : string) : bool :=
  match s with
  | EmptyString => true
  | String c s' => negb (PyStr.is_eol c) && no_eol s'
  end.

(** What the pipeline needs of [json.dumps] and [json.loads] on a
    record: the text is one line, and reading it back gives an object
    with the same ['id']. *)
Definition codec_ok (item : string * pydict) : bool :=
  let text := json_dumps (JObj item.2) in
  no_eol text &&
  negb (Py.is_empty (PyStr.strip text)) &&
  match json_loads (PyStr.strip text) with
  | Some (JObj d) => bool_decide (dict_record_id d = dict_record_id item.2)
  | _ => false
  end.

(** The invariant of §3 on the store: the IDs of the records of all store
    files, [others] being those of the files of other periods, are
    pairwise distinct and all in the Known-ID Set. *)
Definition store_unique (others : list string) (known : gset string)
    (w : world) : Prop :=
  NoDup (others ++ record_ids (store_content w)) ∧
  ∀ i, i ∈ others ++ record_ids (store_content w) → i ∈ known.

(** The accumulated output holds, for each ID, what the first entry that
    contributes a record under it gave. *)
Definition accumulated (st : state) : Prop :=
  full_content st = foldl dict_setdefault [] (omap entry_record (fetched st)).

(** A period suffix: six decimal digits. *)
Definition period (p : string) : Prop :=
  String.length p = 6%nat ∧ Py.all_digits p = true.

(** A file the loader passes over: its name does not match the pattern,
    its period is later than the current one, or it has no period and
    such files are to be skipped. *)
Definition passed_over (skip : bool) (name : string) : Prop :=
  arxiv_match name = None ∨
  (∃ p, arxiv_match name = Some (Some p) ∧
        String.leb p current_year_month = false) ∨
  (arxiv_match name = Some None ∧ skip = true).

(** The keys of [content] are distinct and every record carries its key
    as the ID the writer finds. *)
Definition well_keyed (content : list (string * pydict)) : Prop :=
  NoDup (keys content) ∧ ∀ item, item ∈ content → item_id item = Ok item.1.

(** The records of a batch the writer puts a line into the file's
    buffer for: those whose ID is not in the set when the loop gets to
    them, up to the first record whose ID cannot be normalized. *)
Fixpoint new_records (items : list (string * pydict)) (known : gset string) :
    list (string * pydict) :=
  match items with
  | [] => []
  | item :: rest =>
      match item_id item with
      | Raise _ => []
      | Ok c =>
          if decide (c ∈ known) then new_records rest known
          else item :: new_records rest ({[c]} ∪ known)
      end
  end.


(** The account of a call so far, from the world [w0] and the set
    [known0] it started with: [written] are the records appended to the
    store file, in order, and [lost] those of the saves that failed when
    the file was closed; the file is its old content, closed by a
    newline once a save got that far, followed by the lines of
    [written]; no other file has changed; the set has gained the IDs of
    both, which are distinct and were not known; each of them is in
    [content]; [count] is at most the number of [written], and when no
    write fails it is their number, none is lost, they are the records
    of [content] with an ID that was not known, and the file is
    untouched as long as there is none. *)
Definition ledger (w0 : world) (known0 : gset string)
    (written lost content : list (string * pydict)) (known : gset string)
    (count : Z) (w : world) : Prop :=
  (written = [] ∧ store_content w = store_content w0 ∨
   store_content w = with_newline (store_content w0) +:+ store_lines written) ∧
  (∀ name, name ≠ arxiv_file → read_file name w = read_file name w0) ∧
  known = known0 ∪ list_to_set (clean_id <$> written ++ lost) ∧
  NoDup (clean_id <$> written ++ lost) ∧
  (∀ item, item ∈ written ++ lost → (clean_id item ∉ known0) ∧ item ∈ content) ∧
  count ≤ Z.of_nat (length written) ∧
  ((∀ k, disk_ok k = true) →
   lost = [] ∧
   count = Z.of_nat (length written) ∧
   written = filter (λ item, item.1 ∉ known0) content ∧
   (written = [] → store_content w = store_content w0)).

(** The scan of the store file of the current period in
    [generate_report]: blank lines and lines that are not JSON are
    passed over; any other failure ends the statistic. *)
Fixpoint tally_lines (ls : list string) (category_counts : gmap string Z) :
    result (gmap string Z) :=
  match ls with
  | [] => Ok category_counts
  | line :: rest =>
      let line := PyStr.strip line in
      if Py.is_empty line then tally_lines rest category_counts
      else
        match json_loads line with
        | None => tally_lines rest category_counts
        | Some data =>
            match tally_record category_counts data with
            | Ok category_counts => tally_lines rest category_counts
            | Raise e => Raise e
            end
        end
  end.

(** [category_counts] after the file and the report's own
    ['category_stats'] have been counted; [None] when the statistic is
    replaced by the notice that it is not available. *)
Definition category_statistic (category_stats : list (string * Z))
    (w : world) : option (gmap string Z) :=
  let counted :=
    match read_file arxiv_file w with
    | Some content => tally_lines (PyStr.lines content) ∅
    | None => Ok ∅
    end in
  match counted with
  | Ok category_counts =>
      Some (foldl (λ counts kv,
                     <[kv.1 := default 0 (counts !! kv.1) + kv.2]> counts)
              category_counts category_stats)
  | Raise _ => None
  end.
(** * Properties *)

(** ** Strings *)

Section string_facts.
Implicit Types (s t u p sep : string) (c : ascii).

Lemma app_nil_str t : "" +:+ t = t.
Proof. reflexivity. Qed.

Lemma app_cons_str c s t : String c s +:+ t = String c (s +:+ t).
Proof. reflexivity. Qed.

Lemma app_empty_r s : s +:+ "" = s.
Proof. induction s; rewrite ?app_cons_str; [done | congruence]. Qed.

Lemma app_assoc_str s t u : (s +:+ t) +:+ u = s +:+ (t +:+ u).
Proof. induction s; rewrite ?app_cons_str; [done | congruence]. Qed.

Lemma length_app_str s t :
  String.length (s +:+ t) = (String.length s + String.length t)%nat.
Proof. induction s; rewrite ?app_cons_str; simpl; [done | congruence]. Qed.

Lemma is_empty_true s : Py.is_empty s = true ↔ s = "".
Proof. destruct s; simpl; split; congruence. Qed.

Lemma take_length_app s t : Py.take (String.length s) (s +:+ t) = s.
Proof.
  induction s; rewrite ?app_cons_str, ?app_nil_str; simpl;
    [by destruct t | congruence].
Qed.

Lemma take_app_le n s t :
  (n ≤ String.length s)%nat → Py.take n (s +:+ t) = Py.take n s.
Proof.
  revert n. induction s as [|c s IH]; intros [|n] Hn;
    rewrite ?app_cons_str, ?app_nil_str; simpl in *; try lia; try done.
  f_equal. apply IH. lia.
Qed.

Lemma drop_app_le n s t :
  (n ≤ String.length s)%nat → Py.drop n (s +:+ t) = Py.drop n s +:+ t.
Proof.
  revert n. induction s as [|c s IH]; intros [|n] Hn;
    rewrite ?app_cons_str, ?app_nil_str; simpl in *; try lia; try done.
  apply IH. lia.
Qed.

Lemma length_drop n s : String.length (Py.drop n s) = (String.length s - n)%nat.
Proof.
  revert n. induction s as [|c s IH]; intros [|n]; simpl; done.
Qed.

(** *** Prefix tests *)

Lemma startswith_nonempty_nil p : p ≠ "" → Py.startswith p "" = false.
Proof. by destruct p. Qed.

Lemma startswith_length p s :
  Py.startswith p s = true → (String.length p ≤ String.length s)%nat.
Proof.
  revert s. induction p as [|a p IH]; intros [|b s]; simpl; try done; try lia.
  intros [_ H]%andb_true_iff. apply IH in H. lia.
Qed.

Lemma startswith_app_le p s t :
  (String.length p ≤ String.length s)%nat →
  Py.startswith p (s +:+ t) = Py.startswith p s.
Proof.
  revert s. induction p as [|a p IH]; intros [|b s] Hl;
    rewrite ?app_cons_str; simpl in *; try done; try lia.
  f_equal. apply IH. lia.
Qed.

Lemma startswith_take n p s :
  Py.startswith p (Py.take n s) = true → Py.startswith p s = true.
Proof.
  revert n s. induction p as [|a p IH]; intros [|n] [|b s]; simpl; try done.
  intros [-> H]%andb_true_iff. simpl. by apply (IH n).
Qed.

Lemma startswith_app_l p q s :
  Py.startswith (p +:+ q) s = true → Py.startswith p s = true.
Proof.
  revert s. induction p as [|a p IH]; intros [|b s];
    rewrite ?app_cons_str; simpl; try done.
  intros [-> H]%andb_true_iff. simpl. by apply IH.
Qed.

(** *** Substring tests *)

Lemma contains_nonempty_nil p : p ≠ "" → Py.contains p "" = false.
Proof. by destruct p. Qed.

Lemma contains_cons sub c s :
  Py.contains sub (String c s) =
  Py.startswith sub (String c s) || Py.contains sub s.
Proof. by destruct sub. Qed.

Lemma find_cons sub c s :
  Py.find sub (String c s) =
  if Py.startswith sub (String c s) then Some 0%nat else S <$> Py.find sub s.
Proof. by destruct sub. Qed.

Lemma find_contains sub s : Py.contains sub s = bool_decide (is_Some (Py.find sub s)).
Proof.
  induction s as [|c s IH].
  - by destruct sub.
  - rewrite contains_cons, find_cons. destruct (Py.startswith _ _); simpl.
    + done.
    + rewrite IH. by destruct (Py.find sub s).
Qed.

Lemma find_None_contains sub s : Py.find sub s = None ↔ Py.contains sub s = false.
Proof.
  rewrite find_contains, bool_decide_eq_false, <-eq_None_not_Some. done.
Qed.

Lemma find_Some_contains sub s i : Py.find sub s = Some i → Py.contains sub s = true.
Proof. intros H. rewrite find_contains, bool_decide_eq_true, H. by eexists. Qed.

(** The occurrence [find] reports lies inside the string. *)
Lemma find_Some_length sub s i :
  Py.find sub s = Some i → (i + String.length sub ≤ String.length s)%nat.
Proof.
  revert i. induction s as [|c s IH]; intros i.
  - destruct sub; simpl; [|done]. intros [= <-]. simpl. lia.
  - rewrite find_cons. destruct (Py.startswith _ _) eqn:Hs.
    + intros [= <-]. by apply startswith_length in Hs.
    + destruct (Py.find sub s) as [j|]; simpl; [|done].
      intros [= <-]. specialize (IH j eq_refl). simpl. lia.
Qed.

Lemma contains_take n sub s :
  Py.contains sub (Py.take n s) = true → Py.contains sub s = true.
Proof.
  revert n. induction s as [|c s IH]; intros n.
  - by destruct n.
  - destruct n as [|n].
    + simpl Py.take. destruct sub; [done|]. done.
    + simpl Py.take. rewrite !contains_cons.
      intros [H|H]%orb_true_iff; apply orb_true_iff.
      * left. by apply (startswith_take (S n) sub (String c s)).
      * right. by apply (IH n).
Qed.

(** Nothing is found in front of the first occurrence. *)
Lemma contains_take_find sub s i :
  sub ≠ "" → Py.find sub s = Some i → Py.contains sub (Py.take i s) = false.
Proof.
  intros Hne. revert i. induction s as [|c s IH]; intros i.
  - by destruct sub.
  - rewrite find_cons. destruct (Py.startswith _ _) eqn:Hs.
    + intros [= <-]. simpl Py.take. by apply contains_nonempty_nil.
    + destruct (Py.find sub s) as [j|]; simpl; [|done].
      intros [= <-]. change (Py.take (S j) (String c s)) with (String c (Py.take j s)).
      rewrite contains_cons, (IH j eq_refl), orb_false_r.
      destruct (Py.startswith sub (String c (Py.take j s))) eqn:Ht; [|done].
      apply (startswith_take (S j) sub (String c s)) in Ht. congruence.
Qed.

Lemma contains_app_l p q s :
  Py.contains (p +:+ q) s = true → Py.contains p s = true.
Proof.
  induction s as [|c s IH].
  - destruct p as [|a p]; [done|]. done.
  - rewrite !contains_cons. intros [H|H]%orb_true_iff; apply orb_true_iff.
    + left. by apply startswith_app_l in H.
    + right. by apply IH.
Qed.

Lemma contains_tail a q s :
  Py.contains (String a q) s = true → Py.contains q s = true.
Proof.
  induction s as [|c s IH]; [done|].
  rewrite (contains_cons (String a q)). simpl Py.startswith.
  intros [[_ H]%andb_true_iff|H]%orb_true_iff.
  - rewrite contains_cons. apply orb_true_iff. right.
    destruct s; simpl; simpl in H; rewrite H; done.
  - rewrite contains_cons. apply orb_true_iff. right. by apply IH.
Qed.

(** *** Appending text that cannot complete an occurrence

    When the last character [c] of a separator does not occur in [t],
    appending [t] creates no new occurrence of the separator. *)

Lemma startswith_app_fresh p c t u :
  Py.contains (String c "") t = false →
  Py.startswith (p +:+ String c "") (u +:+ t) =
  Py.startswith (p +:+ String c "") u.
Proof.
  revert t u. induction p as [|a p IH]; intros t u Ht.
  - rewrite app_nil_str. destruct u as [|b u]; [|done].
    rewrite app_nil_str. destruct t as [|b t]; [done|].
    rewrite contains_cons in Ht. by apply orb_false_iff in Ht as [-> _].
  - rewrite app_cons_str. destruct u as [|b u].
    + rewrite app_nil_str. destruct t as [|b t]; [done|]. simpl.
      rewrite contains_cons in Ht. apply orb_false_iff in Ht as [_ Ht].
      specialize (IH t "" Ht). rewrite app_nil_str in IH. rewrite IH.
      rewrite startswith_nonempty_nil by (by destruct p).
      apply andb_false_r.
    + rewrite app_cons_str. simpl. f_equal. by apply IH.
Qed.

Lemma contains_last_char p c t :
  Py.contains (p +:+ String c "") t = true → Py.contains (String c "") t = true.
Proof.
  induction p as [|a p IH]; [done|]. rewrite app_cons_str.
  intros H%contains_tail. by apply IH.
Qed.

Lemma contains_fresh p c t :
  Py.contains (String c "") t = false → Py.contains (p +:+ String c "") t = false.
Proof.
  intros Ht. destruct (Py.contains (p +:+ _) t) eqn:E; [|done].
  apply contains_last_char in E. congruence.
Qed.

Lemma find_app_fresh p c s t :
  Py.contains (String c "") t = false →
  Py.find (p +:+ String c "") (s +:+ t) = Py.find (p +:+ String c "") s.
Proof.
  intros Ht. induction s as [|b s IH].
  - rewrite app_nil_str. transitivity (@None nat).
    + apply find_None_contains. by apply contains_fresh.
    + symmetry. apply find_None_contains. by destruct p.
  - rewrite app_cons_str, !find_cons, <-app_cons_str.
    rewrite startswith_app_fresh by done. by rewrite IH.
Qed.

Lemma contains_app_fresh p c s t :
  Py.contains (String c "") t = false →
  Py.contains (p +:+ String c "") (s +:+ t) = Py.contains (p +:+ String c "") s.
Proof. intros Ht. by rewrite !find_contains, find_app_fresh. Qed.

(** *** [split] *)

Lemma split_aux_nonempty fuel sep s : Py.split_aux fuel sep s ≠ [].
Proof. destruct fuel; simpl; by destruct (Py.find sep s). Qed.

Lemma last_cons_split x fuel sep s :
  Py.last (x :: Py.split_aux fuel sep s) = Py.last (Py.split_aux fuel sep s).
Proof.
  pose proof (split_aux_nonempty fuel sep s).
  unfold Py.last. by destruct (Py.split_aux fuel sep s).
Qed.

Lemma split_aux_None fuel sep s :
  Py.find sep s = None → Py.split_aux fuel sep s = [s].
Proof. intros H. destruct fuel; simpl; by rewrite H. Qed.

(** [String.length s] rounds are enough: more change nothing. *)
Lemma split_aux_fuel f1 f2 sep s :
  sep ≠ "" → (String.length s ≤ f1)%nat → (String.length s ≤ f2)%nat →
  Py.split_aux f1 sep s = Py.split_aux f2 sep s.
Proof.
  intros Hne. revert f2 s. induction f1 as [|f1 IH]; intros f2 s H1 H2.
  - destruct s; simpl in H1; [|lia].
    rewrite !split_aux_None; [done| |]; apply find_None_contains; by destruct sep.
  - destruct (Py.find sep s) as [i|] eqn:Hf; [|by rewrite !split_aux_None].
    pose proof (find_Some_length _ _ _ Hf) as Hi.
    assert (1 ≤ String.length sep)%nat by (destruct sep; [done|simpl; lia]).
    destruct f2 as [|f2]; [lia|]. simpl. rewrite Hf. f_equal.
    apply IH; rewrite length_drop; lia.
Qed.

(** The last piece holds no separator: it would have been cut there. *)
Lemma last_split_aux_free fuel sep s :
  sep ≠ "" → (String.length s ≤ fuel)%nat →
  Py.contains sep (Py.last (Py.split_aux fuel sep s)) = false.
Proof.
  intros Hne. revert s. induction fuel as [|fuel IH]; intros s Hl.
  - destruct s; simpl in Hl; [|lia].
    rewrite split_aux_None; [by destruct sep|].
    apply find_None_contains. by destruct sep.
  - simpl. destruct (Py.find sep s) as [i|] eqn:Hf.
    + rewrite last_cons_split. apply IH. rewrite length_drop.
      apply find_Some_length in Hf. destruct sep; [done|]. simpl in *. lia.
    + by apply find_None_contains.
Qed.

Lemma last_split_free sep s :
  sep ≠ "" → Py.contains sep (Py.last (Py.split sep s)) = false.
Proof. intros. by apply last_split_aux_free. Qed.

Lemma last_split_aux_app_fresh f1 f2 p c s t :
  Py.contains (String c "") t = false →
  (String.length s ≤ f1)%nat → (String.length (s +:+ t) ≤ f2)%nat →
  Py.last (Py.split_aux f2 (p +:+ String c "") (s +:+ t)) =
  Py.last (Py.split_aux f1 (p +:+ String c "") s) +:+ t.
Proof.
  intros Ht. set (sep := p +:+ String c "").
  assert (1 ≤ String.length sep)%nat as Hsep.
  { unfold sep. rewrite length_app_str. simpl. lia. }
  revert f2 s. induction f1 as [|f1 IH]; intros f2 s Hl1 Hl2.
  - destruct s; simpl in Hl1; [|lia].
    rewrite !split_aux_None; [done| |].
    + apply find_None_contains. apply contains_nonempty_nil.
      intros E. rewrite E in Hsep. simpl in Hsep. lia.
    + rewrite app_nil_str. apply find_None_contains. by apply contains_fresh.
  - destruct (Py.find sep s) as [i|] eqn:Hf.
    + pose proof (find_Some_length _ _ _ Hf) as Hi.
      rewrite length_app_str in Hl2.
      destruct f2 as [|f2]; [lia|]. simpl.
      unfold sep at 1 3. rewrite find_app_fresh by done. fold sep. rewrite Hf.
      rewrite !last_cons_split, drop_app_le by done.
      apply IH.
      * rewrite length_drop. lia.
      * rewrite length_app_str, length_drop. lia.
    + rewrite !split_aux_None; [done|done|].
      unfold sep. by rewrite find_app_fresh.
Qed.

Lemma last_split_app_fresh p c s t :
  Py.contains (String c "") t = false →
  Py.last (Py.split (p +:+ String c "") (s +:+ t)) =
  Py.last (Py.split (p +:+ String c "") s) +:+ t.
Proof. intros. by apply last_split_aux_app_fresh. Qed.

(** *** Decimal digits *)

Lemma all_digits_fresh c s :
  Py.is_digit c = false → Py.all_digits s = true →
  Py.contains (String c "") s = false.
Proof.
  intros Hc. induction s as [|b s IH]; [done|]. simpl.
  intros [Hb Hs]%andb_true_iff. rewrite (IH Hs), andb_true_r, orb_false_r.
  apply Ascii.eqb_neq. intros ->. congruence.
Qed.

Lemma all_digits_uint (d : uint) :
  Py.all_digits (NilEmpty.string_of_uint d) = true.
Proof. induction d; simpl; done. Qed.

Lemma all_digits_str n : Py.all_digits (Py.str n) = true.
Proof. apply all_digits_uint. Qed.

Lemma rstrip_digits_v s :
  Py.contains "v" (Py.rstrip_digits s) = Py.contains "v" s.
Proof.
  induction s as [|c s IH]; [done|]. simpl Py.rstrip_digits.
  destruct (Py.is_digit c) eqn:Hc; simpl andb.
  - destruct (Py.rstrip_digits s) eqn:Hr; simpl Py.is_empty; cbv iota.
    + rewrite contains_cons, <-IH. cbn [Py.startswith].
      destruct (Ascii.eqb_spec "v"%char c) as [<-|]; [done|]. done.
    + rewrite !contains_cons, <-IH. done.
  - rewrite !contains_cons, <-IH. done.
Qed.

End string_facts.


(** ** 4.1 ID normalizer *)

Example normalize_url :
  normalize_arxiv_id "http://arxiv.org/abs/2108.09112v1" = "2108.09112".
Proof. reflexivity. Qed.

Example normalize_pdf_url :
  normalize_arxiv_id "http://arxiv.org/pdf/2108.09112v3" = "2108.09112".
Proof. reflexivity. Qed.

Example normalize_old_style :
  normalize_arxiv_id "hep-th/9901001v2" = "hep-th/9901001".
Proof. reflexivity. Qed.

(** The first ['v'] is the cut, also when it belongs to the archive name. *)
Example normalize_solv_int : normalize_arxiv_id "solv-int/9901001" = "sol".
Proof. reflexivity. Qed.

Example split_overlap : Py.split "/abs/" "/abs/abs/x" = [""; "abs/x"].
Proof. reflexivity. Qed.

Example str_123 : Py.str 123 = "123".
Proof. reflexivity. Qed.

Lemma domain_has_v s : Py.contains "arxiv.org" s = true → Py.contains "v" s = true.
Proof.
  intros H. do 4 apply contains_tail in H.
  by apply (contains_app_l "v" ".org").
Qed.

Lemma abs_has_slash s : Py.contains "/abs/" s = true → Py.contains "/" s = true.
Proof. apply (contains_app_l "/" "abs/"). Qed.

(** A string with neither ["/abs/"] nor ['v'] is left alone. *)
Lemma normalize_fixed s :
  Py.contains "/abs/" s = false → Py.contains "v" s = false →
  normalize_arxiv_id s = s.
Proof.
  intros Ha Hv. unfold normalize_arxiv_id. destruct s as [|c s]; [done|].
  cbn [Py.is_empty]. rewrite Ha.
  destruct (Py.contains "arxiv.org" (String c s)) eqn:Hd.
  { apply domain_has_v in Hd. congruence. }
  apply find_None_contains in Hv. by rewrite Hv.
Qed.

(** The text left after the URL prefix is dropped holds no ["/abs/"]. *)
Lemma url_suffix_no_abs s :
  Py.contains "/abs/"
    (if Py.contains "/abs/" s then Py.last (Py.split "/abs/" s)
     else if Py.contains "arxiv.org" s then Py.last (Py.split "/" s)
     else s) = false.
Proof.
  destruct (Py.contains "/abs/" s) eqn:Ha.
  - by apply last_split_free.
  - destruct (Py.contains "arxiv.org" s); [|done].
    destruct (Py.contains "/abs/" (Py.last (Py.split "/" s))) eqn:E; [|done].
    apply abs_has_slash in E. by rewrite last_split_free in E.
Qed.

Lemma cut_at_v_clean m :
  Py.contains "/abs/" m = false →
  let r := match Py.find "v" m with Some i => Py.take i m | None => m end in
  Py.contains "v" r = false ∧ Py.contains "/abs/" r = false.
Proof.
  intros Ha. destruct (Py.find "v" m) as [i|] eqn:Hf; simpl.
  - split; [by apply contains_take_find|].
    destruct (Py.contains "/abs/" (Py.take i m)) eqn:E; [|done].
    apply contains_take in E. congruence.
  - split; [by apply find_None_contains | done].
Qed.

Lemma normalize_clean s :
  Py.contains "v" (normalize_arxiv_id s) = false ∧
  Py.contains "/abs/" (normalize_arxiv_id s) = false.
Proof.
  unfold normalize_arxiv_id. destruct (Py.is_empty s); [done|].
  apply cut_at_v_clean, url_suffix_no_abs.
Qed.

Lemma find_char_app c s t :
  Py.find (String c "") (s +:+ String c t) =
  Some (default (String.length s) (Py.find (String c "") s)).
Proof.
  induction s as [|b s IH].
  - rewrite app_nil_str. simpl. by rewrite Ascii.eqb_refl.
  - rewrite app_cons_str, !find_cons. cbn [Py.startswith].
    destruct (Ascii.eqb c b); [done|]. simpl. rewrite IH.
    by destruct (Py.find (String c "") s).
Qed.

Lemma cut_at_v_app m ds :
  match Py.find "v" (m +:+ String "v" ds) with
  | Some i => Py.take i (m +:+ String "v" ds)
  | None => m +:+ String "v" ds
  end =
  match Py.find "v" m with Some i => Py.take i m | None => m end.
Proof.
  rewrite find_char_app. destruct (Py.find "v" m) as [i|] eqn:Hf; simpl.
  - apply take_app_le. apply find_Some_length in Hf. lia.
  - apply take_length_app.
Qed.

(** C8: an identifier already in canonical form (no ["/abs/"], no source
    domain, no ['v'] in front of its trailing digits) is returned unchanged
    by [normalize_arxiv_id], so that normalizing twice, normalizing once
    and the identifier itself all coincide. *)
Theorem normalize_canonical_fixed (s : string) :
  canonical s →
  normalize_arxiv_id s = s ∧
  normalize_arxiv_id (normalize_arxiv_id s) = normalize_arxiv_id s.
Proof.
  intros (Ha & _ & Hv). rewrite rstrip_digits_v in Hv.
  assert (normalize_arxiv_id s = s) as E by by apply normalize_fixed.
  by rewrite !E.
Qed.

(** C9: appending a version suffix ["v" ++ str(N)], for any identifier
    and any positive integer [N], does not change what
    [normalize_arxiv_id] returns. *)
Theorem normalize_version_suffix (id : string) (N : positive) :
  normalize_arxiv_id (id +:+ "v" +:+ Py.str N) = normalize_arxiv_id id.
Proof.
  pose proof (all_digits_str N) as Hd. set (ds := Py.str N) in *.
  assert (Py.contains "/" (String "v" ds) = false) as Hslash.
  { rewrite contains_cons. cbn [Py.startswith].
    by rewrite (all_digits_fresh "/" ds). }
  assert (Py.contains "g" (String "v" ds) = false) as Hg.
  { rewrite contains_cons. cbn [Py.startswith].
    by rewrite (all_digits_fresh "g" ds). }
  rewrite app_cons_str, app_nil_str.
  unfold normalize_arxiv_id. destruct id as [|a id].
  - rewrite app_nil_str. cbn [Py.is_empty].
    assert (Py.contains "/abs/" (String "v" ds) = false) as ->
      by exact (contains_fresh "/abs" "/" _ Hslash).
    assert (Py.contains "arxiv.org" (String "v" ds) = false) as ->
      by exact (contains_fresh "arxiv.or" "g" _ Hg).
    done.
  - rewrite app_cons_str. cbn [Py.is_empty]. rewrite <-app_cons_str.
    set (s := String a id).
    assert (Py.contains "/abs/" (s +:+ String "v" ds) = Py.contains "/abs/" s)
      as -> by exact (contains_app_fresh "/abs" "/" s _ Hslash).
    assert (Py.contains "arxiv.org" (s +:+ String "v" ds) =
            Py.contains "arxiv.org" s)
      as -> by exact (contains_app_fresh "arxiv.or" "g" s _ Hg).
    assert (Py.last (Py.split "/abs/" (s +:+ String "v" ds)) =
            Py.last (Py.split "/abs/" s) +:+ String "v" ds) as ->
      by exact (last_split_app_fresh "/abs" "/" s _ Hslash).
    assert (Py.last (Py.split "/" (s +:+ String "v" ds)) =
            Py.last (Py.split "/" s) +:+ String "v" ds) as ->
      by exact (last_split_app_fresh "" "/" s _ Hslash).
    destruct (Py.contains "/abs/" s); [apply cut_at_v_app|].
    destruct (Py.contains "arxiv.org" s); apply cut_at_v_app.
Qed.

(** C10: whatever the input, the result of [normalize_arxiv_id] holds no
    ['v'] and no ["/abs/"]; hence normalizing is idempotent on every
    string, canonical or not. *)
Theorem normalize_idempotent (s : string) :
  Py.contains "v" (normalize_arxiv_id s) = false ∧
  Py.contains "/abs/" (normalize_arxiv_id s) = false ∧
  normalize_arxiv_id (normalize_arxiv_id s) = normalize_arxiv_id s.
Proof.
  destruct (normalize_clean s) as [Hv Ha].
  split_and!; [done..|]. by apply normalize_fixed.
Qed.

(** ** 4.2 Existing-store loader *)

Lemma load_line_record line :
  is_record_line line = true → load_line line = Ok (record_id line).
Proof.
  unfold is_record_line, load_line, record_id, dict_record_id.
  destruct (Py.is_empty (PyStr.strip line)); [done|]. simpl.
  destruct (json_loads (PyStr.strip line)) as [[| | | |l|d]|]; try done.
  unfold has_id, get_id, dict_mem.
  destruct (dict_get "id" d) as [[| | |s| |]|]; try done.
  intros _. unfold normalize_arxiv_id_obj, truthy.
  destruct s; done.
Qed.

Lemma load_lines_union ls ids : load_lines ls ids = ids ∪ load_lines ls ∅.
Proof.
  revert ids. induction ls as [|l ls IH]; intros ids; simpl.
  - set_solver.
  - destruct (load_line l) as [[paper_id|]|]; [|done|set_solver].
    rewrite (IH ({[paper_id]} ∪ ids)), (IH ({[paper_id]} ∪ ∅)). set_solver.
Qed.

Lemma load_lines_records ls :
  forallb is_record_line ls = true →
  load_lines ls ∅ = list_to_set (omap record_id ls).
Proof.
  induction ls as [|l ls IH]; [done|]. simpl.
  intros [Hl Hls]%andb_true_iff. rewrite (load_line_record l Hl).
  destruct (record_id l) as [paper_id|]; [|by apply IH].
  rewrite load_lines_union, (IH Hls). simpl. set_solver.
Qed.

Lemma load_file_union skip ids file :
  load_file skip ids file = ids ∪ load_file skip ∅ file.
Proof.
  destruct file as [filename content]. unfold load_file.
  destruct (arxiv_match filename) as [[ym|]|]; [| |set_solver].
  - destruct (String.leb ym current_year_month); [|set_solver].
    apply load_lines_union.
  - destruct skip; [set_solver|]. apply load_lines_union.
Qed.

Lemma foldl_load_file skip ids listing :
  foldl (load_file skip) ids listing = ids ∪ ⋃ (load_file skip ∅ <$> listing).
Proof.
  revert ids. induction listing as [|file listing IH]; intros ids; simpl.
  - set_solver.
  - rewrite IH, (load_file_union skip ids file). set_solver.
Qed.

Lemma load_listing_union skip listing :
  load_listing skip listing = ⋃ (load_file skip ∅ <$> listing).
Proof. unfold load_listing. rewrite foldl_load_file. set_solver. Qed.

(** The order in which the directory is listed does not matter. *)
Lemma load_listing_perm skip l1 l2 :
  l1 ≡ₚ l2 → load_listing skip l1 = load_listing skip l2.
Proof.
  intros Hp. rewrite !load_listing_union. apply set_eq. intros x.
  rewrite !elem_of_union_list. by setoid_rewrite Hp.
Qed.

Lemma arxiv_match_store_name p : period p → arxiv_match (store_name p) = Some (Some p).
Proof.
  intros [Hlen Hd].
  destruct p as [|a1 [|a2 [|a3 [|a4 [|a5 [|a6 [|]]]]]]]; try discriminate.
  unfold arxiv_match, match_end, store_name.
  cbv -[Py.is_digit andb] in Hd |- *.
  cbv -[Py.is_digit] in Hd |- *.
  rewrite Hd. done.
Qed.

Lemma load_store_file skip p content :
  period p → String.leb p current_year_month = true → store_file content →
  load_file skip ∅ (store_name p, content) = list_to_set (record_ids content).
Proof.
  intros Hp Hle Hc. unfold load_file.
  rewrite (arxiv_match_store_name p Hp), Hle. by apply load_lines_records.
Qed.


(** What the loader returns covers every record of every store file of
    a period up to the current one. *)
Lemma load_listing_covers skip listing p content i :
  (store_name p, content) ∈ listing →
  period p → String.leb p current_year_month = true → store_file content →
  i ∈ record_ids content → i ∈ load_listing skip listing.
Proof.
  intros Hin Hp Hle Hc Hi. rewrite load_listing_union.
  apply elem_of_union_list. exists (load_file skip ∅ (store_name p, content)).
  split; [by apply list_elem_of_fmap_2|].
  rewrite load_store_file by done. by apply elem_of_list_to_set.
Qed.


(** ** 4.4 Incremental writer *)

Lemma store_content_write data w r w' :
  is_Some (w_dir w) → write data w = (r, w') →
  is_Some (w_dir w') ∧ same_elsewhere w w' ∧
  w_writes w' = S (w_writes w) ∧
  match r with
  | Ok _ => disk_ok (w_writes w) = true ∧
            store_content w' = store_content w +:+ data
  | Raise e => e = OSError ∧ disk_ok (w_writes w) = false ∧
               store_content w' = store_content w
  end.
Proof.
  intros [files Hd]. unfold write, store_content, read_file, same_elsewhere.
  rewrite Hd. destruct (disk_ok (w_writes w)) eqn:Hok; intros [= <- <-]; simpl.
  - rewrite lookup_insert_eq. repeat split; try done.
    intros name Hne. unfold read_file. simpl. rewrite Hd.
    by rewrite lookup_insert_ne.
  - repeat split; try done.
    intros name Hne. unfold read_file. simpl. by rewrite Hd.
Qed.

Lemma same_elsewhere_refl w : same_elsewhere w w.
Proof. by split_and!. Qed.

Lemma same_elsewhere_trans w1 w2 w3 :
  same_elsewhere w1 w2 → same_elsewhere w2 w3 → same_elsewhere w1 w3.
Proof.
  intros (?&?&H1) (?&?&H2). split_and!; try congruence.
  intros name Hne. by rewrite H2, H1.
Qed.

Lemma store_lines_cons item items :
  store_lines (item :: items) = store_line item +:+ store_lines items.
Proof. done. Qed.

Local Ltac fin :=
  first [ done
        | by rewrite ?app_empty_r
        | by constructor
        | by apply sublist_nil_l
        | by apply same_elsewhere_refl
        | by (simpl; intros; lia)
        | by (simpl; rewrite ?Nat.add_0_r)
        | set_solver ].


Lemma store_lines_empty (written : list (string * pydict)) :
  store_lines written = "" ↔ written = [].
Proof.
  split; [|by intros ->]. destruct written as [|item written]; [done|].
  rewrite store_lines_cons. unfold store_line, PyStr.newline.
  destruct (json_dumps _); simpl; [|done].
  intros Heq. discriminate Heq.
Qed.

(** What [save_items] leaves behind, whether it returns or raises: the
    lines of [new_records] are in the buffer and their IDs in the set. *)
Lemma save_items_spec items n known pending r known' pending' :
  save_items items n known pending = (r, known', pending') →
  let written := new_records items known in
  pending' = pending +:+ store_lines written ∧
  known' = known ∪ list_to_set (clean_id <$> written) ∧
  written `sublist_of` items ∧
  Forall (λ item, item_id item = Ok (clean_id item)) written ∧
  NoDup (clean_id <$> written) ∧
  (∀ item, item ∈ written → clean_id item ∉ known) ∧
  match r with
  | Ok n' =>
      n' = (n + length written)%nat ∧
      Forall (λ item, ∃ c, item_id item = Ok c ∧ c ∈ known') items
  | Raise e => ∃ item, item ∈ items ∧ item_id item = Raise e
  end.
Proof.
  clear json_loads urlopen disk_ok.
  revert n known pending.
  induction items as [|[paper_id paper_data] items IH];
    intros n known pending; cbn [save_items new_records].
  { intros [= <- <- <-]. cbv zeta. split_and!; fin. }
  change (normalize_arxiv_id_obj _) with (item_id (paper_id, paper_data)).
  destruct (item_id (paper_id, paper_data)) as [c|e] eqn:Hid.
  2: { intros [= <- <- <-]. cbv zeta.
       split_and!;
         first [fin | eexists; split; [apply list_elem_of_here|done]]. }
  assert (clean_id (paper_id, paper_data) = c) as Hc
    by (unfold clean_id; by rewrite Hid).
  destruct (decide (c ∈ known)) as [Hin|Hnin].
  - intros Hs. destruct (IH _ _ _ Hs)
      as (Hpend & Hk & Hsub & Hok & Hnd & Hfresh & Hr).
    cbv zeta. split_and!; try done.
    + by apply sublist_cons.
    + destruct r as [n'|e].
      * destruct Hr as (? & Hall). split; [done|].
        constructor; [|done]. exists c. split; [done|]. set_solver.
      * destruct Hr as (item & ? & ?).
        exists item. split; [by apply list_elem_of_further|done].
  - intros Hs. destruct (IH _ _ _ Hs)
      as (Hpend & Hk & Hsub & Hok & Hnd & Hfresh & Hr).
    cbv zeta. split_and!.
    + rewrite Hpend, store_lines_cons. unfold store_line. simpl.
      by rewrite !app_assoc_str.
    + rewrite Hk, fmap_cons, Hc. set_solver.
    + by apply sublist_skip.
    + constructor; [by rewrite Hc|done].
    + rewrite fmap_cons, Hc. constructor; [|done].
      intros Hin%list_elem_of_fmap. destruct Hin as (item & -> & Hin).
      apply Hfresh in Hin. set_solver.
    + intros item [->|Hin]%elem_of_cons; [by rewrite Hc|].
      apply Hfresh in Hin. set_solver.
    + destruct r as [n'|e].
      * destruct Hr as (? & Hall). split; [simpl; lia|].
        constructor; [|done]. exists c. split; [done|]. set_solver.
      * destruct Hr as (item & ? & ?).
        exists item. split; [by apply list_elem_of_further|done].
Qed.

Lemma save_items_known items known pending n :
  Forall (λ item, ∃ c, item_id item = Ok c ∧ c ∈ known) items →
  save_items items n known pending = (Ok n, known, pending).
Proof.
  intros Hall.
  induction Hall as [|[paper_id paper_data] items (c & Hc & Hin) _ IH];
    simpl; [done|].
  change (normalize_arxiv_id_obj _) with (item_id (paper_id, paper_data)).
  rewrite Hc. by rewrite decide_True.
Qed.

(** [save_items] is a function of the batch and the set alone. *)
Lemma save_items_total items n known pending :
  ∃ r,
    save_items items n known pending =
      (r, known ∪ list_to_set (clean_id <$> new_records items known),
       pending +:+ store_lines (new_records items known)).
Proof.
  destruct (save_items items n known pending) as [[r known'] pending'] eqn:Hs.
  destruct (save_items_spec _ _ _ _ _ _ _ Hs) as (-> & -> & _).
  by exists r.
Qed.



(** *** Lines of the store file *)

Lemma lines_nonempty c s : PyStr.lines (String c s) ≠ [].
Proof. simpl. destruct (PyStr.is_eol c); [done|]. by destruct (PyStr.lines s). Qed.

Lemma lines_app_closed s t :
  PyStr.line_closed s = true →
  PyStr.lines (s +:+ t) = PyStr.lines s ++ PyStr.lines t.
Proof.
  induction s as [|c s IH]; [done|]. rewrite app_cons_str. simpl.
  destruct s as [|c' s'].
  - simpl. intros ->. done.
  - cbn [Py.is_empty]. intros Hs. rewrite (IH Hs).
    destruct (PyStr.is_eol c); [done|].
    pose proof (lines_nonempty c' s').
    by destruct (PyStr.lines (String c' s')).
Qed.

Lemma lines_one_line l :
  no_eol l = true → PyStr.lines (l +:+ PyStr.newline) = [l].
Proof.
  induction l as [|c l IH]; [done|]. rewrite app_cons_str. simpl.
  intros [Hc Hl]%andb_true_iff. apply negb_true_iff in Hc.
  by rewrite Hc, (IH Hl).
Qed.

Lemma line_closed_app s t :
  t ≠ "" → PyStr.line_closed (s +:+ t) = PyStr.line_closed t.
Proof.
  intros Ht. induction s as [|c s IH]; [done|]. rewrite app_cons_str. simpl.
  destruct (s +:+ t) eqn:E; [|done].
  destruct s; [|done]. by rewrite app_nil_str in E.
Qed.

Lemma lines_unclosed s :
  PyStr.line_closed s = false →
  PyStr.lines (s +:+ PyStr.newline) = PyStr.lines s.
Proof.
  induction s as [|c s IH]; [done|]. rewrite app_cons_str. simpl.
  destruct s as [|c' s'].
  - simpl. by intros ->.
  - cbn [Py.is_empty]. intros Hs. by rewrite (IH Hs).
Qed.

Lemma endswith_newline_closed s :
  PyStr.endswith PyStr.newline s = true → PyStr.line_closed s = true.
Proof.
  unfold PyStr.endswith. induction s as [|c s IH]; [done|].
  destruct s as [|c' s'].
  - cbn -[Ascii.eqb PyStr.is_eol]. rewrite andb_true_r.
    by intros <-%Ascii.eqb_eq.
  - intros H. cbn [PyStr.line_closed Py.is_empty]. apply IH.
    simpl in *. by rewrite Nat.sub_0_r in *.
Qed.

Lemma with_newline_closed content :
  PyStr.line_closed (with_newline content) = true.
Proof.
  unfold with_newline, needs_newline.
  destruct content as [|c s]; [done|]. cbn [Py.is_empty negb andb].
  destruct (PyStr.endswith PyStr.newline (String c s)) eqn:E; simpl negb.
  - by apply endswith_newline_closed.
  - cbv iota. by rewrite line_closed_app.
Qed.

Lemma record_id_blank : record_id "" = None.
Proof. done. Qed.

Lemma record_ids_with_newline content :
  record_ids (with_newline content) = record_ids content.
Proof.
  unfold with_newline. destruct (needs_newline content); [|done].
  unfold record_ids. destruct (PyStr.line_closed content) eqn:E.
  - rewrite lines_app_closed by done. rewrite omap_app. simpl.
    by rewrite app_nil_r.
  - by rewrite lines_unclosed.
Qed.

Lemma codec_ok_no_eol item :
  codec_ok item = true → no_eol (json_dumps (JObj item.2)) = true.
Proof. unfold codec_ok. by intros [[? _]%andb_true_iff _]%andb_true_iff. Qed.

Lemma codec_ok_record_id item :
  codec_ok item = true →
  record_id (json_dumps (JObj item.2)) = dict_record_id item.2.
Proof.
  unfold codec_ok, record_id.
  intros [[_ Hne%negb_true_iff]%andb_true_iff H]%andb_true_iff.
  rewrite Hne. destruct (json_loads _) as [[| | | | |d]|]; try done.
  by apply bool_decide_eq_true in H.
Qed.

Lemma lines_store_lines written :
  forallb codec_ok written = true →
  PyStr.lines (store_lines written) =
  (λ item, json_dumps (JObj item.2)) <$> written.
Proof.
  induction written as [|item written IH]; [done|]. simpl forallb.
  intros [Hi Hw]%andb_true_iff. rewrite store_lines_cons. unfold store_line.
  rewrite lines_app_closed by (by rewrite line_closed_app).
  rewrite lines_one_line by (by apply codec_ok_no_eol).
  by rewrite (IH Hw).
Qed.

Lemma record_ids_append content written :
  PyStr.line_closed content = true →
  forallb codec_ok written = true →
  record_ids (content +:+ store_lines written) =
  record_ids content ++ omap (λ item, dict_record_id item.2) written.
Proof.
  intros Hc Hw. unfold record_ids.
  rewrite lines_app_closed, omap_app, lines_store_lines by done. f_equal.
  induction written as [|item written IH]; [done|]. simpl in Hw.
  apply andb_true_iff in Hw as [Hi Hw]. rewrite fmap_cons.
  cbn [omap list_omap]. rewrite (codec_ok_record_id item Hi).
  by rewrite (IH Hw).
Qed.

Lemma dict_record_id_clean item i :
  dict_record_id item.2 = Some i → clean_id item = i.
Proof.
  unfold dict_record_id, clean_id, item_id.
  destruct (dict_get "id" item.2) as [[| | |s| |]|]; try done.
  intros [= <-]. by destruct s.
Qed.

Lemma omap_record_id_sub (written : list (string * pydict)) i :
  i ∈ omap (λ item, dict_record_id item.2) written →
  ∃ item, item ∈ written ∧ clean_id item = i.
Proof.
  intros (item & Hin & Hi)%list_elem_of_omap.
  exists item. split; [done|]. by apply dict_record_id_clean.
Qed.

Lemma NoDup_omap_record_id (written : list (string * pydict)) :
  NoDup (clean_id <$> written) →
  NoDup (omap (λ item, dict_record_id item.2) written).
Proof.
  induction written as [|item written IH]; simpl; [constructor|].
  intros [Hnin Hnd]%NoDup_cons.
  destruct (dict_record_id item.2) as [i|] eqn:Hi; [|by apply IH].
  constructor; [|by apply IH].
  intros (item' & Hin & Hc)%omap_record_id_sub. apply Hnin.
  apply dict_record_id_clean in Hi. rewrite Hi, <-Hc.
  by apply list_elem_of_fmap_2.
Qed.

Lemma sublist_forallb {A} (f : A → bool) (l1 l2 : list A) :
  l1 `sublist_of` l2 → forallb f l2 = true → forallb f l1 = true.
Proof.
  induction 1 as [|x l1 l2 _ IH|x l1 l2 _ IH]; simpl; [done| |].
  - intros [-> ?]%andb_true_iff. by rewrite IH.
  - intros [_ ?]%andb_true_iff. by apply IH.
Qed.

(** *** [save_metadata_files] *)

Lemma makedirs_spec w :
  is_Some (w_dir (makedirs w)) ∧ same_elsewhere w (makedirs w) ∧
  store_content (makedirs w) = store_content w ∧
  w_writes (makedirs w) = w_writes w.
Proof.
  unfold makedirs, store_content, same_elsewhere, read_file.
  destruct (w_dir w) as [files|] eqn:E; simpl; rewrite ?E; by repeat split.
Qed.

Lemma open_append_spec w :
  is_Some (w_dir w) →
  is_Some (w_dir (open_append arxiv_file w)) ∧
  is_Some (read_file arxiv_file (open_append arxiv_file w)) ∧
  same_elsewhere w (open_append arxiv_file w) ∧
  store_content (open_append arxiv_file w) = store_content w ∧
  w_writes (open_append arxiv_file w) = w_writes w.
Proof.
  intros [files E]. unfold open_append, store_content, same_elsewhere, read_file.
  rewrite E. destruct (files !! arxiv_file) eqn:F; simpl; rewrite ?E, ?F.
  - by repeat split.
  - rewrite lookup_insert_eq. repeat split; try done.
    intros name Hne. by rewrite lookup_insert_ne.
Qed.

Lemma ensure_newline_spec w r w' :
  is_Some (w_dir w) → ensure_newline w = (r, w') →
  is_Some (w_dir w') ∧ same_elsewhere w w' ∧
  match r with
  | Ok _ =>
      store_content w' = with_newline (store_content w) ∧
      (needs_newline (store_content w) = true → disk_ok (w_writes w) = true) ∧
      w_writes w' =
        (w_writes w + if needs_newline (store_content w) then 1 else 0)%nat
  | Raise e =>
      e = OSError ∧ needs_newline (store_content w) = true ∧
      disk_ok (w_writes w) = false ∧
      store_content w' = store_content w ∧ w_writes w' = S (w_writes w)
  end.
Proof.
  intros Hdir. unfold ensure_newline.
  destruct (read_file arxiv_file w) as [content|] eqn:E.
  - assert (store_content w = content) as Hsc
      by (unfold store_content; by rewrite E).
    rewrite Hsc. fold (needs_newline content). unfold with_newline.
    destruct (needs_newline content) eqn:Hn.
    + intros Hw. destruct (store_content_write _ _ _ _ Hdir Hw)
        as (? & ? & ? & Hr). rewrite Hsc in Hr.
      split_and!; try done.
      destruct r; destruct_and!; split_and!; try done; lia.
    + intros [= <- <-]. split_and!; fin.
  - assert (store_content w = "") as Hsc
      by (unfold store_content; by rewrite E).
    rewrite Hsc. intros [= <- <-]. split_and!; fin.
Qed.

Lemma write_keeps_file data w r w' :
  is_Some (read_file arxiv_file w) → write data w = (r, w') →
  is_Some (read_file arxiv_file w').
Proof.
  unfold write, read_file. destruct (w_dir w) as [files|]; [|by intros []].
  intros Hfile. destruct (disk_ok (w_writes w)); intros [= <- <-]; simpl.
  - by rewrite lookup_insert_eq.
  - done.
Qed.

Lemma close_spec pending w r w' :
  is_Some (w_dir w) → close pending w = (r, w') →
  is_Some (w_dir w') ∧ same_elsewhere w w' ∧
  (is_Some (read_file arxiv_file w) → is_Some (read_file arxiv_file w')) ∧
  (pending = "" ∧ r = Ok () ∧ w' = w
   ∨ pending ≠ "" ∧ w_writes w' = S (w_writes w) ∧
     (r = Ok () ∧ disk_ok (w_writes w) = true ∧
      store_content w' = store_content w +:+ pending
      ∨ r = Raise OSError ∧ disk_ok (w_writes w) = false ∧
        store_content w' = store_content w)).
Proof.
  intros Hdir. unfold close. destruct (Py.is_empty pending) eqn:Hp.
  - apply is_empty_true in Hp. intros [= <- <-].
    split_and!; [done|apply same_elsewhere_refl|done|by left].
  - intros Hw. assert (pending ≠ "") as Hne by (by intros ->).
    destruct (store_content_write _ _ _ _ Hdir Hw) as (Hd' & Hsame & Hwr & Hr).
    split_and!; [done|done| |].
    + intros Hfile. by eapply write_keeps_file.
    + right. split_and!; [done..|].
      destruct r as [[]|e]; [left; by destruct Hr|right].
      by destruct Hr as (-> & ? & ?).
Qed.

(** The outcomes of a save: the newline cannot be written; or the loop
    has run, the set holds the IDs of [new_records], and their lines
    have reached the file or, the write at [close] failing, have not. *)
Lemma save_metadata_files_spec batch known skip w r known' w' :
  save_metadata_files batch (Some known) skip w = (r, known', w') →
  let written := new_records batch known in
  let at_close :=
    (w_writes w + if needs_newline (store_content w) then 1 else 0)%nat in
  (needs_newline (store_content w) = true ∧ disk_ok (w_writes w) = false ∧
   r = Raise OSError ∧ known' = known ∧
   store_content w' = store_content w ∧
   w_writes w' = S (w_writes w) ∧ same_elsewhere w w')
  ∨
  ((needs_newline (store_content w) = true → disk_ok (w_writes w) = true) ∧
   known' = known ∪ list_to_set (clean_id <$> written) ∧
   is_Some (read_file arxiv_file w') ∧ same_elsewhere w w' ∧
   ∃ looped,
     save_items batch 0 known "" = (looped, known', store_lines written) ∧
     ((written ≠ [] → disk_ok at_close = true) ∧
      w_writes w' =
        (at_close + match written with [] => 0 | _ => 1 end)%nat ∧
      store_content w' =
        with_newline (store_content w) +:+ store_lines written ∧
      r = match looped with
          | Ok n => Ok (n, size known')
          | Raise e => Raise e
          end
      ∨
      written ≠ [] ∧ disk_ok at_close = false ∧
      w_writes w' = S at_close ∧
      store_content w' = with_newline (store_content w) ∧
      r = Raise OSError)).
Proof.
  unfold save_metadata_files.
  destruct (makedirs_spec w) as (Hd0 & Hs0 & Hc0 & Hw0).
  destruct (ensure_newline (makedirs w)) as [r1 w1] eqn:E1.
  destruct (ensure_newline_spec _ _ _ Hd0 E1) as (Hd1 & Hs1 & Hr1).
  rewrite Hc0, Hw0 in Hr1. destruct r1 as [[]|e].
  2: { destruct Hr1 as (-> & Hn & Hok & Hc1 & Hw1). intros [= <- <- <-]. left.
       split_and!; try done. by eapply same_elsewhere_trans. }
  destruct Hr1 as (Hc1 & Hok1 & Hw1).
  destruct (open_append_spec w1 Hd1) as (Hd2 & Hf2 & Hs2 & Hc2 & Hw2).
  destruct (save_items_total batch 0 known "") as [looped Hloop].
  rewrite Hloop, app_nil_str.
  destruct (close _ (open_append arxiv_file w1)) as [rc w3] eqn:E3.
  destruct (close_spec _ _ _ _ Hd2 E3) as (Hd3 & Hs3 & Hf3 & Hr3).
  rewrite Hc2, Hc1, Hw2, Hw1 in Hr3.
  assert (same_elsewhere w w3) as Hsame.
  { eapply same_elsewhere_trans; [|done].
    eapply same_elsewhere_trans; [|done]. by eapply same_elsewhere_trans. }
  intros Heq. right. cbv zeta.
  assert (known' = known ∪ list_to_set (clean_id <$> new_records batch known)
          ∧ w' = w3) as [-> ->]
    by (destruct rc as [[]|]; [destruct looped|]; by simplify_eq).
  split_and!; [done|done|by apply Hf3|done|].
  exists looped. rewrite app_nil_str in Hloop. split; [done|].
  destruct Hr3 as [(Hnil%store_lines_empty & -> & ->)
                  |(Hne & Hwr & [(-> & Hok & Hc3)|(-> & Hok & Hc3)])].
  - left. rewrite Hnil in Heq |- *. rewrite Hc2, Hc1, Hw2, Hw1.
    split_and!; [done|by rewrite Nat.add_0_r|by rewrite app_empty_r|].
    destruct looped; by simplify_eq.
  - left. rewrite store_lines_empty in Hne.
    split_and!; [done| |done|destruct looped; by simplify_eq].
    rewrite Hwr. destruct (new_records batch known); [done|lia].
  - right. rewrite store_lines_empty in Hne.
    split_and!; [done..|by simplify_eq].
Qed.

(** The invariant is kept by a call, however it ends. *)
Lemma save_keeps_unique batch known skip w r known' w' others :
  save_metadata_files batch (Some known) skip w = (r, known', w') →
  forallb codec_ok batch = true →
  store_unique others known w → store_unique others known' w'.
Proof.
  intros Hsave Hcodec [Hnd Hin]. unfold store_unique.
  destruct (save_metadata_files_spec _ _ _ _ _ _ _ Hsave)
    as [(_ & _ & -> & -> & Hc & _ & Hsame)
       |(_ & Hk & _ & _ & looped & Hloop & Hout)].
  { by rewrite Hc. }
  destruct (save_items_spec _ _ _ _ _ _ _ Hloop)
    as (_ & _ & Hsub & Hok & Hndw & Hfresh & _).
  set (written := new_records batch known) in *.
  destruct Hout as [(_ & _ & Hcont & _)|(_ & _ & _ & Hcont & _)].
  2: { rewrite Hcont, record_ids_with_newline. split; [done|].
       intros i Hi. rewrite Hk. apply elem_of_union. left. by apply Hin. }
  assert (record_ids (store_content w') =
          record_ids (store_content w) ++
          omap (λ item, dict_record_id item.2) written) as Hids.
  { rewrite Hcont, record_ids_append.
    - by rewrite record_ids_with_newline.
    - apply with_newline_closed.
    - by eapply sublist_forallb. }
  rewrite Hids, app_assoc. split.
  - apply NoDup_app. split_and!.
    + done.
    + intros i Hi (item & Hitem & <-)%omap_record_id_sub.
      by apply (Hfresh _ Hitem), Hin.
    + by apply NoDup_omap_record_id.
  - intros i [Hi|Hi]%elem_of_app.
    + rewrite Hk. apply elem_of_union. left. by apply Hin.
    + apply omap_record_id_sub in Hi as (item & Hitem & <-).
      rewrite Hk. apply elem_of_union. right.
      apply elem_of_list_to_set. by apply list_elem_of_fmap_2.
Qed.


(** C2 (amended): a batch whose records all have their canonical ID in
    the Known-ID Set is written with an appended-count of 0 and leaves
    the set as it was.  The store file is unchanged byte for byte when
    it is missing (it is then created empty), empty, or ends with a
    newline; a non-empty file that does not end with a newline gets
    exactly one newline appended, provided that write goes through. *)
Theorem save_known_batch batch known skip w :
  Forall (λ item, ∃ c, item_id item = Ok c ∧ c ∈ known) batch →
  (needs_newline (store_content w) = true → disk_ok (w_writes w) = true) →
  ∃ w',
    save_metadata_files batch (Some known) skip w =
      (Ok (0%nat, size known), known, w') ∧
    is_Some (read_file arxiv_file w') ∧
    store_content w' =
      (if negb (Py.is_empty (store_content w)) &&
          negb (PyStr.endswith PyStr.newline (store_content w))
       then store_content w +:+ PyStr.newline
       else store_content w) ∧
    (∀ name, name ≠ arxiv_file → read_file name w' = read_file name w).
Proof.
  intros Hall Hdisk.
  assert (∀ pending,
            save_items batch 0 known pending = (Ok 0%nat, known, pending))
    as Hitems by (intros pending; by apply save_items_known).
  destruct (save_metadata_files batch (Some known) skip w) as [[r known'] w']
    eqn:Hsave.
  destruct (save_metadata_files_spec _ _ _ _ _ _ _ Hsave)
    as [(Hn & Hfail & _)|(_ & Hk & Hf & Hsame & looped & Hloop & Hout)].
  { rewrite (Hdisk Hn) in Hfail. done. }
  rewrite Hitems in Hloop. injection Hloop as <- <- Hnil.
  symmetry in Hnil. apply store_lines_empty in Hnil.
  destruct Hout as [(_ & _ & Hcont & ->)|(Hne & _)]; [|done].
  rewrite Hnil, app_empty_r in Hcont.
  exists w'. split_and!; [done..|apply Hsame].
Qed.

(** ** 4.3 Paginated fetcher *)

(** *** Entries into records *)

Lemma dict_get_add {A} q p (r : A) d :
  dict_get q (dict_add p r d) =
  match dict_get q d with
  | Some x => Some x
  | None => if String.eqb q p then Some r else None
  end.
Proof.
  unfold dict_add. induction d as [|[k v] d IH]; simpl; [done|].
  by destruct (String.eqb q k).
Qed.

Lemma dict_get_keys {A} q (d : list (string * A)) :
  is_Some (dict_get q d) ↔ q ∈ keys d.
Proof.
  unfold keys. induction d as [|[k v] d IH]; simpl.
  - split; [by intros [? ?]|by intros ?%elem_of_nil].
  - destruct (String.eqb_spec q k) as [->|Hne].
    + split; [intros _; apply list_elem_of_here|by eexists].
    + rewrite IH. split; [apply list_elem_of_further|].
      by intros [?|?]%elem_of_cons.
Qed.

Lemma dict_get_setdefault {A} q (d : list (string * A)) kv :
  dict_get q (dict_setdefault d kv) =
  match dict_get q d with
  | Some x => Some x
  | None => if String.eqb q kv.1 then Some kv.2 else None
  end.
Proof.
  unfold dict_setdefault, dict_mem.
  destruct (dict_get kv.1 d) as [x|] eqn:E.
  - destruct (dict_get q d) eqn:F; [done|].
    destruct (String.eqb_spec q kv.1) as [->|]; [congruence|done].
  - apply dict_get_add.
Qed.

Lemma keys_setdefault {A} (d : list (string * A)) kv :
  NoDup (keys d) → NoDup (keys (dict_setdefault d kv)).
Proof.
  unfold dict_setdefault, dict_mem, dict_add, keys.
  destruct (dict_get kv.1 d) as [x|] eqn:E; [done|].
  intros Hnd. rewrite fmap_app. apply NoDup_app. split_and!; [done| |].
  - intros k Hk [->|[]%elem_of_nil]%elem_of_cons.
    apply dict_get_keys in Hk as [? Hk]. simpl in Hk. congruence.
  - simpl. apply NoDup_singleton.
Qed.

Lemma dict_get_foldl_setdefault {A} q (d : list (string * A)) kvs :
  dict_get q (foldl dict_setdefault d kvs) =
  match dict_get q d with
  | Some x => Some x
  | None => dict_get q kvs
  end.
Proof.
  revert d. induction kvs as [|[k v] kvs IH]; intros d; simpl.
  - by destruct (dict_get q d).
  - rewrite IH, dict_get_setdefault. simpl.
    destruct (dict_get q d); [done|]. by destruct (String.eqb q k).
Qed.

Lemma keys_foldl_setdefault {A} (d : list (string * A)) kvs :
  NoDup (keys d) → NoDup (keys (foldl dict_setdefault d kvs)).
Proof.
  revert d. induction kvs as [|kv kvs IH]; intros d Hd; simpl; [done|].
  by apply IH, keys_setdefault.
Qed.

Lemma process_entry_spec n content e :
  process_entry (n, content) e =
  ((n + if is_search_info e then 0 else 1)%nat,
   match entry_record e with
   | Some kv => dict_setdefault content kv
   | None => content
   end).
Proof.
  unfold process_entry, entry_record, dict_setdefault.
  destruct (is_search_info e); [by rewrite Nat.add_0_r|].
  rewrite Nat.add_1_r.
  destruct (e_id e) as [[entry_id|]|], (e_title e) as [title|]; try done.
  destruct (build_record _ _ _ _) as [paper|err]; simpl;
    by destruct (dict_mem _ content).
Qed.

Lemma foldl_process_entry n content entries :
  foldl process_entry (n, content) entries =
  ((n + length (real_entries entries))%nat,
   foldl dict_setdefault content (omap entry_record entries)).
Proof.
  revert n content. induction entries as [|e entries IH]; intros n content.
  - simpl. by rewrite Nat.add_0_r.
  - change (foldl process_entry (n, content) (e :: entries))
      with (foldl process_entry (process_entry (n, content) e) entries).
    rewrite process_entry_spec, IH. unfold real_entries.
    rewrite filter_cons. cbn [omap list_omap].
    destruct (is_search_info e); simpl.
    + f_equal; [lia|]. by destruct (entry_record e).
    + f_equal; [lia|]. by destruct (entry_record e).
Qed.

Lemma process_entries_spec content entries :
  process_entries content entries =
  (length (real_entries entries),
   foldl dict_setdefault content (omap entry_record entries)).
Proof. unfold process_entries. by rewrite foldl_process_entry. Qed.

(** *** The retry loop *)

Lemma backoff_S unit first count :
  backoff unit first (S count) =
  backoff unit (S first) count ++ [unit * Z.of_nat first].
Proof. unfold backoff. simpl. done. Qed.

Lemma retry_loop_transient bad unit e fuel retry_count page_start page_max w :
  transient bad unit e →
  urlopen (w_requests w) page_start page_max = bad →
  (retry_count + 1 < 5)%nat →
  retry_loop (S fuel) (Z.of_nat retry_count) page_start page_max w =
  retry_loop fuel (Z.of_nat (S retry_count)) page_start page_max
    (World (w_dir w) (w_writes w) (S (w_requests w))
       (unit * Z.of_nat (S retry_count) :: w_sleeps w)).
Proof.
  intros Ht Hbad Hlt. simpl. unfold max_retries.
  assert ((Z.of_nat retry_count <? 5) = true) as -> by lia.
  assert ((Z.of_nat retry_count + 1 <? 5) = true) as -> by lia.
  rewrite Hbad.
  replace (Z.of_nat retry_count + 1) with (Z.of_nat (S retry_count)) by lia.
  by destruct Ht.
Qed.


(** Transient answers until the retries are used up. *)
Lemma retry_loop_exhausted bad unit e k :
  transient bad unit e →
  ∀ fuel retry_count page_start page_max w,
    (retry_count + k = 4)%nat → (k < fuel)%nat →
    (∀ i, (i ≤ k)%nat → urlopen (w_requests w + i) page_start page_max = bad) →
    retry_loop fuel (Z.of_nat retry_count) page_start page_max w =
    (Raise e,
     World (w_dir w) (w_writes w) (w_requests w + k + 1)
       (backoff unit (S retry_count) k ++ w_sleeps w)).
Proof.
  intros Ht. induction k as [|k IH];
    intros fuel retry_count page_start page_max w Hrc Hfuel Hbad.
  - destruct fuel as [|fuel]; [lia|]. simpl. unfold max_retries.
    assert ((Z.of_nat retry_count <? 5) = true) as -> by lia.
    assert ((Z.of_nat retry_count + 1 <? 5) = false) as -> by lia.
    specialize (Hbad 0%nat). rewrite Nat.add_0_r in Hbad. rewrite Hbad by lia.
    destruct Ht; simpl; do 2 f_equal; lia.
  - destruct fuel as [|fuel]; [lia|].
    rewrite (retry_loop_transient bad unit e) by
      (try done; try lia; rewrite <-(Hbad 0%nat) by lia; f_equal; lia).
    rewrite IH; simpl.
    + rewrite backoff_S, <-app_assoc. simpl. do 2 f_equal. lia.
    + lia.
    + lia.
    + intros i Hi. rewrite <-(Hbad (S i)) by lia. f_equal. lia.
Qed.

(** *** One round of the page loop *)

Lemma save_page_frame entry_count st w :
  start (save_page entry_count st w).1 = start st ∧
  empty_page_count (save_page entry_count st w).1 = empty_page_count st ∧
  full_content (save_page entry_count st w).1 = full_content st ∧
  fetched (save_page entry_count st w).1 = fetched st.
Proof. unfold save_page. by repeat case_match. Qed.

Lemma loop_ends_at_streak fuel target st w :
  3 ≤ empty_page_count st → fetch_loop fuel target st w = Some (st, w).
Proof.
  intros H. assert (loop_test target st = false) as Ht.
  { unfold loop_test, max_empty_pages. apply andb_false_iff. right. lia. }
  destruct fuel; simpl; by rewrite Ht.
Qed.

(** C5 (amended): a page with no real entry adds one to the streak of
    empty pages, and the loop ends once that streak reaches 3; a page
    with real entries sets the streak back to zero.  The offset [start]
    goes up by the page size of 100 after every page that was read,
    empty or not, except the empty page that ends the loop. *)
Theorem page_counters target st w entries w1 c st' w' :
  request_page (start st) (page_max target st) (sleep 5 w) =
    (Ok (Some entries), w1) →
  page_step target st w = (c, st', w') →
  (real_entries entries = [] →
     empty_page_count st' = empty_page_count st + 1 ∧
     (3 ≤ empty_page_count st + 1 → c = Break ∧ start st' = start st) ∧
     (empty_page_count st + 1 < 3 →
        c = Continue ∧ start st' = start st + 100)) ∧
  (real_entries entries ≠ [] →
     empty_page_count st' = 0 ∧ start st' = start st + 100 ∧ c = Continue) ∧
  (3 ≤ empty_page_count st' →
     ∀ fuel, fetch_loop fuel target st' w' = Some (st', w')).
Proof.
  intros Hreq. unfold page_step. rewrite Hreq, process_entries_spec.
  destruct (real_entries entries) as [|e es] eqn:Hreal; simpl length.
  - cbn [Nat.eqb]. unfold max_empty_pages, batch_size.
    destruct (3 <=? empty_page_count st + 1) eqn:Hstreak;
      intros [= <- <- <-]; simpl; (split_and!; [| done |]).
    + intros _. split_and!; [done| |]; intros; [done|lia].
    + intros ? fuel. by apply loop_ends_at_streak.
    + intros _. split_and!; [done| |]; intros; [lia|done].
    + intros ? fuel. by apply loop_ends_at_streak.
  - cbn [Nat.eqb].
    destruct (save_page _ _ w1) as [st2 w2] eqn:Hsave.
    pose proof (save_page_frame (S (length es))
      (State (start st + batch_size) 0
         (foldl dict_setdefault (full_content st) (omap entry_record entries))
         (existing_data st) (new_papers_count st) (fetched st ++ entries)) w1)
      as (Hs & He & _). rewrite Hsave in Hs, He. simpl in Hs, He.
    intros [= <- <- <-]. split_and!; [done| |].
    + intros _. by split_and!.
    + intros ? fuel. by apply loop_ends_at_streak.
Qed.

(** *** Failures of the request *)


Lemma request_page_exhausted bad unit e page_start page_max w :
  transient bad unit e →
  (∀ i, (i < 5)%nat → urlopen (w_requests w + i) page_start page_max = bad) →
  request_page page_start page_max w =
  (Raise e,
   World (w_dir w) (w_writes w) (w_requests w + 5)
     ([unit * 4; unit * 3; unit * 2; unit * 1] ++ w_sleeps w)).
Proof.
  intros Ht Hbad. unfold request_page.
  change (Z.to_nat max_retries) with 5%nat. change 0 with (Z.of_nat 0).
  rewrite (retry_loop_exhausted bad unit e 4 Ht _ 0%nat); [|lia|lia|].
  - do 2 f_equal. lia.
  - intros i Hi. apply Hbad. lia.
Qed.


(** *** Failing writes *)



(** *** The store invariant along a call *)

Lemma store_unique_frame others known w w' :
  w_dir w' = w_dir w → store_unique others known w → store_unique others known w'.
Proof.
  intros Hd. unfold store_unique, store_content, read_file. by rewrite Hd.
Qed.

Lemma retry_loop_dir fuel retry_count page_start page_max w :
  w_dir (retry_loop fuel retry_count page_start page_max w).2 = w_dir w.
Proof.
  revert retry_count w. induction fuel as [|fuel IH]; intros retry_count w;
    simpl; [done|].
  destruct (retry_count <? max_retries); [|done].
  destruct (urlopen _ _ _) as [content|code|]; simpl; [done| |].
  - destruct (code =? 503); [|done].
    destruct (retry_count + 1 <? max_retries); [|done]. by rewrite IH.
  - destruct (retry_count + 1 <? max_retries); [|done]. by rewrite IH.
Qed.

Lemma select_new_codec items known batch :
  select_new items known = Ok batch →
  (∀ item, item ∈ items → codec_ok item = true) →
  forallb codec_ok batch = true.
Proof.
  revert batch. induction items as [|[paper_id paper_data] items IH];
    intros batch; simpl.
  - by intros [= <-].
  - destruct (normalize_arxiv_id_obj _) as [c|]; [|done].
    destruct (select_new items known) as [rest|]; [|done].
    intros Hb Hall.
    assert (forallb codec_ok rest = true) as Hrest.
    { apply IH; [done|]. intros item Hi. apply Hall. by apply list_elem_of_further. }
    destruct (decide (c ∈ known)); injection Hb as <-; [done|].
    simpl. rewrite Hrest, Hall; [done|]. apply list_elem_of_here.
Qed.

Lemma save_page_keeps_unique others entry_count st w st' w' :
  (∀ item, codec_ok item = true) →
  store_unique others (existing_data st) w →
  save_page entry_count st w = (st', w') →
  store_unique others (existing_data st') w'.
Proof.
  intros Hcodec Hinv. unfold save_page.
  destruct (select_new _ _) as [batch|] eqn:Hsel; [|by intros [= <- <-]].
  destruct (0 <? length batch)%nat; [|by intros [= <- <-]].
  destruct (save_metadata_files _ _ _ _) as [[r known'] w1] eqn:Hsave.
  assert (store_unique others known' w1) as Hinv1.
  { eapply save_keeps_unique; [done| |done].
    eapply select_new_codec; [done|]. intros item _. apply Hcodec. }
  destruct r; intros [= <- <-]; simpl; [|done].
  by apply (store_unique_frame _ _ w1).
Qed.

Lemma page_step_keeps_unique others target st w c st' w' :
  (∀ item, codec_ok item = true) →
  store_unique others (existing_data st) w →
  page_step target st w = (c, st', w') →
  store_unique others (existing_data st') w'.
Proof.
  intros Hcodec Hinv. unfold page_step, request_page.
  pose proof (retry_loop_dir (Z.to_nat max_retries) 0 (start st)
                (page_max target st) (sleep 5 w)) as Hdir.
  destruct (retry_loop _ _ _ _ _) as [[[entries|]|e] w1]; simpl in Hdir.
  - assert (store_unique others (existing_data st) w1) as Hinv1
      by (by apply (store_unique_frame _ _ w)).
    destruct (process_entries _ _) as [entry_count content].
    destruct (entry_count =? 0)%nat.
    + destruct (max_empty_pages <=? _); by intros [= <- <- <-].
    + set (st1 := State _ _ _ _ _ _).
      destruct (save_page entry_count st1 w1) as [st2 w2] eqn:Hsave.
      intros [= <- <- <-]. by eapply (save_page_keeps_unique _ _ st1).
  - intros [= <- <- <-]. by apply (store_unique_frame _ _ w).
  - assert (store_unique others (existing_data st) w1) as Hinv1
      by (by apply (store_unique_frame _ _ w)).
    destruct e; try by intros [= <- <- <-].
    destruct (code =? 503); intros [= <- <- <-]; [|done].
    by apply (store_unique_frame _ _ w1).
Qed.

Lemma fetch_loop_keeps_unique others fuel target st w st' w' :
  (∀ item, codec_ok item = true) →
  store_unique others (existing_data st) w →
  fetch_loop fuel target st w = Some (st', w') →
  store_unique others (existing_data st') w'.
Proof.
  intros Hcodec. revert st w. induction fuel as [|fuel IH]; intros st w Hinv; simpl.
  - destruct (loop_test target st); [done|]. by intros [= <- <-].
  - destruct (loop_test target st); [|by intros [= <- <-]].
    destruct (page_step target st w) as [[c st1] w1] eqn:Hstep.
    eapply page_step_keeps_unique in Hstep; [|done..].
    destruct c; [by apply IH|by intros [= <- <-]].
Qed.

(** A whole call keeps the store invariant, when the set the loader
    returns covers the store as it finds it. *)
Lemma get_daily_papers_keeps_unique others fuel max_results start_date
    end_date w r st w' :
  (∀ item, codec_ok item = true) →
  store_unique others (load_existing_metadata_files false (w_dir w)) w →
  get_daily_papers fuel max_results start_date end_date w = Some (r, st, w') →
  store_unique others (existing_data st) w'.
Proof.
  intros Hcodec Hinv. unfold get_daily_papers.
  destruct (fetch_loop _ _ _ w) as [[st1 w1]|] eqn:Hloop; [|done].
  intros [= <- <- <-]. by eapply fetch_loop_keeps_unique in Hloop.
Qed.

(** *** First occurrence *)

Lemma dict_get_app {A} q (d1 d2 : list (string * A)) :
  dict_get q (d1 ++ d2) =
  match dict_get q d1 with Some x => Some x | None => dict_get q d2 end.
Proof.
  induction d1 as [|[k v] d1 IH]; simpl; [done|].
  by destruct (String.eqb q k).
Qed.

Lemma page_step_accumulated target st w c st' w' :
  accumulated st → page_step target st w = (c, st', w') → accumulated st'.
Proof.
  unfold accumulated, page_step. intros Hacc.
  destruct (request_page _ _ _) as [[[entries|]|e] w1].
  - rewrite process_entries_spec.
    assert (foldl dict_setdefault (full_content st) (omap entry_record entries) =
            foldl dict_setdefault [] (omap entry_record (fetched st ++ entries)))
      as Hnew by (by rewrite omap_app, foldl_app, Hacc).
    destruct (length (real_entries entries) =? 0)%nat.
    + destruct (max_empty_pages <=? _); by intros [= <- <- <-].
    + set (st1 := State _ _ _ _ _ _).
      destruct (save_page _ st1 w1) as [st2 w2] eqn:Hsave.
      destruct (save_page_frame (length (real_entries entries)) st1 w1)
        as (_ & _ & Hf & Hg).
      rewrite Hsave in Hf, Hg. simpl in Hf, Hg. intros [= <- <- <-].
      by rewrite Hf, Hg.
  - by intros [= <- <- <-].
  - destruct e; try by intros [= <- <- <-].
    destruct (code =? 503); by intros [= <- <- <-].
Qed.

Lemma fetch_loop_accumulated fuel target st w st' w' :
  accumulated st → fetch_loop fuel target st w = Some (st', w') →
  accumulated st'.
Proof.
  revert st w. induction fuel as [|fuel IH]; intros st w Hacc; simpl.
  - destruct (loop_test target st); [done|]. by intros [= <- <-].
  - destruct (loop_test target st); [|by intros [= <- <-]].
    destruct (page_step target st w) as [[c st1] w1] eqn:Hstep.
    apply page_step_accumulated in Hstep; [|done].
    destruct c; [by apply IH|by intros [= <- <-]].
Qed.

(** C6 (amended): in the output of one call of [get_daily_papers]
    every paper ID occurs once, and the record stored under it is the
    one built from the first fetched entry with that ID that is a
    paper entry, has its [id] and [title] elements and builds without
    failure; entries with that ID before it, which the fetcher skipped,
    and all entries with that ID after it leave no record. *)
Theorem first_built_entry_wins fuel max_results start_date end_date w
    content n st w' :
  get_daily_papers fuel max_results start_date end_date w =
    Some (Ok (content, n), st, w') →
  NoDup (keys content) ∧
  (∀ p, dict_get p content = dict_get p (omap entry_record (fetched st))) ∧
  (∀ pre e post p paper,
     fetched st = pre ++ e :: post →
     entry_record e = Some (p, paper) →
     (∀ e' paper', e' ∈ pre → entry_record e' ≠ Some (p, paper')) →
     dict_get p content = Some paper).
Proof.
  unfold get_daily_papers. set (st0 := State _ _ _ _ _ _).
  destruct (fetch_loop _ _ st0 w) as [[st1 w1]|] eqn:Hloop; [|done].
  intros [= <- <- <- <-].
  assert (accumulated st1) as Hacc
    by (by eapply fetch_loop_accumulated; [|done]).
  assert (∀ p, dict_get p (full_content st1) =
               dict_get p (omap entry_record (fetched st1))) as Hget.
  { intros p. rewrite Hacc. by rewrite dict_get_foldl_setdefault. }
  split_and!; [|done|].
  - rewrite Hacc. apply keys_foldl_setdefault. constructor.
  - intros pre e post p paper Hf He Hpre.
    rewrite Hget, Hf, omap_app, dict_get_app.
    destruct (dict_get p (omap entry_record pre)) as [paper'|] eqn:Hp.
    + assert (p ∈ keys (omap entry_record pre)) as Hk
        by (apply dict_get_keys; by eexists).
      unfold keys in Hk. apply list_elem_of_fmap in Hk as ([p' r'] & -> & Hin).
      apply list_elem_of_omap in Hin as (e' & Hin & He').
      by destruct (Hpre e' r' Hin).
    + simpl. rewrite He. simpl. by rewrite String.eqb_refl.
Qed.


(** ** More of the code *)

(** *** The fetcher's paper IDs *)

Lemma entry_paper_id_clean entry_id :
  Py.contains "v" (entry_paper_id entry_id) = false ∧
  Py.contains "/abs/" (entry_paper_id entry_id) = false.
Proof.
  unfold entry_paper_id. apply cut_at_v_clean.
  destruct (Py.contains "/abs/" entry_id) eqn:Habs; [|done].
  by apply last_split_free.
Qed.

Lemma entry_paper_id_fixed entry_id :
  normalize_arxiv_id (entry_paper_id entry_id) = entry_paper_id entry_id.
Proof.
  destruct (entry_paper_id_clean entry_id) as [Hv Habs].
  by apply normalize_fixed.
Qed.

(** X1: the paper ID the fetcher derives from any [entry_id] holds no
    ['v'] and no ["/abs/"], and the normalizer leaves it as it is: the
    keys of [full_content] are already in the form the writer and the
    loader compare. *)
Theorem entry_paper_id_canonical (entry_id : string) :
  Py.contains "v" (entry_paper_id entry_id) = false ∧
  Py.contains "/abs/" (entry_paper_id entry_id) = false ∧
  normalize_arxiv_id (entry_paper_id entry_id) = entry_paper_id entry_id.
Proof.
  destruct (entry_paper_id_clean entry_id) as [Hv Habs].
  split_and!; [done..|apply entry_paper_id_fixed].
Qed.

(** X2: the fetcher's derivation and [normalize_arxiv_id] give the same
    ID for every [entry_id] that holds ["/abs/"] or does not hold the
    source domain. *)
Theorem entry_paper_id_normalize (entry_id : string) :
  (Py.contains "arxiv.org" entry_id = true →
   Py.contains "/abs/" entry_id = true) →
  entry_paper_id entry_id = normalize_arxiv_id entry_id.
Proof.
  intros Hurl. unfold entry_paper_id, normalize_arxiv_id.
  destruct entry_id as [|c s]; [done|].
  cbn [Py.is_empty].
  destruct (Py.contains "/abs/" (String c s)) eqn:Habs; [done|].
  destruct (Py.contains "arxiv.org" (String c s)) eqn:Hdom; [|done].
  by specialize (Hurl eq_refl).
Qed.

(** X3: an [entry_id] under ["http://arxiv.org/"] without ["/abs/"] is
    cut at the ['v'] of the domain: the fetcher files every such entry
    under the one key ["http://arxi"], which is not what the normalizer
    gives for it. *)
Theorem entry_paper_id_domain_cut (rest : string) :
  Py.contains "/abs/" ("http://arxiv.org/" +:+ rest) = false →
  entry_paper_id ("http://arxiv.org/" +:+ rest) = "http://arxi" ∧
  normalize_arxiv_id ("http://arxiv.org/" +:+ rest) ≠ "http://arxi".
Proof.
  intros Habs. split.
  - unfold entry_paper_id. rewrite Habs. done.
  - intros Heq.
    assert (Py.contains "/" (normalize_arxiv_id ("http://arxiv.org/" +:+ rest))
            = false) as Hfree; [|by rewrite Heq in Hfree].
    unfold normalize_arxiv_id. rewrite Habs.
    change (Py.is_empty _) with false.
    change (Py.contains "arxiv.org" _) with true.
    cbv iota.
    assert (Py.contains "/"
              (Py.last (Py.split "/" ("http://arxiv.org/" +:+ rest))) = false)
      as Hlast by (by apply last_split_free).
    destruct (Py.find "v" _) as [i|]; [|done].
    destruct (Py.contains "/" (Py.take i _)) eqn:Hc; [|done].
    apply contains_take in Hc. by rewrite Hc in Hlast.
Qed.

(** *** Authors *)

Lemma concat_authors_names names acc :
  concat_authors (Some <$> names) acc =
  Ok (foldl (λ s name, s +:+ name +:+ ", ") acc names).
Proof.
  revert acc. induction names as [|name names IH]; intros acc; [done|].
  simpl. apply IH.
Qed.

Lemma concat_authors_None (authors : list (option string)) acc :
  None ∈ authors → concat_authors authors acc = Raise TypeError.
Proof.
  revert acc. induction authors as [|[name|] authors IH]; intros acc Hin.
  - by apply elem_of_nil in Hin.
  - simpl. apply IH. by apply elem_of_cons in Hin as [|].
  - done.
Qed.

Lemma foldl_names_join name names acc :
  foldl (λ s name, s +:+ name +:+ ", ") acc (name :: names) =
  acc +:+ PyStr.join ", " (name :: names) +:+ ", ".
Proof.
  revert name acc. induction names as [|name' names IH]; intros name acc.
  - done.
  - change (foldl _ acc (name :: name' :: names))
      with (foldl (λ s name, s +:+ name +:+ ", ") (acc +:+ name +:+ ", ")
              (name' :: names)).
    rewrite IH.
    change (PyStr.join ", " (name :: name' :: names))
      with (name +:+ ", " +:+ PyStr.join ", " (name' :: names)).
    by rewrite !app_assoc_str.
Qed.

Lemma drop_last_app s t :
  PyStr.drop_last (String.length t) (s +:+ t) = s.
Proof.
  unfold PyStr.drop_last. rewrite length_app_str.
  replace (String.length s + String.length t - String.length t)%nat
    with (String.length s) by lia.
  apply take_length_app.
Qed.


Lemma all_names (authors : list (option string)) :
  None ∉ authors → authors = Some <$> omap id authors.
Proof.
  induction authors as [|[name|] authors IH]; intros Hnot; [done|..].
  - simpl. f_equal. apply IH. intros Hin. apply Hnot. by right.
  - destruct Hnot. by left.
Qed.

Lemma get_authors_eq (authors : list (option string)) :
  get_authors authors =
  if decide (None ∈ authors) then Raise TypeError
  else Ok match omap id authors with
          | [] => "None"
          | names => PyStr.join ", " names
          end.
Proof.
  destruct (decide (None ∈ authors)) as [Hin|Hnot].
  - unfold get_authors. rewrite (concat_authors_None _ _ Hin).
    destruct authors; [by apply elem_of_nil in Hin|done].
  - rewrite (all_names _ Hnot) at 1.
    destruct (omap id authors) as [|name names]; [done|].
    unfold get_authors.
    change (Some <$> name :: names) with (Some name :: (Some <$> names)).
    cbv iota.
    change (Some name :: (Some <$> names)) with (Some <$> name :: names).
    rewrite concat_authors_names, foldl_names_join, app_nil_str.
    f_equal. apply (drop_last_app _ ", ").
Qed.

Lemma parse_authors_names names :
  parse_authors (Some <$> names) = Ok (parse_author <$> names).
Proof.
  induction names as [|name names IH]; [done|].
  rewrite !fmap_cons. cbn [parse_authors]. by rewrite IH.
Qed.

Lemma nameless_author (elems : list (option (option string))) :
  None ∈ omap id elems ↔ Some None ∈ elems.
Proof.
  rewrite list_elem_of_omap. split.
  - by intros ([[name|]|] & Hin & Hid).
  - intros Hin. by exists (Some None).
Qed.

(** *** Records *)

Lemma build_record_is_raise paper_id entry_id title (e : entry) :
  is_raise (build_record paper_id entry_id title e) = true ↔
  Some None ∈ e_authors e ∨ e_summary e = Some None ∨
  e_published e = Some None ∨ e_updated e = Some None.
Proof.
  unfold build_record. rewrite get_authors_eq.
  destruct (decide (None ∈ omap id (e_authors e))) as [Hin|Hnot].
  - split; [|done]. intros _. left. by apply nameless_author.
  - rewrite (all_names _ Hnot), parse_authors_names.
    rewrite nameless_author in Hnot.
    destruct (e_summary e) as [[?|]|], (e_published e) as [[?|]|],
      (e_updated e) as [[?|]|]; simpl;
      (split; [try done; intros _; auto|try done; intros [?|[?|[?|?]]]; done]).
Qed.

(** X4: [get_authors] without [first_author] raises [TypeError] exactly
    when some author has no name; otherwise it gives the names joined by
    [", "], and for no authors at all the string ["None"]. *)
Theorem get_authors_spec (authors : list (option string)) :
  get_authors authors =
  if decide (None ∈ authors) then Raise TypeError
  else Ok match omap id authors with
          | [] => "None"
          | names => PyStr.join ", " names
          end.
Proof. apply get_authors_eq. Qed.

(** X5: building the record of an entry fails exactly when an author's
    [name] element, the [summary], the [published] or the [updated]
    element is there without text; a missing element, or a [title]
    without text, does not make it fail. *)
Theorem build_record_raises paper_id entry_id title (e : entry) :
  is_raise (build_record paper_id entry_id title e) = true ↔
  Some None ∈ e_authors e ∨ e_summary e = Some None ∨
  e_published e = Some None ∨ e_updated e = Some None.
Proof. apply build_record_is_raise. Qed.





Lemma build_record_id paper_id entry_id title e paper :
  build_record paper_id entry_id title e = Ok paper →
  dict_get "id" paper = Some (JStr paper_id).
Proof.
  unfold build_record.
  destruct (get_authors _); [|done].
  destruct (text_or_empty _ _ (e_summary e)); [|done].
  destruct (text_or_empty _ _ (e_published e)); [|done].
  destruct (text_or_empty _ _ (e_updated e)); [|done].
  destruct (parse_authors _); [|done].
  by intros [= <-].
Qed.


(** *** From the fetcher to the writer *)

Lemma normalize_obj_fixed p :
  normalize_arxiv_id p = p → normalize_arxiv_id_obj (JStr p) = Ok p.
Proof.
  intros Hfix. unfold normalize_arxiv_id_obj. destruct p as [|c s]; [done|].
  simpl truthy. cbv iota. simpl negb. cbv iota. by rewrite Hfix.
Qed.

Lemma entry_record_item_id e p paper :
  entry_record e = Some (p, paper) →
  dict_get "id" paper = Some (JStr p) ∧ item_id (p, paper) = Ok p ∧
  normalize_arxiv_id p = p.
Proof.
  unfold entry_record. destruct (is_search_info e); [done|].
  destruct (e_id e) as [[entry_id|]|]; [|done..].
  destruct (e_title e) as [title|]; [|done].
  destruct (build_record _ _ _ _) as [paper'|] eqn:Hbuild; [|done].
  intros [= <- <-]. apply build_record_id in Hbuild.
  split_and!; [done| |apply entry_paper_id_fixed].
  unfold item_id. simpl. rewrite Hbuild. simpl.
  apply normalize_obj_fixed, entry_paper_id_fixed.
Qed.

(** X7: for the record an entry contributes, the ID the writer
    normalizes (the record's own ['id']) is the key it is stored under
    in [full_content], and it is the ID under which the loader finds
    the record again. *)
Theorem fetched_record_item_id (e : entry) p paper :
  entry_record e = Some (p, paper) →
  dict_get "id" paper = Some (JStr p) ∧
  item_id (p, paper) = Ok p ∧
  clean_id (p, paper) = p ∧
  dict_record_id paper = Some p.
Proof.
  intros (Hid & Hitem & Hfix)%entry_record_item_id.
  split_and!; [done|done|..].
  - unfold clean_id. by rewrite Hitem.
  - unfold dict_record_id. by rewrite Hid, Hfix.
Qed.

(** *** Which entries leave a record *)

Lemma entry_record_None (e : entry) :
  entry_record e = None ↔
  is_search_info e = true ∨ e_id e = None ∨ e_id e = Some None ∨
  e_title e = None ∨ Some None ∈ e_authors e ∨ e_summary e = Some None ∨
  e_published e = Some None ∨ e_updated e = Some None.
Proof.
  unfold entry_record. destruct (is_search_info e); [by split; auto|].
  destruct (e_id e) as [[entry_id|]|]; [|by split; auto..].
  destruct (e_title e) as [title|]; [|by split; auto 6].
  pose proof (build_record_is_raise (entry_paper_id entry_id) entry_id title e)
    as Hraise.
  destruct (build_record _ _ _ _); simpl in Hraise.
  - split; [done|]. intros [?|[?|[?|[?|H]]]]; [done..|].
    by apply Hraise in H.
  - split; [|done]. intros _. do 4 right. by apply Hraise.
Qed.

Lemma entry_record_key (e : entry) p paper :
  entry_record e = Some (p, paper) →
  ∃ entry_id, e_id e = Some (Some entry_id) ∧ p = entry_paper_id entry_id.
Proof.
  unfold entry_record. destruct (is_search_info e); [done|].
  destruct (e_id e) as [[entry_id|]|]; [|done..].
  destruct (e_title e) as [title|]; [|done].
  destruct (build_record _ _ _ _); [|done].
  intros [= <- <-]. by exists entry_id.
Qed.

Lemma app_singleton_ne {A} (l : list A) x : l ++ [x] ≠ l.
Proof.
  intros Heq. apply (f_equal length) in Heq.
  rewrite length_app in Heq. simpl in Heq. lia.
Qed.

(** X8: one entry of a page leaves [full_content] as it is exactly when
    it is a search-information entry, lacks its [id] or [title] element
    or the text of its [id], derives a paper ID that already has a
    record, or has an author name, a summary or a date element without
    text; every other entry appends one record, under its paper ID, at
    the end. *)
Theorem process_entry_keeps (n : nat) content (e : entry) :
  ((process_entry (n, content) e).2 = content ↔
   is_search_info e = true ∨ e_id e = None ∨ e_id e = Some None ∨
   e_title e = None ∨
   (∃ entry_id,
      e_id e = Some (Some entry_id) ∧
      dict_mem (entry_paper_id entry_id) content = true) ∨
   Some None ∈ e_authors e ∨ e_summary e = Some None ∨
   e_published e = Some None ∨ e_updated e = Some None) ∧
  ((process_entry (n, content) e).2 ≠ content →
   ∃ entry_id paper,
     e_id e = Some (Some entry_id) ∧
     (process_entry (n, content) e).2 =
       content ++ [(entry_paper_id entry_id, paper)]).
Proof.
  rewrite process_entry_spec. cbn [snd].
  pose proof (entry_record_None e) as Hnone.
  destruct (entry_record e) as [[p paper]|] eqn:Hrec.
  - apply entry_record_key in Hrec as (entry_id & Hid & ->).
    unfold dict_setdefault, dict_add. cbn [fst snd].
    destruct (dict_mem (entry_paper_id entry_id) content) eqn:Hmem.
    + split; [|done]. split; [|done]. intros _. do 4 right. left. eauto.
    + split; [|intros _; eauto]. split; [by intros ?%app_singleton_ne|].
      intros H. exfalso.
      assert (Some (entry_paper_id entry_id, paper) = None) as Habs;
        [|done].
      apply Hnone.
      destruct H as [?|[?|[?|[?|[(i & Hi & Hm)|H]]]]]; auto 10.
      rewrite Hid in Hi. injection Hi as <-. by rewrite Hm in Hmem.
  - split; [|done]. split; [|done]. intros _.
    destruct Hnone as [Hnone _].
    destruct (Hnone eq_refl) as [?|[?|[?|[?|H]]]]; auto 10.
Qed.

Lemma foldl_setdefault_appends {A} (d : list (string * A)) kvs :
  ∃ added,
    foldl dict_setdefault d kvs = d ++ added ∧ added `sublist_of` kvs.
Proof.
  revert d. induction kvs as [|kv kvs IH]; intros d.
  - exists []. by rewrite app_nil_r.
  - simpl. destruct (IH (dict_setdefault d kv)) as (added & -> & Hsub).
    unfold dict_setdefault, dict_add. destruct (dict_mem kv.1 d).
    + exists added. split; [done|]. by apply sublist_cons.
    + exists (kv :: added). rewrite <-app_assoc. destruct kv.
      split; [done|]. by apply sublist_skip.
Qed.

Lemma length_entry_records entries :
  (length (omap entry_record entries) ≤ length (real_entries entries))%nat.
Proof.
  unfold real_entries. induction entries as [|e entries IH]; [done|].
  change (omap entry_record (e :: entries))
    with (match entry_record e with
          | Some kv => kv :: omap entry_record entries
          | None => omap entry_record entries
          end).
  rewrite filter_cons. destruct (is_search_info e) eqn:Hinfo.
  - unfold entry_record at 1. rewrite Hinfo.
    by rewrite decide_False by done.
  - rewrite decide_True by done. destruct (entry_record e); simpl; lia.
Qed.

(** X9: a page only appends to [full_content]: what was there stays, in
    place, and at most [entry_count] records are added behind it, so
    the slice of the last [entry_count] items that goes to the
    incremental save ends with all the records the page added. *)
Theorem page_slice_covers content (entries : list entry) :
  let entry_count := (process_entries content entries).1 in
  let content' := (process_entries content entries).2 in
  entry_count = length (real_entries entries) ∧
  ∃ added,
    content' = content ++ added ∧
    added `sublist_of` omap entry_record entries ∧
    (length added ≤ entry_count)%nat ∧
    ∃ earlier, last_n entry_count content' = earlier ++ added.
Proof.
  rewrite process_entries_spec. cbn [fst snd]. split; [done|].
  destruct (foldl_setdefault_appends content (omap entry_record entries))
    as (added & -> & Hsub).
  pose proof (sublist_length _ _ Hsub) as Hlen.
  pose proof (length_entry_records entries) as Hlen'.
  exists added. split_and!; [done|done|lia|].
  unfold last_n. rewrite length_app.
  exists (drop (length content + length added
                - length (real_entries entries)) content).
  rewrite list.drop_app_le by lia. done.
Qed.

(** *** Batches of new records, and saving again *)

Lemma item_id_clean item :
  is_raise (item_id item) = false → item_id item = Ok (clean_id item).
Proof. unfold clean_id. by destruct (item_id item). Qed.

Lemma new_records_fresh items :
  ∀ known,
    Forall (λ item, is_raise (item_id item) = false) items →
    NoDup (clean_id <$> items) →
    (∀ item, item ∈ items → clean_id item ∉ known) →
    new_records items known = items.
Proof.
  clear json_loads json_dumps urlopen disk_ok.
  induction items as [|item items IH]; intros known Hok Hnd Hnew; [done|].
  apply Forall_cons in Hok as [Hitem Hok]. apply item_id_clean in Hitem.
  rewrite fmap_cons in Hnd. apply NoDup_cons in Hnd as [Hnotin Hnd].
  cbn [new_records]. rewrite Hitem.
  rewrite decide_False by (apply Hnew; left). f_equal.
  apply IH; [done..|].
  intros item' Hin [Heq%elem_of_singleton|Hknown]%elem_of_union.
  - apply Hnotin. rewrite <-Heq. by apply list_elem_of_fmap_2.
  - by apply (Hnew item'); [right|].
Qed.

(** X10: a batch whose records all have a usable ID, pairwise distinct
    and none of them known, is appended whole and in order when no write
    fails: the count returned is the size of the batch, the total is the
    size of the set before plus that, the set gains exactly the batch's
    IDs, and the file is its old content, closed by a newline if it had
    none, followed by one line per record. *)
Theorem save_fresh_batch batch known skip w :
  (∀ k, (k ≤ length batch)%nat → disk_ok (w_writes w + k) = true) →
  Forall (λ item, is_raise (item_id item) = false) batch →
  NoDup (clean_id <$> batch) →
  (∀ item, item ∈ batch → clean_id item ∉ known) →
  ∃ w',
    save_metadata_files batch (Some known) skip w =
      (Ok (length batch, (size known + length batch)%nat),
       known ∪ list_to_set (clean_id <$> batch), w') ∧
    store_content w' =
      with_newline (store_content w) +:+ store_lines batch ∧
    (∀ name, name ≠ arxiv_file → read_file name w' = read_file name w).
Proof.
  intros Hdisk Hok Hnd Hnew.
  destruct (save_metadata_files batch (Some known) skip w) as [[r known'] w']
    eqn:Hsave.
  destruct (save_metadata_files_spec _ _ _ _ _ _ _ Hsave)
    as [(Hn & Hfail & _)
       |(_ & Hk & _ & Hsame & looped & Hloop & Hout)].
  { rewrite <-(Nat.add_0_r (w_writes w)) in Hfail.
    rewrite Hdisk in Hfail; [done|lia]. }
  destruct (save_items_spec _ _ _ _ _ _ _ Hloop) as (_ & _ & _ & _ & _ & _ & Hr).
  rewrite (new_records_fresh batch known) in * by done.
  assert (looped = Ok (length batch)) as ->.
  { destruct looped as [n'|e]; [by destruct Hr as [-> _]|].
    destruct Hr as (item & Hin & Hraise).
    rewrite Forall_forall in Hok. specialize (Hok item Hin).
    by rewrite Hraise in Hok. }
  destruct Hout as [(_ & _ & Hcont & ->)|(Hne & Hbad & _)].
  2: { destruct batch as [|item batch]; [done|]. simpl in Hdisk.
       rewrite Hdisk in Hbad; [done|].
       destruct (needs_newline (store_content w)); lia. }
  exists w'. split_and!; [|done|apply Hsame].
  rewrite Hk. do 3 f_equal. rewrite size_union.
  - by rewrite size_list_to_set, length_fmap.
  - intros i Hi (item & -> & Hin)%elem_of_list_to_set%list_elem_of_fmap.
    by apply (Hnew item).
Qed.

Lemma drop_all s : Py.drop (String.length s) s = "".
Proof. induction s as [|c s IH]; [done|]. done. Qed.

Lemma endswith_app_newline s :
  PyStr.endswith PyStr.newline (s +:+ PyStr.newline) = true.
Proof.
  unfold PyStr.endswith. rewrite length_app_str.
  change (String.length PyStr.newline) with 1%nat.
  replace (String.length s + 1 - 1)%nat with (String.length s) by lia.
  rewrite drop_app_le by done. rewrite drop_all, app_nil_str.
  apply andb_true_iff. split; [apply Nat.leb_le; lia|done].
Qed.

Lemma needs_newline_app_newline s :
  needs_newline (s +:+ PyStr.newline) = false.
Proof.
  unfold needs_newline. rewrite endswith_app_newline.
  apply andb_false_r.
Qed.

Lemma with_newline_done content :
  needs_newline (with_newline content) = false.
Proof.
  unfold with_newline. destruct (needs_newline content) eqn:E; [|done].
  apply needs_newline_app_newline.
Qed.

Lemma store_lines_end items :
  items ≠ [] → ∃ s, store_lines items = s +:+ PyStr.newline.
Proof.
  induction items as [|item items IH]; [done|]. intros _.
  rewrite store_lines_cons. unfold store_line.
  destruct items as [|item' items].
  - eexists. simpl. by rewrite app_empty_r.
  - destruct IH as [s Hs]; [done|]. rewrite Hs.
    eexists. by rewrite <-!app_assoc_str.
Qed.

Lemma needs_newline_saved content items :
  needs_newline (with_newline content +:+ store_lines items) = false.
Proof.
  destruct items as [|item items].
  - simpl. rewrite app_empty_r. apply with_newline_done.
  - destruct (store_lines_end (item :: items)) as [s ->]; [done|].
    rewrite <-app_assoc_str. apply needs_newline_app_newline.
Qed.

Lemma save_settled batch known w :
  is_Some (read_file arxiv_file w) →
  needs_newline (store_content w) = false →
  Forall (λ item, ∃ c, item_id item = Ok c ∧ c ∈ known) batch →
  ∀ skip,
    save_metadata_files batch (Some known) skip w =
      (Ok (0%nat, size known), known, w).
Proof.
  intros [content Hfile] Hclosed Hall skip.
  unfold store_content in Hclosed. rewrite Hfile in Hclosed.
  simpl in Hclosed.
  assert (∃ files, w_dir w = Some files ∧ files !! arxiv_file = Some content)
    as (files & Hdir & Hlook).
  { unfold read_file in Hfile. destruct (w_dir w) as [files|]; [|done].
    by exists files. }
  unfold save_metadata_files, makedirs. rewrite Hdir.
  unfold ensure_newline. rewrite Hfile.
  fold (needs_newline content). rewrite Hclosed.
  unfold open_append. rewrite Hdir, Hlook.
  by rewrite save_items_known.
Qed.

(** X11: saving is idempotent: when a save has returned, the same batch
    saved again with the set it handed back writes nothing at all,
    reports zero new entries and the same total, and leaves every file
    and the set exactly as they were. *)
Theorem save_again_appends_nothing batch known skip w n total known1 w1 :
  save_metadata_files batch (Some known) skip w =
    (Ok (n, total), known1, w1) →
  save_metadata_files batch (Some known1) skip w1 =
    (Ok (0%nat, total), known1, w1).
Proof.
  intros Hsave.
  destruct (save_metadata_files_spec _ _ _ _ _ _ _ Hsave)
    as [(_ & _ & Hr & _)
       |(_ & _ & Hf & _ & looped & Hloop & Hout)]; [done|].
  destruct Hout as [(_ & _ & Hcont & Hr)|(_ & _ & _ & _ & Hr)]; [|done].
  destruct looped as [n'|]; [|done]. injection Hr as -> ->.
  destruct (save_items_spec _ _ _ _ _ _ _ Hloop)
    as (_ & _ & _ & _ & _ & _ & _ & Hall).
  apply save_settled; [done|by rewrite Hcont; apply needs_newline_saved|done].
Qed.

(** *** The loader, file by file *)

Lemma load_directory_insert skip files name content :
  files !! name = None →
  load_existing_metadata_files skip (Some (<[name := content]> files)) =
  load_file skip ∅ (name, content) ∪
  load_existing_metadata_files skip (Some files).
Proof.
  intros Hnone. unfold load_existing_metadata_files.
  rewrite (load_listing_perm _ _ _ (map_to_list_insert files name content Hnone)).
  by rewrite !load_listing_union.
Qed.

Lemma load_directory_put skip files name content :
  load_existing_metadata_files skip (Some (<[name := content]> files)) =
  load_file skip ∅ (name, content) ∪
  load_existing_metadata_files skip (Some (delete name files)).
Proof.
  rewrite <-insert_delete_eq.
  apply load_directory_insert, lookup_delete_eq.
Qed.

(** X12: the set the loader returns does not depend on the order in
    which [os.listdir] gives the files, whatever the files hold: it is
    the union of what each file contributes on its own. *)
Theorem loader_any_order skip (listing listing' : list (string * string)) :
  listing ≡ₚ listing' →
  load_listing skip listing = load_listing skip listing' ∧
  load_listing skip listing = ⋃ (load_file skip ∅ <$> listing).
Proof.
  intros Hperm. split; [by apply load_listing_perm|].
  apply load_listing_union.
Qed.

(** X13: writing a file into the directory, new or in place of an old
    one of that name, changes the loaded set to that file's own
    contribution together with what the other files give. *)
Theorem loader_file_by_file skip (files : gmap string string) name content :
  load_existing_metadata_files skip (Some (<[name := content]> files)) =
  load_file skip ∅ (name, content) ∪
  load_existing_metadata_files skip (Some (delete name files)).
Proof. apply load_directory_put. Qed.

Lemma load_file_passed_over skip name content ids :
  passed_over skip name → load_file skip ids (name, content) = ids.
Proof.
  unfold load_file.
  intros [->|[(p & -> & ->)|[-> ->]]]; done.
Qed.

(** X14: a file that is passed over never reaches the set: with it in
    the directory, whatever it holds, the loader returns what it
    returns without it. *)
Theorem loader_passes_over skip (files : gmap string string) name content :
  passed_over skip name →
  load_existing_metadata_files skip (Some (<[name := content]> files)) =
  load_existing_metadata_files skip (Some (delete name files)).
Proof.
  intros Hover. rewrite load_directory_put.
  rewrite (load_file_passed_over _ _ _ _ Hover). set_solver.
Qed.

Lemma load_file_skip_subseteq file :
  load_file true ∅ file ⊆ load_file false ∅ file.
Proof.
  destruct file as [name content]. unfold load_file.
  destruct (arxiv_match name) as [[ym|]|]; set_solver.
Qed.

Lemma load_file_skip_dated file :
  arxiv_match file.1 ≠ Some None →
  load_file true ∅ file = load_file false ∅ file.
Proof.
  destruct file as [name content]. unfold load_file. simpl.
  by destruct (arxiv_match name) as [[ym|]|].
Qed.

(** X15: skipping the files without a period can only make the loaded
    set smaller, and makes no difference when no file of the directory
    matches the pattern without a period. *)
Theorem loader_skip_flag (dir : directory) :
  load_existing_metadata_files true dir ⊆
    load_existing_metadata_files false dir ∧
  ((∀ files name, dir = Some files → is_Some (files !! name) →
      arxiv_match name ≠ Some None) →
   load_existing_metadata_files true dir =
     load_existing_metadata_files false dir).
Proof.
  destruct dir as [files|]; [|done].
  unfold load_existing_metadata_files. rewrite !load_listing_union. split.
  - intros i (X & (file & -> & Hin)%list_elem_of_fmap & Hi)%elem_of_union_list.
    apply elem_of_union_list. exists (load_file false ∅ file).
    split; [by apply list_elem_of_fmap_2|by apply load_file_skip_subseteq].
  - intros Hdated. f_equal. apply list_fmap_ext.
    intros k [name content] Hk. apply load_file_skip_dated. simpl.
    apply (Hdated files name eq_refl).
    exists content. apply elem_of_map_to_list.
    by eapply list_elem_of_lookup_2.
Qed.

Lemma normalize_twice s :
  normalize_arxiv_id (normalize_arxiv_id s) = normalize_arxiv_id s.
Proof.
  destruct (normalize_clean s). by apply normalize_fixed.
Qed.

Lemma normalize_obj_canonical v i :
  normalize_arxiv_id_obj v = Ok i → normalize_arxiv_id i = i.
Proof.
  unfold normalize_arxiv_id_obj.
  destruct (negb (truthy v)); [by intros [= <-]|].
  destruct v; try done. intros [= <-]. apply normalize_twice.
Qed.

Lemma load_line_canonical line i :
  load_line line = Ok (Some i) → normalize_arxiv_id i = i.
Proof.
  unfold load_line. destruct (Py.is_empty _); [done|].
  destruct (json_loads _) as [data|]; [|done].
  destruct (has_id data) as [[]|]; [|done..].
  destruct (get_id data) as [paper_id|]; [|done].
  destruct (normalize_arxiv_id_obj paper_id) as [i'|] eqn:Hn; [|done].
  intros [= <-]. by eapply normalize_obj_canonical.
Qed.

Lemma load_lines_canonical ls :
  ∀ ids i, i ∈ load_lines ls ids → i ∈ ids ∨ normalize_arxiv_id i = i.
Proof.
  induction ls as [|line ls IH]; intros ids i; simpl; [by left|].
  destruct (load_line line) as [[paper_id|]|] eqn:Hline; [..|by left].
  - intros [[->%elem_of_singleton|?]%elem_of_union|?]%IH; auto.
    right. by eapply load_line_canonical.
  - apply IH.
Qed.

Lemma load_file_canonical skip file i :
  i ∈ load_file skip ∅ file → normalize_arxiv_id i = i.
Proof.
  destruct file as [name content]. unfold load_file.
  destruct (arxiv_match name) as [[ym|]|]; [| |set_solver].
  - destruct (String.leb _ _); [|set_solver].
    by intros [?%elem_of_empty|?]%load_lines_canonical.
  - destruct skip; [set_solver|].
    by intros [?%elem_of_empty|?]%load_lines_canonical.
Qed.

Lemma load_existing_canonical skip dir i :
  i ∈ load_existing_metadata_files skip dir → normalize_arxiv_id i = i.
Proof.
  destruct dir as [files|]; [|set_solver].
  unfold load_existing_metadata_files. rewrite load_listing_union.
  intros (X & (file & -> & Hin)%list_elem_of_fmap & Hi)%elem_of_union_list.
  by eapply load_file_canonical.
Qed.

(** *** The account of a whole call *)

Lemma well_keyed_accumulated st : accumulated st → well_keyed (full_content st).
Proof.
  unfold accumulated. intros ->. split.
  - apply keys_foldl_setdefault. constructor.
  - intros [p paper] Hin.
    destruct (foldl_setdefault_appends (@nil (string * pydict))
                (omap entry_record (fetched st))) as (added & Heq & Hsub).
    rewrite Heq in Hin. simpl in Hin.
    apply (sublist_subseteq _ _ Hsub) in Hin.
    apply list_elem_of_omap in Hin as (e & _ & He).
    by apply entry_record_item_id in He as (_ & ? & _).
Qed.

Lemma select_new_well_keyed items known :
  (∀ item, item ∈ items → item_id item = Ok item.1) →
  select_new items known = Ok (filter (λ item, item.1 ∉ known) items).
Proof.
  induction items as [|[paper_id paper_data] items IH]; intros Hids; [done|].
  cbn [select_new].
  change (normalize_arxiv_id_obj _) with (item_id (paper_id, paper_data)).
  rewrite (Hids (paper_id, paper_data)) by left. cbn [fst].
  rewrite IH by (intros item Hin; apply Hids; by right).
  rewrite filter_cons. cbn [fst].
  destruct (decide (paper_id ∈ known)) as [Hknown|Hnew].
  - by rewrite decide_False by (by intros Hnot).
  - by rewrite decide_True by done.
Qed.

Lemma sublist_same_length {A} (l1 l2 : list A) :
  l1 `sublist_of` l2 → (length l2 ≤ length l1)%nat → l1 = l2.
Proof.
  induction 1 as [|x l1 l2 Hsub IH|x l1 l2 Hsub IH]; simpl; intros Hlen.
  - done.
  - f_equal. apply IH. lia.
  - apply sublist_length in Hsub. lia.
Qed.

Lemma filter_ext_in {A} (P Q : A → Prop) `{∀ x, Decision (P x)}
    `{∀ x, Decision (Q x)} (l : list A) :
  (∀ x, x ∈ l → P x ↔ Q x) → filter P l = filter Q l.
Proof.
  induction l as [|x l IH]; intros Hext; [done|].
  rewrite !filter_cons.
  rewrite IH by (intros y Hy; apply Hext; by right).
  destruct (decide (P x)) as [HP|HP], (decide (Q x)) as [HQ|HQ]; try done.
  - destruct HQ. by apply (Hext x); [left|].
  - destruct HP. by apply (Hext x); [left|].
Qed.

Lemma filter_none {A} (P : A → Prop) `{∀ x, Decision (P x)} (l : list A) :
  (∀ x, x ∈ l → ¬ P x) → filter P l = [].
Proof.
  induction l as [|x l IH]; intros Hnone; [done|].
  rewrite filter_cons, decide_False by (apply Hnone; left).
  apply IH. intros y Hy. apply Hnone. by right.
Qed.

Lemma store_lines_app items1 items2 :
  store_lines (items1 ++ items2) = store_lines items1 +:+ store_lines items2.
Proof.
  induction items1 as [|item items1 IH]; [done|].
  rewrite <-app_comm_cons, !store_lines_cons, IH.
  by rewrite app_assoc_str.
Qed.

Lemma with_newline_id content :
  needs_newline content = false → with_newline content = content.
Proof. unfold with_newline. by intros ->. Qed.

Lemma ledger_frame w0 known0 written lost content known count w w' :
  w_dir w' = w_dir w →
  ledger w0 known0 written lost content known count w →
  ledger w0 known0 written lost content known count w'.
Proof.
  intros Hdir Hledger. unfold ledger, store_content, read_file in *.
  by rewrite Hdir.
Qed.

Lemma clean_id_key item : item_id item = Ok item.1 → clean_id item = item.1.
Proof. unfold clean_id. by intros ->. Qed.

Lemma save_page_ledger w0 known0 written lost content added entry_count
    st w st' w' :
  full_content st = content ++ added →
  well_keyed (content ++ added) →
  (length added ≤ entry_count)%nat →
  ledger w0 known0 written lost content (existing_data st)
    (new_papers_count st) w →
  save_page entry_count st w = (st', w') →
  ∃ written' lost',
    ledger w0 known0 written' lost' (content ++ added) (existing_data st')
      (new_papers_count st') w'.
Proof.
  clear urlopen.
  intros Hfc [Hnd Hids] Hlen (Hc & Hother & Hknown & Hndw & Hin & Hle & Hexact).
  unfold save_page. rewrite Hfc.
  set (known := existing_data st) in *.
  set (slice := last_n entry_count (content ++ added)).
  assert (∃ earlier, slice = earlier ++ added ∧ earlier `sublist_of` content)
    as (earlier & Hslice & Hearlier).
  { exists (drop (length content + length added - entry_count) content).
    unfold slice, last_n. rewrite length_app.
    rewrite list.drop_app_le by lia. split; [done|apply sublist_drop]. }
  assert (slice `sublist_of` content ++ added) as Hsub_slice
    by apply sublist_drop.
  rewrite select_new_well_keyed
    by (intros item Hitem; apply Hids;
        by apply (sublist_subseteq _ _ Hsub_slice)).
  set (batch := filter (λ item, item.1 ∉ known) slice).
  assert (batch `sublist_of` content ++ added) as Hsub_batch
    by (etrans; [apply sublist_filter; apply _|done]).
  assert (∀ item, item ∈ batch → item_id item = Ok item.1) as Hids_batch
    by (intros item Hitem; apply Hids;
        by apply (sublist_subseteq _ _ Hsub_batch)).
  assert (clean_id <$> batch = fst <$> batch) as Hclean.
  { apply list_fmap_ext. intros i item Hi. apply clean_id_key, Hids_batch.
    by eapply list_elem_of_lookup_2. }
  assert (NoDup (clean_id <$> batch)) as Hnd_batch.
  { rewrite Hclean.
    apply (sublist_NoDup _ (fst <$> content ++ added));
      [exact Hnd|by apply fmap_sublist]. }
  assert (∀ item, item ∈ batch → clean_id item ∉ known) as Hfresh.
  { intros item Hitem. rewrite (clean_id_key _ (Hids_batch item Hitem)).
    by apply list_elem_of_filter in Hitem as [Hunknown _]. }
  assert (new_records batch known = batch) as Hnew.
  { apply new_records_fresh; [|done..].
    apply Forall_forall. intros item Hitem.
    by rewrite (Hids_batch item Hitem). }
  assert (∀ item, item ∈ written ++ lost →
            clean_id item = item.1 ∧ item ∈ content) as Hwritten.
  { intros item Hitem. destruct (Hin item Hitem) as [_ Hcontent].
    split; [|done]. apply clean_id_key, Hids, elem_of_app. by left. }
  assert (∀ item, item ∈ added → item.1 ∉ clean_id <$> written ++ lost)
    as Hnew_key.
  { intros item Hitem (item' & Heq & Hin')%list_elem_of_fmap.
    destruct (Hwritten item' Hin') as [Hkey Hcontent]. rewrite Hkey in Heq.
    unfold keys in Hnd. rewrite fmap_app in Hnd.
    apply NoDup_app in Hnd as (_ & Hdisj & _).
    apply (Hdisj item'.1); [by apply list_elem_of_fmap_2|].
    rewrite <-Heq. by apply list_elem_of_fmap_2. }
  assert (filter (λ item, item.1 ∉ known) added =
          filter (λ item, item.1 ∉ known0) added) as Hadded.
  { apply filter_ext_in. intros item Hitem. rewrite Hknown.
    specialize (Hnew_key item Hitem). set_solver. }
  assert ((∀ k, disk_ok k = true) →
          batch = filter (λ item, item.1 ∉ known0) added) as Hbatch.
  { intros Hgood. destruct (Hexact Hgood) as (Hlost & _ & Hw & _).
    unfold batch. rewrite Hslice, filter_app, Hadded.
    rewrite filter_none; [done|].
    intros item Hitem Hunknown. apply Hunknown. rewrite Hknown.
    destruct (decide (item.1 ∈ known0)) as [|Hnot]; [set_solver|].
    apply (sublist_subseteq _ _ Hearlier) in Hitem.
    assert (item ∈ written ++ lost) as Hw'
      by (apply elem_of_app; left; rewrite Hw; by apply list_elem_of_filter).
    apply elem_of_union_r, elem_of_list_to_set.
    destruct (Hwritten item Hw') as [<- _]. by apply list_elem_of_fmap_2. }
  assert (∀ item, item ∈ written ++ lost →
            (clean_id item ∉ known0) ∧ item ∈ content ++ added) as Hin_old.
  { intros item Hitem. destruct (Hin item Hitem).
    split; [done|]. apply elem_of_app. by left. }
  assert (∀ item, item ∈ batch →
            (clean_id item ∉ known0) ∧ item ∈ content ++ added) as Hin_new.
  { intros item Hitem. split.
    - intros Hk0. apply (Hfresh item Hitem). rewrite Hknown. set_solver.
    - by apply (sublist_subseteq _ _ Hsub_batch). }
  assert (NoDup (clean_id <$> (written ++ lost) ++ batch)) as Hnd_all.
  { rewrite fmap_app. apply NoDup_app. split_and!; [done| |done].
    intros i Hi (item & -> & Hitem)%list_elem_of_fmap.
    apply (Hfresh item Hitem). rewrite Hknown.
    by apply elem_of_union_r, elem_of_list_to_set. }
  destruct (0 <? length batch)%nat eqn:Hsize.
  2: { intros [= <- <-]. exists written, lost.
       split_and!; [done..|].
       intros Hgood. destruct (Hexact Hgood) as (Hlost & Hcount & Hw & Hkept).
       split_and!; [done|done| |done].
       rewrite filter_app, <-Hw, <-(Hbatch Hgood).
       apply Nat.ltb_ge in Hsize.
       destruct batch; [by rewrite app_nil_r|simpl in Hsize; lia]. }
  assert (batch ≠ []) as Hne
    by (intros Hnil; by rewrite Hnil in Hsize).
  destruct (save_metadata_files _ _ _ _) as [[r known'] w1] eqn:Hsave.
  destruct (save_metadata_files_spec _ _ _ _ _ _ _ Hsave)
    as [(Hn & Hfail & -> & -> & Hc1 & _ & Hsame)
       |(_ & Hk' & _ & Hsame & looped & Hloop & Hout)].
  { intros [= <- <-]. exists written, lost. simpl.
    fold known. rewrite Z.add_0_r.
    split_and!; [by rewrite Hc1| |done..|].
    - intros name Hname. destruct Hsame as (_ & _ & Hs).
      rewrite Hs by done. by apply Hother.
    - intros Hgood. by rewrite Hgood in Hfail. }
  destruct (save_items_spec _ _ _ _ _ _ _ Hloop)
    as (_ & _ & _ & _ & _ & _ & Hr).
  rewrite Hnew in *.
  assert (looped = Ok (length batch)) as ->.
  { destruct looped as [n'|e]; [by destruct Hr as [-> _]|].
    destruct Hr as (item & Hitem & Hraise).
    by rewrite (Hids_batch item Hitem) in Hraise. }
  assert (∀ name, name ≠ arxiv_file → read_file name w1 = read_file name w0)
    as Hother1.
  { intros name Hname. destruct Hsame as (_ & _ & H1).
    rewrite H1 by done. by apply Hother. }
  destruct Hout as [(_ & _ & Hcont & ->)|(_ & Hbad & _ & Hcont & ->)];
    intros [= <- <-]; simpl.
  - exists (written ++ batch), lost.
    apply (ledger_frame _ _ _ _ _ _ _ w1); [done|].
    split_and!.
    + right. rewrite Hcont, store_lines_app.
      destruct Hc as [[-> ->]| ->]; [done|].
      rewrite with_newline_id by apply needs_newline_saved.
      by rewrite app_assoc_str.
    + done.
    + rewrite Hk', Hknown, !fmap_app, !list_to_set_app_L.
      apply set_eq. intros i. rewrite !elem_of_union. tauto.
    + rewrite <-app_assoc, (Permutation_app_comm batch lost), app_assoc.
      done.
    + intros item [[Hitem|Hitem]%elem_of_app|Hitem]%elem_of_app.
      * apply Hin_old, elem_of_app. by left.
      * by apply Hin_new.
      * apply Hin_old, elem_of_app. by right.
    + rewrite length_app, Nat2Z.inj_add. lia.
    + intros Hgood. destruct (Hexact Hgood) as (Hlost & Hcount & Hw & _).
      split_and!; [done|rewrite length_app; lia| |].
      * by rewrite filter_app, <-Hw, <-(Hbatch Hgood).
      * by intros [_ Hnil]%app_eq_nil.
  - exists written, (lost ++ batch). rewrite Z.add_0_r.
    split_and!.
    + right. rewrite Hcont.
      destruct Hc as [[-> ->]| ->]; [by rewrite app_empty_r|].
      by rewrite with_newline_id by apply needs_newline_saved.
    + done.
    + rewrite Hk', Hknown, !fmap_app, !list_to_set_app_L.
      apply set_eq. intros i. rewrite !elem_of_union. tauto.
    + by rewrite app_assoc.
    + rewrite app_assoc. intros item [Hitem|Hitem]%elem_of_app.
      * by apply Hin_old.
      * by apply Hin_new.
    + done.
    + intros Hgood. by rewrite Hgood in Hbad.
Qed.

Lemma ledger_start w known :
  ledger w known [] [] [] known 0 w.
Proof.
  clear json_loads urlopen.
  split_and!; try done.
  - by left.
  - set_solver.
  - constructor.
  - by intros item ?%elem_of_nil.
Qed.

Lemma page_step_ledger w0 known0 written lost target st w c st' w' :
  accumulated st →
  ledger w0 known0 written lost (full_content st) (existing_data st)
    (new_papers_count st) w →
  page_step target st w = (c, st', w') →
  ∃ written' lost',
    ledger w0 known0 written' lost' (full_content st') (existing_data st')
      (new_papers_count st') w'.
Proof.
  intros Hacc Hledger Hstep.
  pose proof (page_step_accumulated _ _ _ _ _ _ Hacc Hstep) as Hacc'.
  apply well_keyed_accumulated in Hacc'.
  revert Hstep Hacc'. unfold page_step, request_page.
  pose proof (retry_loop_dir (Z.to_nat max_retries) 0 (start st)
                (page_max target st) (sleep 5 w)) as Hdir.
  destruct (retry_loop _ _ _ _ _) as [[[entries|]|e] w1]; simpl in Hdir.
  - rewrite process_entries_spec.
    destruct (foldl_setdefault_appends (full_content st)
                (omap entry_record entries)) as (added & -> & Hsub).
    pose proof (sublist_length _ _ Hsub) as Hlen.
    pose proof (length_entry_records entries) as Hlen'.
    apply (ledger_frame _ _ _ _ _ _ _ _ w1) in Hledger; [|done].
    destruct (length (real_entries entries) =? 0)%nat eqn:Hzero.
    + apply Nat.eqb_eq in Hzero.
      destruct added; [|simpl in Hlen; lia]. rewrite app_nil_r.
      destruct (max_empty_pages <=? _); intros [= <- <- <-] _;
        by exists written, lost.
    + set (st1 := State _ _ _ _ _ _).
      destruct (save_page _ st1 w1) as [st2 w2] eqn:Hsave.
      destruct (save_page_frame (length (real_entries entries)) st1 w1)
        as (_ & _ & Hf & _).
      rewrite Hsave in Hf. simpl in Hf. intros [= <- <- <-] Hkeyed.
      rewrite Hf in Hkeyed |- *.
      apply (save_page_ledger w0 known0 written lost (full_content st) added
               (length (real_entries entries)) st1 w1 st2 w2);
        [done|done|lia|done|done].
  - intros [= <- <- <-] _. exists written, lost.
    by apply (ledger_frame _ _ _ _ _ _ _ w).
  - apply (ledger_frame _ _ _ _ _ _ _ _ w1) in Hledger; [|done].
    destruct e; try (intros [= <- <- <-] _; by exists written, lost).
    destruct (code =? 503); intros [= <- <- <-] _; exists written, lost;
      [|done].
    by apply (ledger_frame _ _ _ _ _ _ _ w1).
Qed.

Lemma fetch_loop_ledger w0 known0 fuel target :
  ∀ written lost st w st' w',
    accumulated st →
    ledger w0 known0 written lost (full_content st) (existing_data st)
      (new_papers_count st) w →
    fetch_loop fuel target st w = Some (st', w') →
    ∃ written' lost',
      ledger w0 known0 written' lost' (full_content st') (existing_data st')
        (new_papers_count st') w'.
Proof.
  induction fuel as [|fuel IH]; intros written lost st w st' w' Hacc Hledger;
    simpl.
  - destruct (loop_test target st); [done|]. intros [= <- <-]. eauto.
  - destruct (loop_test target st); [|intros [= <- <-]; eauto].
    destruct (page_step target st w) as [[c st1] w1] eqn:Hstep.
    pose proof (page_step_accumulated _ _ _ _ _ _ Hacc Hstep) as Hacc1.
    destruct (page_step_ledger _ _ _ _ _ _ _ _ _ _ Hacc Hledger Hstep)
      as (written1 & lost1 & Hledger1).
    destruct c; [by eapply IH|intros [= <- <-]; eauto].
Qed.

Lemma get_daily_papers_ledger fuel max_results start_date end_date w r st w' :
  get_daily_papers fuel max_results start_date end_date w = Some (r, st, w') →
  r = Ok (full_content st, new_papers_count st) ∧
  well_keyed (full_content st) ∧
  ∃ written lost,
    ledger w (load_existing_metadata_files false (w_dir w)) written lost
      (full_content st) (existing_data st) (new_papers_count st) w'.
Proof.
  unfold get_daily_papers.
  set (known := load_existing_metadata_files false (w_dir w)).
  destruct (fetch_loop fuel _ _ w) as [[st1 w1]|] eqn:Hloop; [|done].
  intros [= <- <- <-]. split; [done|].
  split.
  - apply well_keyed_accumulated.
    by eapply fetch_loop_accumulated in Hloop.
  - eapply fetch_loop_ledger in Hloop; [done|done|apply ledger_start].
Qed.

Lemma clean_id_canonical item : normalize_arxiv_id (clean_id item) = clean_id item.
Proof.
  unfold clean_id, item_id.
  destruct (normalize_arxiv_id_obj _) as [c|] eqn:Hc; [|done].
  by eapply normalize_obj_canonical.
Qed.

Lemma fixed_no_version i :
  normalize_arxiv_id i = i →
  Py.contains "v" i = false ∧ Py.contains "/abs/" i = false.
Proof. intros <-. apply normalize_clean. Qed.

(** X16: every ID of the Known-ID Set is in canonical form, with no
    ['v'] and no ["/abs/"] in it and left as it is by the normalizer:
    this holds for the set the loader returns, whatever the files hold,
    and for the set a call of [get_daily_papers] ends with. *)
Theorem known_ids_canonical :
  (∀ skip dir i,
     i ∈ load_existing_metadata_files skip dir →
     normalize_arxiv_id i = i ∧
     Py.contains "v" i = false ∧ Py.contains "/abs/" i = false) ∧
  (∀ fuel max_results start_date end_date w r st w' i,
     get_daily_papers fuel max_results start_date end_date w =
       Some (r, st, w') →
     i ∈ existing_data st →
     normalize_arxiv_id i = i ∧
     Py.contains "v" i = false ∧ Py.contains "/abs/" i = false).
Proof.
  split.
  - intros skip dir i Hi%load_existing_canonical.
    split; [done|by apply fixed_no_version].
  - intros fuel max_results start_date end_date w r st w' i Hcall Hi.
    apply get_daily_papers_ledger in Hcall
      as (_ & _ & written & lost & _ & _ & Hknown & _).
    rewrite Hknown in Hi.
    assert (normalize_arxiv_id i = i) as Hfix;
      [|split; [done|by apply fixed_no_version]].
    apply elem_of_union in Hi as [Hi|Hi].
    + by eapply load_existing_canonical.
    + apply elem_of_list_to_set, list_elem_of_fmap in Hi as (item & -> & _).
      apply clean_id_canonical.
Qed.

Lemma with_newline_appends content :
  ∃ fix_up, with_newline content = content +:+ fix_up.
Proof.
  unfold with_newline. destruct (needs_newline content).
  - by eexists.
  - exists "". by rewrite app_empty_r.
Qed.

(** X17: a call of [get_daily_papers] only appends to the store file of
    the current period: what the file held stays at its start, no other
    file of the directory is created, changed or removed, and the
    Known-ID Set keeps every ID the loader gave. *)
Theorem call_appends_only fuel max_results start_date end_date w r st w' :
  get_daily_papers fuel max_results start_date end_date w = Some (r, st, w') →
  (∃ appended, store_content w' = store_content w +:+ appended) ∧
  (∀ name, name ≠ arxiv_file → read_file name w' = read_file name w) ∧
  load_existing_metadata_files false (w_dir w) ⊆ existing_data st.
Proof.
  intros (_ & _ & written & lost & Hc & Hother & Hknown & _)
    %get_daily_papers_ledger.
  split_and!; [|done|set_solver].
  destruct Hc as [[_ ->]| ->].
  - exists "". by rewrite app_empty_r.
  - destruct (with_newline_appends (store_content w)) as [fix_up ->].
    eexists. by rewrite app_assoc_str.
Qed.

Lemma written_keys content (written : list (string * pydict)) :
  well_keyed content → (∀ item, item ∈ written → item ∈ content) →
  clean_id <$> written = fst <$> written.
Proof.
  intros [_ Hids] Hin. apply list_fmap_ext. intros i item Hi.
  apply clean_id_key, Hids, Hin. by eapply list_elem_of_lookup_2.
Qed.


(** X19: when no write fails, a call appends exactly the records of its
    output whose key was not in the set the loader gave, in the order of
    the output, one line each; the number of new papers it reports is
    their number, and the Known-ID Set ends as the loaded set together
    with their keys.  When there is none, the file is left as it was. *)
Theorem faultless_call_writes_new_records fuel max_results start_date
    end_date w content n st w' :
  (∀ k, disk_ok k = true) →
  get_daily_papers fuel max_results start_date end_date w =
    Some (Ok (content, n), st, w') →
  let known := load_existing_metadata_files false (w_dir w) in
  let written := filter (λ item, item.1 ∉ known) content in
  n = Z.of_nat (length written) ∧
  existing_data st = known ∪ list_to_set (fst <$> written) ∧
  store_content w' =
    match written with
    | [] => store_content w
    | _ => with_newline (store_content w) +:+ store_lines written
    end.
Proof.
  intros Hgood Hcall.
  apply get_daily_papers_ledger in Hcall
    as (Hr & Hkeyed & written & lost & Hc & _ & Hknown & _ & Hin & _ & Hexact).
  injection Hr as -> ->. destruct (Hexact Hgood) as (-> & Hn & Hw & Hkept).
  rewrite app_nil_r in Hknown, Hin.
  assert (clean_id <$> written = fst <$> written) as Hkeys
    by (eapply written_keys; [done|]; intros item Hitem; by apply Hin).
  cbv zeta. rewrite <-Hw, <-Hkeys. split_and!; [done..|].
  destruct written as [|item written]; [by apply Hkept|].
  by destruct Hc as [[? _]| ->].
Qed.

(** *** Whether a call returns *)

Lemma retry_loop_status fuel :
  ∀ retry_count page_start page_max w code w',
    retry_loop fuel retry_count page_start page_max w =
      (Raise (HTTPError code), w') →
    ∃ n, urlopen n page_start page_max = HttpFailure code.
Proof.
  induction fuel as [|fuel IH]; intros retry_count page_start page_max w code w';
    simpl; [done|].
  destruct (retry_count <? max_retries); [|done].
  destruct (urlopen (w_requests w) page_start page_max) as [body|code'|]
    eqn:Hanswer; [done| |].
  - destruct (code' =? 503).
    + destruct (retry_count + 1 <? max_retries); [apply IH|].
      intros [= <- <-]. eauto.
    + intros [= <- <-]. eauto.
  - destruct (retry_count + 1 <? max_retries); [apply IH|done].
Qed.

Lemma page_step_advances target st w st' w' :
  (∀ n s m, urlopen n s m ≠ HttpFailure 503) →
  page_step target st w = (Continue, st', w') →
  start st' = start st + 100.
Proof.
  intros Hup. unfold page_step, request_page.
  destruct (retry_loop _ _ _ _ _) as [[[entries|]|e] w1] eqn:Hretry.
  - destruct (process_entries _ _) as [entry_count content].
    destruct (entry_count =? 0)%nat.
    + destruct (max_empty_pages <=? _); [done|]. by intros [= <- <-].
    + set (st1 := State _ _ _ _ _ _).
      destruct (save_page_frame entry_count st1 w1) as (Hs & _).
      destruct (save_page entry_count st1 w1) as [st2 w2].
      intros [= <- <-]. simpl in Hs. by rewrite Hs.
  - done.
  - destruct e; try done.
    destruct (code =? 503) eqn:Hcode; [|done].
    apply Z.eqb_eq in Hcode as ->.
    apply retry_loop_status in Hretry as [n Hn]. by apply Hup in Hn.
Qed.

Lemma fetch_loop_returns fuel :
  ∀ target st w,
    (∀ n s m, urlopen n s m ≠ HttpFailure 503) →
    target - start st ≤ 100 * Z.of_nat fuel →
    is_Some (fetch_loop fuel (Some target) st w).
Proof.
  induction fuel as [|fuel IH]; intros target st w Hup Hfuel; simpl.
  - unfold loop_test.
    destruct (start st <? target) eqn:Hlt; [apply Z.ltb_lt in Hlt; lia|].
    by eexists.
  - destruct (loop_test (Some target) st); [|by eexists].
    destruct (page_step (Some target) st w) as [[[] st1] w1] eqn:Hstep;
      [|by eexists].
    apply IH; [done|].
    apply page_step_advances in Hstep; [|done]. lia.
Qed.

(** X20: a call with a bound on the number of results returns, whatever
    the server and the disk do, as long as no request is answered with
    status 503: the page loop ends within one round per hundred results
    asked for. *)
Theorem bounded_call_returns fuel max_results start_date end_date w :
  (∀ n s m, urlopen n s m ≠ HttpFailure 503) →
  nonempty start_date && nonempty end_date && (max_results =? 100) = false →
  max_results ≤ 100 * Z.of_nat fuel →
  ∃ content n st w',
    get_daily_papers fuel max_results start_date end_date w =
      Some (Ok (content, n), st, w').
Proof.
  intros Hup Hmode Hfuel. unfold get_daily_papers. rewrite Hmode.
  destruct (fetch_loop_returns fuel max_results
              (State 0 0 [] (load_existing_metadata_files false (w_dir w)) 0 [])
              w Hup) as [[st w'] ->]; [simpl; lia|].
  by eexists _, _, _, _.
Qed.

Lemma fetch_loop_unavailable fuel :
  ∀ target st w,
    (∀ n s m, urlopen n s m = HttpFailure 503) →
    loop_test target st = true →
    fetch_loop fuel target st w = None.
Proof.
  induction fuel as [|fuel IH]; intros target st w Hdown Htest; simpl;
    rewrite Htest; [done|].
  unfold page_step.
  rewrite (request_page_exhausted (HttpFailure 503) 10 (HTTPError 503))
    by (by constructor || by intros; apply Hdown).
  simpl. by apply IH.
Qed.

(** X21: while the server answers every request with status 503, a call
    that asks for at least one result never returns: every round of the
    page loop uses up its five attempts and starts over with the same
    page, so no number of rounds is enough. *)
Theorem unavailable_server_never_returns fuel max_results start_date
    end_date w :
  (∀ n s m, urlopen n s m = HttpFailure 503) →
  0 < max_results →
  get_daily_papers fuel max_results start_date end_date w = None.
Proof.
  intros Hdown Hpos. unfold get_daily_papers.
  rewrite fetch_loop_unavailable; [done|done|].
  unfold loop_test. simpl.
  destruct (nonempty start_date && nonempty end_date && (max_results =? 100));
    [done|].
  apply andb_true_iff. split; [by apply Z.ltb_lt|done].
Qed.

(** *** File names and periods *)

Lemma drop_app_length_plus pre s k :
  Py.drop (String.length pre + k) (pre +:+ s) = Py.drop k s.
Proof. induction pre as [|c pre IH]; [done|]. by rewrite app_cons_str. Qed.

Lemma endswith_app_pre suf pre s :
  (String.length suf ≤ String.length s)%nat →
  PyStr.endswith suf (pre +:+ s) = PyStr.endswith suf s.
Proof.
  intros Hlen. unfold PyStr.endswith. rewrite length_app_str.
  replace (String.length pre + String.length s - String.length suf)%nat
    with (String.length pre + (String.length s - String.length suf))%nat
    by lia.
  rewrite drop_app_length_plus. f_equal.
  transitivity true; [|symmetry]; apply Nat.leb_le; lia.
Qed.

Lemma match_end_app pre s :
  (39 ≤ String.length s)%nat → match_end (pre +:+ s) = match_end s.
Proof.
  intros Hlen. unfold match_end.
  rewrite !endswith_app_pre by (simpl; lia).
  rewrite length_app_str.
  replace (String.length pre + String.length s - 39)%nat
    with (String.length pre + (String.length s - 39))%nat by lia.
  rewrite drop_app_length_plus.
  replace (39 <=? String.length pre + String.length s)%nat
    with (39 <=? String.length s)%nat; [done|].
  transitivity true; [|symmetry]; apply Nat.leb_le; lia.
Qed.

Lemma match_end_store_name p : period p → match_end (store_name p) = Some (Some p).
Proof.
  intros [Hlen Hd].
  destruct p as [|a1 [|a2 [|a3 [|a4 [|a5 [|a6 [|]]]]]]]; try discriminate.
  unfold match_end, store_name.
  cbv -[Py.is_digit andb] in Hd |- *.
  cbv -[Py.is_digit] in Hd |- *.
  rewrite Hd. done.
Qed.

Lemma length_store_name p : period p → String.length (store_name p) = 39%nat.
Proof.
  intros [Hlen _]. unfold store_name. rewrite !length_app_str, Hlen. done.
Qed.

(** X22: the pattern is looked for at the end of the file name only:
    any name that ends with the name of a store file of a period is
    taken as a file of that period, and any name that ends with the
    name without a period as a file without one. *)
Theorem arxiv_match_not_anchored (pre : string) :
  (∀ p, period p → arxiv_match (pre +:+ store_name p) = Some (Some p)) ∧
  arxiv_match (pre +:+ "arxiv-metadata-oai-snapshot.json") = Some None.
Proof.
  split.
  - intros p Hp. unfold arxiv_match.
    rewrite match_end_app by (rewrite length_store_name; [lia|done]).
    by rewrite match_end_store_name.
  - unfold arxiv_match, match_end.
    by rewrite endswith_app_pre by (simpl; lia).
Qed.

Lemma length_take_le n s :
  (n ≤ String.length s)%nat → String.length (Py.take n s) = n.
Proof.
  revert s. induction n as [|n IH]; intros [|c s]; simpl; try done; try lia.
  intros Hlen. rewrite IH; lia.
Qed.

Lemma match_end_period s p : match_end s = Some (Some p) → period p.
Proof.
  unfold match_end.
  destruct (PyStr.endswith "arxiv-metadata-oai-snapshot.json" s); [done|].
  destruct (PyStr.endswith ".json" s); [|done].
  destruct (39 <=? String.length s)%nat eqn:Hlen; [|done].
  apply Nat.leb_le in Hlen. cbn [andb].
  destruct (Py.startswith _ _); [|done]. cbn [andb].
  destruct (Py.all_digits _) eqn:Hd; [|done].
  intros Heq.
  assert (p = Py.take 6 (Py.drop 28 (Py.drop (String.length s - 39) s)))
    as -> by congruence.
  split; [|done].
  apply length_take_le. rewrite !length_drop. lia.
Qed.

(** X23: the period the pattern takes out of a file name is always six
    decimal digits. *)
Theorem arxiv_match_period (filename p : string) :
  arxiv_match filename = Some (Some p) → period p.
Proof.
  unfold arxiv_match.
  destruct (match_end filename) as [g|] eqn:Hm.
  - intros [= ->]. by eapply match_end_period.
  - destruct (PyStr.endswith PyStr.newline filename); [|done].
    apply match_end_period.
Qed.

Lemma digit_bounds c : Py.is_digit c = true → 0 ≤ digit_value c ≤ 9.
Proof.
  destruct c as [[] [] [] [] [] [] [] []]; try discriminate;
    intros _; vm_compute; split; discriminate.
Qed.

Lemma ascii_compare_digit c1 c2 :
  Ascii.compare c1 c2 = (digit_value c1 ?= digit_value c2).
Proof.
  unfold Ascii.compare, digit_value.
  rewrite <-N2Z.inj_compare.
  destruct (Z.compare_spec (Z.of_N (N_of_ascii c1)) (Z.of_N (N_of_ascii c2)));
    symmetry;
    [apply Z.compare_eq_iff|apply Z.compare_lt_iff|apply Z.compare_gt_iff];
    lia.
Qed.

Lemma number_from_shift s :
  ∀ acc,
    number_from acc s =
    acc * 10 ^ Z.of_nat (String.length s) + number_from 0 s.
Proof.
  induction s as [|c s IH]; intros acc; simpl String.length.
  - simpl. lia.
  - cbn [number_from]. rewrite IH, (IH (10 * 0 + digit_value c)).
    rewrite Nat2Z.inj_succ, Z.pow_succ_r by lia. lia.
Qed.

Lemma number_bounds s :
  Py.all_digits s = true →
  0 ≤ number_from 0 s < 10 ^ Z.of_nat (String.length s).
Proof.
  induction s as [|c s IH]; [simpl; lia|].
  cbn [Py.all_digits]. intros [Hc Hs]%andb_true_iff.
  apply digit_bounds in Hc. specialize (IH Hs).
  cbn [number_from]. rewrite number_from_shift.
  simpl String.length. rewrite Nat2Z.inj_succ, Z.pow_succ_r by lia.
  nia.
Qed.

Lemma compare_digits s :
  ∀ t,
    String.length s = String.length t →
    Py.all_digits s = true → Py.all_digits t = true →
    String.compare s t = (number_from 0 s ?= number_from 0 t).
Proof.
  induction s as [|c1 s IH]; intros [|c2 t]; try done.
  simpl String.length. intros [= Hlen].
  cbn [Py.all_digits]. intros [Hc1 Hs]%andb_true_iff [Hc2 Ht]%andb_true_iff.
  apply digit_bounds in Hc1, Hc2.
  pose proof (number_bounds s Hs) as Hbs.
  pose proof (number_bounds t Ht) as Hbt.
  cbn [String.compare number_from].
  rewrite (number_from_shift s), (number_from_shift t), <-Hlen.
  rewrite ascii_compare_digit, !Z.mul_0_r, !Z.add_0_l.
  set (P := 10 ^ Z.of_nat (String.length s)) in *.
  rewrite <-Hlen in Hbt. fold P in Hbt.
  destruct (Z.compare_spec (digit_value c1) (digit_value c2)) as [Heq|Hlt|Hgt].
  - rewrite Heq, IH by done. symmetry. apply Z.add_compare_mono_l.
  - symmetry. apply Z.compare_lt_iff. nia.
  - symmetry. apply Z.compare_gt_iff. nia.
Qed.

(** X24: on periods, the comparison of strings the loader uses to leave
    out later files is the comparison of the numbers they spell. *)
Theorem period_order (p q : string) :
  period p → period q →
  String.leb p q = (period_number p <=? period_number q).
Proof.
  intros [Hlp Hdp] [Hlq Hdq]. unfold String.leb, Z.leb, period_number.
  by rewrite compare_digits by congruence.
Qed.

(** *** Author names in parts *)

Lemma rev_app_nonempty s acc : acc ≠ "" → String.rev_app s acc ≠ "".
Proof.
  revert acc. induction s as [|c s IH]; intros acc Hacc; [done|].
  simpl. by apply IH.
Qed.

Lemma words_go_nonempty s :
  ∀ cur, cur ≠ Some "" → Forall (λ word, word ≠ "") (PyStr.words_go cur s).
Proof.
  assert (∀ cur, cur ≠ Some "" →
            Forall (λ word, word ≠ "") (option_list (String.rev <$> cur)))
    as Hcur.
  { intros [[|c cur]|] Hne; [done| |constructor].
    repeat constructor. unfold String.rev. simpl.
    by apply rev_app_nonempty. }
  induction s as [|c s IH]; intros cur Hne; simpl; [by apply Hcur|].
  destruct (PyStr.is_space c).
  - apply Forall_app. split; [by apply Hcur|by apply IH].
  - by apply IH.
Qed.

Lemma words_nonempty s : Forall (λ word, word ≠ "") (PyStr.words s).
Proof. by apply words_go_nonempty. Qed.

Lemma join_snoc sep (l : list string) x :
  l ≠ [] → PyStr.join sep (l ++ [x]) = PyStr.join sep l +:+ sep +:+ x.
Proof.
  induction l as [|y l IH]; [done|]. intros _.
  destruct l as [|z l]; [done|].
  change (PyStr.join sep ((y :: z :: l) ++ [x]))
    with (y +:+ sep +:+ PyStr.join sep ((z :: l) ++ [x])).
  rewrite IH by done.
  change (PyStr.join sep (y :: z :: l))
    with (y +:+ sep +:+ PyStr.join sep (z :: l)).
  by rewrite !app_assoc_str.
Qed.

Lemma join_nonempty sep (l : list string) :
  l ≠ [] → Forall (λ word, word ≠ "") l → Py.is_empty (PyStr.join sep l) = false.
Proof.
  destruct l as [|[|c x] l]; [done|..]; intros _ Hall.
  - by apply Forall_cons in Hall as [? _].
  - by destruct l.
Qed.

(** X25: a name of two or more words is split without loss: the first
    word, the words between joined by single blanks, and the last word
    spell the name again, with each run of white space as one blank; a
    name of fewer words is kept whole as the last name. *)
Theorem parse_author_round_trip (name : string) :
  ((2 ≤ length (PyStr.words name))%nat →
   ∃ last first middle,
     parse_author name = JArr [JStr last; JStr first; JStr middle] ∧
     PyStr.join " " (PyStr.words name) =
       first +:+ " " +:+
       (if Py.is_empty middle then "" else middle +:+ " ") +:+ last) ∧
  ((length (PyStr.words name) < 2)%nat →
   parse_author name = JArr [JStr name; JStr ""; JStr ""]).
Proof.
  unfold parse_author. pose proof (words_nonempty name) as Hwords.
  destruct (PyStr.words name) as [|first rest] eqn:Hw.
  { split; [simpl; lia|done]. }
  destruct rest as [|second rest].
  { split; [simpl; lia|done]. }
  split; [intros _|simpl; lia].
  assert (second :: rest =
          removelast (second :: rest) ++ [List.last (second :: rest) ""])
    as Hsplit by (by apply app_removelast_last).
  set (middle := removelast (second :: rest)) in *.
  set (last := List.last (second :: rest) "") in *.
  change (2 <=? length (first :: second :: rest))%nat with true. cbv iota.
  change (List.last (first :: second :: rest) "") with last.
  change (List.tl (first :: second :: rest)) with (second :: rest).
  fold middle. cbn [head default].
  eexists _, _, _. split; [done|]. unfold id.
  assert (length (second :: rest) = length (middle ++ [last])) as Hlen
    by (by rewrite <-Hsplit).
  rewrite length_app in Hlen. simpl in Hlen.
  change (PyStr.join " " (first :: second :: rest))
    with (first +:+ " " +:+ PyStr.join " " (second :: rest)).
  rewrite Hsplit.
  apply Forall_cons in Hwords as [_ Hwords]. rewrite Hsplit in Hwords.
  apply Forall_app in Hwords as [Hwords _].
  clearbody middle last. clear Hsplit Hlen.
  destruct middle as [|word middle].
  - simpl. by rewrite app_nil_str.
  - assert ((2 <? length (first :: (word :: middle) ++ [last]))%nat = true)
      as -> by (apply Nat.ltb_lt; simpl; rewrite length_app; simpl; lia).
    rewrite join_nonempty by done.
    rewrite join_snoc by done. by rewrite !app_assoc_str.
Qed.

(** *** The category statistic *)

Lemma take_drop_str n s : Py.take n s +:+ Py.drop n s = s.
Proof.
  revert s. induction n as [|n IH]; intros [|c s]; try done.
  simpl. rewrite app_cons_str. by rewrite IH.
Qed.

Lemma first_piece_find sep s :
  sep ≠ "" →
  first_piece sep s =
  match Py.find sep s with Some i => Py.take i s | None => s end.
Proof.
  intros Hsep. unfold first_piece, Py.split.
  destruct (Py.find sep s) as [i|] eqn:Hfind.
  - destruct s as [|c s].
    + unfold Py.find in Hfind.
      by rewrite startswith_nonempty_nil in Hfind.
    + cbn [String.length Py.split_aux]. by rewrite Hfind.
  - by rewrite split_aux_None.
Qed.

Lemma first_piece_free sep s :
  sep ≠ "" → Py.contains sep (first_piece sep s) = false.
Proof.
  intros Hsep. rewrite first_piece_find by done.
  destruct (Py.find sep s) as [i|] eqn:Hfind.
  - by apply contains_take_find.
  - by apply find_None_contains.
Qed.

Lemma first_piece_prefix sep s :
  sep ≠ "" → ∃ rest, s = first_piece sep s +:+ rest.
Proof.
  intros Hsep. rewrite first_piece_find by done.
  destruct (Py.find sep s) as [i|].
  - exists (Py.drop i s). by rewrite take_drop_str.
  - exists "". by rewrite app_empty_r.
Qed.

Lemma contains_prefix sub s rest :
  Py.contains sub (s +:+ rest) = false → Py.contains sub s = false.
Proof.
  intros Hfree. destruct (Py.contains sub s) eqn:Hs; [|done].
  rewrite <-(take_length_app s rest) in Hs.
  apply contains_take in Hs. by rewrite Hs in Hfree.
Qed.

Lemma main_category_free category :
  Py.contains "." (main_category category) = false.
Proof.
  unfold main_category.
  destruct (Py.contains "." category) eqn:Hdot; [by apply first_piece_free|].
  destruct (Py.contains "/" category); [|done].
  destruct (first_piece_prefix "/" category) as [rest Hrest]; [done|].
  rewrite Hrest in Hdot. by eapply contains_prefix.
Qed.

(** X26: the main category a tag is counted under is the start of the
    tag, holds no dot, and, for a tag without a dot, no slash either; a
    tag with neither is its own main category. *)
Theorem main_category_spec (category : string) :
  (∃ rest, category = main_category category +:+ rest) ∧
  Py.contains "." (main_category category) = false ∧
  (Py.contains "." category = false →
   Py.contains "/" (main_category category) = false ∧
   (Py.contains "/" category = false → main_category category = category)).
Proof.
  split_and!.
  - unfold main_category.
    destruct (Py.contains "." category); [by apply first_piece_prefix|].
    destruct (Py.contains "/" category); [by apply first_piece_prefix|].
    exists "". by rewrite app_empty_r.
  - apply main_category_free.
  - intros Hdot. unfold main_category. rewrite Hdot.
    destruct (Py.contains "/" category) eqn:Hslash; [|done].
    split; [by apply first_piece_free|done].
Qed.

Lemma count_category_lookup counts tag k :
  default 0 (count_category counts tag !! k) =
  default 0 (counts !! k) + (if decide (main_category tag = k) then 1 else 0).
Proof.
  unfold count_category. destruct (decide (main_category tag = k)) as [->|Hne].
  - by rewrite lookup_insert_eq.
  - rewrite lookup_insert_ne by done. lia.
Qed.

Lemma foldl_count_category tags :
  ∀ counts k,
    default 0 (foldl count_category counts tags !! k) =
    default 0 (counts !! k) +
    Z.of_nat (length (filter (λ tag, main_category tag = k) tags)).
Proof.
  induction tags as [|tag tags IH]; intros counts k; simpl; [lia|].
  rewrite IH, count_category_lookup, filter_cons.
  destruct (decide (main_category tag = k)); simpl length; lia.
Qed.

Lemma tally_tags_strings tags :
  ∀ counts, tally_tags counts (JStr <$> tags) = Ok (foldl count_category counts tags).
Proof. induction tags as [|tag tags IH]; intros counts; [done|]. apply IH. Qed.

Lemma tally_tags_raises categories :
  ∀ counts (v : json),
    v ∈ categories → (∀ s, v ≠ JStr s) →
    is_raise (tally_tags counts categories) = true.
Proof.
  induction categories as [|category categories IH]; intros counts v Hin Hv.
  - by apply elem_of_nil in Hin.
  - simpl. apply elem_of_cons in Hin as [<-|Hin].
    + destruct v as [|b|z|s|l|d]; try done.
      * by destruct (Hv s).
      * simpl. by destruct (_ || _).
      * simpl. by destruct (_ || _).
    + destruct (tally_tag counts category); [by eapply IH|done].
Qed.

(** X27: from a record whose ['categories'] is a list of strings, each
    main category gains as many counts as tags of the record fall under
    it; a record without ['categories'] counts nothing; and a tag that
    is not a string makes the tally fail. *)
Theorem tally_record_counts (counts : gmap string Z) (d : pydict) :
  (∀ tags,
     dict_get "categories" d = Some (JArr (JStr <$> tags)) →
     ∃ counts',
       tally_record counts (JObj d) = Ok counts' ∧
       ∀ k, default 0 (counts' !! k) =
            default 0 (counts !! k) +
            Z.of_nat (length (filter (λ tag, main_category tag = k) tags))) ∧
  (dict_get "categories" d = None → tally_record counts (JObj d) = Ok counts) ∧
  (∀ categories (v : json),
     dict_get "categories" d = Some (JArr categories) →
     v ∈ categories → (∀ s, v ≠ JStr s) →
     is_raise (tally_record counts (JObj d)) = true).
Proof.
  unfold tally_record. split_and!.
  - intros tags ->. simpl. rewrite tally_tags_strings.
    eexists. split; [done|]. intros k. apply foldl_count_category.
  - by intros ->.
  - intros categories v -> Hin Hv. simpl. by eapply tally_tags_raises.
Qed.

Lemma count_category_main counts tag :
  main_counts counts → main_counts (count_category counts tag).
Proof.
  intros Hmain k z. unfold count_category.
  destruct (decide (main_category tag = k)) as [<-|Hne].
  - rewrite lookup_insert_eq. intros [= <-].
    split; [apply main_category_free|].
    destruct (counts !! main_category tag) as [z|] eqn:Hz; simpl; [|lia].
    destruct (Hmain _ _ Hz). lia.
  - rewrite lookup_insert_ne by done. apply Hmain.
Qed.

Lemma foldl_count_main tags :
  ∀ counts, main_counts counts → main_counts (foldl count_category counts tags).
Proof.
  induction tags as [|tag tags IH]; intros counts Hmain; [done|].
  simpl. by apply IH, count_category_main.
Qed.

Lemma tally_tags_main categories :
  ∀ counts counts',
    main_counts counts → tally_tags counts categories = Ok counts' →
    main_counts counts'.
Proof.
  induction categories as [|category categories IH]; intros counts counts' Hmain;
    simpl.
  - by intros [= <-].
  - destruct category as [|b|z|s|l|d]; try done.
    + simpl. apply IH. by apply count_category_main.
    + simpl. by destruct (_ || _).
    + simpl. by destruct (_ || _).
Qed.

Lemma tally_record_main counts data counts' :
  main_counts counts → tally_record counts data = Ok counts' →
  main_counts counts'.
Proof.
  intros Hmain. unfold tally_record. destruct data as [|b|z|s|l|d]; try done.
  destruct (default (JArr []) (dict_get "categories" d))
    as [|b|z|s|categories|d']; try (by intros [= <-]).
  - intros [= <-]. by apply foldl_count_main.
  - by apply tally_tags_main.
Qed.

Lemma tally_lines_main ls :
  ∀ counts counts',
    main_counts counts → tally_lines ls counts = Ok counts' →
    main_counts counts'.
Proof.
  induction ls as [|line ls IH]; intros counts counts' Hmain; simpl.
  - by intros [= <-].
  - destruct (Py.is_empty _); [by apply IH|].
    destruct (json_loads _) as [data|]; [|by apply IH].
    destruct (tally_record counts data) as [counts1|] eqn:Hrecord; [|done].
    apply IH. by eapply tally_record_main.
Qed.

(** X28: in the category statistic counted from the store file of the
    current period, every category named is free of dots and has a
    count of at least one; without the file the statistic is empty. *)
Theorem category_statistic_main (w : world) :
  (∀ counts k z,
     category_statistic [] w = Some counts → counts !! k = Some z →
     Py.contains "." k = false ∧ 0 < z) ∧
  (read_file arxiv_file w = None → category_statistic [] w = Some ∅).
Proof.
  unfold category_statistic. split.
  - intros counts k z.
    destruct (read_file arxiv_file w) as [content|].
    + destruct (tally_lines _ _) as [counts'|] eqn:Hlines; [|done].
      intros [= <-]. revert k z. eapply tally_lines_main; [|done]. done.
    + by intros [= <-].
  - by intros ->.
Qed.

(** *** Lines and records that end a scan or a batch *)

Lemma load_lines_stop pre :
  ∀ line post ids,
    is_raise (load_line line) = true →
    load_lines (pre ++ line :: post) ids = load_lines pre ids.
Proof.
  induction pre as [|l pre IH]; intros line post ids Hraise; simpl.
  - by destruct (load_line line) as [[?|]|].
  - destruct (load_line l) as [[?|]|]; [by apply IH..|done].
Qed.

(** X29: a line on which the loader fails with anything but a JSON
    syntax error ends the scan of its file, and the lines after it are
    not read; such are the lines that hold a JSON null, boolean or
    number, a string with ["id"] in it, a list with the element ["id"],
    or an object whose ['id'] is neither a string nor a false value. *)
Theorem loader_stops_at_bad_line :
  (∀ pre line post ids,
     is_raise (load_line line) = true →
     load_lines (pre ++ line :: post) ids = load_lines pre ids) ∧
  (∀ line data,
     Py.is_empty (PyStr.strip line) = false →
     json_loads (PyStr.strip line) = Some data →
     match data with
     | JNull | JBool _ | JNum _ => True
     | JStr s => Py.contains "id" s = true
     | JArr l => list_has "id" l = true
     | JObj d =>
         ∃ v, dict_get "id" d = Some v ∧ truthy v = true ∧ ∀ s, v ≠ JStr s
     end →
     is_raise (load_line line) = true).
Proof.
  split; [intros; by apply load_lines_stop|].
  intros line data Hline Hdata Hbad. unfold load_line.
  rewrite Hline, Hdata. destruct data as [|b|z|s|l|d]; try done.
  - simpl. by rewrite Hbad.
  - simpl. unfold list_has in Hbad. by rewrite Hbad.
  - destruct Hbad as (v & Hv & Htrue & Hstr). simpl.
    unfold dict_mem. rewrite Hv. unfold normalize_arxiv_id_obj.
    rewrite Htrue. simpl. destruct v; try done. by destruct (Hstr s).
Qed.

Lemma save_items_app pre :
  ∀ rest n known pending,
    save_items (pre ++ rest) n known pending =
    match save_items pre n known pending with
    | (Ok n', known', pending') => save_items rest n' known' pending'
    | failed => failed
    end.
Proof.
  induction pre as [|[paper_id paper_data] pre IH];
    intros rest n known pending; [done|].
  rewrite <-app_comm_cons. cbn [save_items].
  destruct (normalize_arxiv_id_obj _); [|done].
  destruct (decide _); apply IH.
Qed.

(** X30: a record whose ID the writer cannot normalize ends the batch
    with that exception, when no write fails: the new records in front
    of it are on disk and in the set, and nothing behind it is looked
    at, new or not. *)
Theorem save_stops_at_bad_id pre item post known skip w e :
  (∀ k, disk_ok k = true) →
  Forall (λ item, is_raise (item_id item) = false) pre →
  item_id item = Raise e →
  ∃ known' w' written,
    save_metadata_files (pre ++ item :: post) (Some known) skip w =
      (Raise e, known', w') ∧
    written `sublist_of` pre ∧
    store_content w' =
      with_newline (store_content w) +:+ store_lines written ∧
    known' = known ∪ list_to_set (clean_id <$> written).
Proof.
  intros Hgood Hpre Hitem.
  destruct (save_metadata_files (pre ++ item :: post) (Some known) skip w)
    as [[r known'] w'] eqn:Hsave.
  destruct (save_metadata_files_spec _ _ _ _ _ _ _ Hsave)
    as [(_ & Hfail & _)
       |(_ & _ & _ & _ & looped & Hloop & Hout)].
  { by rewrite Hgood in Hfail. }
  destruct Hout as [(_ & _ & Hcont & ->)|(_ & Hbad & _)].
  2: { by rewrite Hgood in Hbad. }
  rewrite save_items_app in Hloop.
  destruct (save_items pre 0 known "") as [[r1 known1] pending1] eqn:Hfront.
  destruct (save_items_spec _ _ _ _ _ _ _ Hfront)
    as (Hpend & Hk & Hsub & _ & _ & _ & Hr).
  rewrite app_nil_str in Hpend.
  destruct r1 as [n1|e1].
  - destruct item as [paper_id paper_data]. cbn [save_items] in Hloop.
    change (normalize_arxiv_id_obj _) with (item_id (paper_id, paper_data))
      in Hloop.
    rewrite Hitem in Hloop. injection Hloop as <- <- Hlines.
    exists known1, w', (new_records pre known).
    by rewrite Hcont, <-Hlines, Hpend.
  - exfalso. destruct Hr as (bad & Hin & Hraise).
    rewrite Forall_forall in Hpre. specialize (Hpre bad Hin).
    by rewrite Hraise in Hpre.
Qed.
End pipeline.

(** * The properties on concrete runs *)

Example demo_codec :
  Demo.loads (Demo.dumps (JObj [("id", JStr "2508.00001")])) =
  Some (JObj [("id", JStr "2508.00001")]).
Proof. reflexivity. Qed.

(** The loader gives up on a file at a line that is JSON but no object:
    the record behind it is not loaded.  Such a file is outside
    [store_file]. *)
Example loader_stops_at_non_object :
  let content := "5" +:+ PyStr.newline +:+ "{2508.00001}" +:+ PyStr.newline in
  load_existing_metadata_files Demo.loads "202508" false
    (Some {[store_name "202507" := content]}) = ∅ ∧
  record_ids Demo.loads content = ["2508.00001"] ∧
  forallb (is_record_line Demo.loads) (PyStr.lines content) = false.
Proof. by vm_compute. Qed.

(** The end-to-end scenario of the specification: a fresh directory and
    one page with two new records give a store file of two lines, a
    Known-ID Set of size 2 and two new papers. *)
Example end_to_end_fresh :
  match get_daily_papers Demo.loads Demo.dumps Demo.year_month
          (Demo.server [Body (Some [Demo.paper Demo.v1 "T";
                                    Demo.paper Demo.other "U"])])
          Demo.disk_good 20 100 None None Demo.fresh with
  | Some (Ok (content, n), st, w') =>
      n = 2 ∧ size (existing_data st) = 2%nat ∧
      read_file (store_name "202508") w' =
        Some ("{2508.00001}" +:+ PyStr.newline +:+
              "{2508.00002}" +:+ PyStr.newline)
  | _ => False
  end.
Proof. vm_compute. by repeat split. Qed.

(** Running it again on the directory it left appends nothing. *)
Example end_to_end_rerun :
  let stored := "{2508.00001}" +:+ PyStr.newline +:+
                "{2508.00002}" +:+ PyStr.newline in
  match get_daily_papers Demo.loads Demo.dumps Demo.year_month
          (Demo.server [Body (Some [Demo.paper Demo.v2 "T";
                                    Demo.paper Demo.other "U"])])
          Demo.disk_good 20 100 None None
          (World (Some {[store_name "202508" := stored]}) 0 0 []) with
  | Some (Ok (content, n), st, w') =>
      n = 0 ∧ w_writes w' = 0%nat ∧
      read_file (store_name "202508") w' = Some stored
  | _ => False
  end.
Proof. vm_compute. by repeat split. Qed.

Lemma normalize_canonical_fixed_witness :
  canonical "hep-th/9901001" ∧
  normalize_arxiv_id "hep-th/9901001" = "hep-th/9901001" ∧
  normalize_arxiv_id (normalize_arxiv_id "hep-th/9901001") =
    normalize_arxiv_id "hep-th/9901001".
Proof.
  split; [by vm_compute|].
  apply (normalize_canonical_fixed "hep-th/9901001"). by vm_compute.
Defined.





(** C2 as stated fails: the batch is known, the count is 0, and yet the
    file has one more byte. *)
Lemma save_known_batch_adds_newline :
  ¬ (∀ json_loads json_dumps current_year_month disk_ok batch known skip w
       r known' w',
       Forall (λ item, ∃ c, item_id item = Ok c ∧ c ∈ known) batch →
       save_metadata_files json_loads json_dumps current_year_month disk_ok
         batch (Some known) skip w = (r, known', w') →
       (∃ total, r = Ok (0%nat, total)) ∧
       read_file (arxiv_file current_year_month) w' =
       read_file (arxiv_file current_year_month) w).
Proof.
  intros H.
  destruct (save_metadata_files Demo.loads Demo.dumps Demo.year_month
              Demo.disk_good [Demo.record "1"] (Some {["1"]}) false
              Demo.unterminated) as [[r known'] w'] eqn:Hsave.
  assert (Forall (λ item, ∃ c, item_id item = Ok c ∧ c ∈ ({["1"]} : gset string))
            [Demo.record "1"]) as Hknown.
  { repeat constructor. exists "1". split; [done|set_solver]. }
  destruct (H _ _ _ _ _ _ _ _ _ _ _ Hknown Hsave) as [_ Hfile].
  vm_compute in Hsave. injection Hsave as _ _ <-.
  vm_compute in Hfile. discriminate Hfile.
Qed.

Lemma save_known_batch_witness :
  let known : gset string := {["1"]} in
  Forall (λ item, ∃ c, item_id item = Ok c ∧ c ∈ known) [Demo.record "1"] ∧
  (needs_newline (store_content Demo.year_month Demo.unterminated) = true →
   Demo.disk_good (w_writes Demo.unterminated) = true) ∧
  ∃ w',
    save_metadata_files Demo.loads Demo.dumps Demo.year_month Demo.disk_good
      [Demo.record "1"] (Some known) false Demo.unterminated =
      (Ok (0%nat, size known), known, w') ∧
    store_content Demo.year_month w' = "{1}" +:+ PyStr.newline.
Proof.
  intros known.
  assert (Forall (λ item, ∃ c, item_id item = Ok c ∧ c ∈ known)
            [Demo.record "1"]) as H1.
  { repeat constructor. exists "1". split; [done|]. unfold known. set_solver. }
  assert (needs_newline (store_content Demo.year_month Demo.unterminated) = true →
          Demo.disk_good (w_writes Demo.unterminated) = true) as H2 by done.
  repeat (split; [assumption|]).
  destruct (save_known_batch Demo.loads Demo.dumps Demo.year_month
              Demo.disk_good [Demo.record "1"] known false Demo.unterminated
              H1 H2) as (w' & Hsave & _ & Hcontent & _).
  exists w'. split; [exact Hsave|]. rewrite Hcontent. vm_compute. reflexivity.
Defined.


(** The record of the first page is lost: its ID is in the Known-ID Set
    and in no file, and the second page, which has a later version of
    it, does not bring it back. *)
Example write_failure_run :
  match get_daily_papers Demo.loads Demo.dumps Demo.year_month
          (Demo.server [Body (Some [Demo.paper Demo.v1 "T"]);
                        Body (Some [Demo.paper Demo.v2 "T";
                                    Demo.paper Demo.other "U"])])
          Demo.disk_first_fails 20 300 None None Demo.fresh with
  | Some (Ok (content, n), st, w') =>
      keys content = ["2508.00001"; "2508.00002"] ∧ n = 1 ∧
      w_requests w' = 3%nat ∧ w_writes w' = 2%nat ∧
      existing_data st = {["2508.00001"; "2508.00002"]} ∧
      read_file (store_name "202508") w' =
        Some ("{2508.00002}" +:+ PyStr.newline)
  | _ => False
  end.
Proof. vm_compute. by repeat split. Qed.

(** A batch on a disk that takes nothing: both IDs are in the set when
    [OSError] is raised, and the file, just created, is empty. *)
Example write_failure_at_close :
  ∃ w',
    save_metadata_files Demo.loads Demo.dumps Demo.year_month Demo.disk_bad
      [Demo.record "1"; Demo.record "2"] (Some ∅) false Demo.fresh =
      (Raise OSError, {["1"; "2"]}, w') ∧
    read_file (store_name "202508") w' = Some "" ∧ w_writes w' = 1%nat.
Proof. eexists. vm_compute. by repeat split. Qed.



Example retry_exhaustion_run :
  match get_daily_papers Demo.loads Demo.dumps Demo.year_month
          (Demo.server [HttpFailure 503; HttpFailure 503; HttpFailure 503;
                        HttpFailure 503; HttpFailure 503;
                        Body (Some [Demo.paper Demo.v1 "T"])])
          Demo.disk_good 20 100 None None Demo.fresh with
  | Some (Ok (content, n), st, w') =>
      keys content = ["2508.00001"] ∧ n = 1 ∧ w_requests w' = 6%nat ∧
      w_sleeps w' = [5; 5; 10; 40; 30; 20; 10; 5]
  | _ => False
  end.
Proof. vm_compute. by repeat split. Qed.


(** C5 as stated fails: an empty page moves [start] to the next page. *)
Lemma empty_page_advances_start :
  ¬ (∀ json_loads json_dumps current_year_month urlopen disk_ok target st w
       entries w1 c st' w',
       request_page urlopen (start st) (page_max target st) (sleep 5 w) =
         (Ok (Some entries), w1) →
       page_step json_loads json_dumps current_year_month urlopen disk_ok
         target st w = (c, st', w') →
       real_entries entries = [] → start st' = start st).
Proof.
  intros H.
  specialize (H Demo.loads Demo.dumps Demo.year_month (Demo.server [])
                Demo.disk_good (Some 1000) Demo.first_state Demo.fresh
                [] _ _ _ _ eq_refl eq_refl eq_refl).
  discriminate H.
Qed.

Lemma page_counters_witness :
  let urlopen := Demo.server [] in
  let st' := State 100 1 [] ∅ 0 [] in
  let w' := World None 0 1 [5] in
  request_page urlopen (start Demo.first_state)
    (page_max (Some 1000) Demo.first_state) (sleep 5 Demo.fresh) =
    (Ok (Some []), w') ∧
  page_step Demo.loads Demo.dumps Demo.year_month urlopen Demo.disk_good
    (Some 1000) Demo.first_state Demo.fresh = (Continue, st', w') ∧
  (real_entries [] = [] →
   empty_page_count st' = empty_page_count Demo.first_state + 1 ∧
   (3 ≤ empty_page_count Demo.first_state + 1 →
    Continue = Break ∧ start st' = start Demo.first_state) ∧
   (empty_page_count Demo.first_state + 1 < 3 →
    Continue = Continue ∧ start st' = start Demo.first_state + 100)).
Proof.
  intros urlopen st' w'.
  split; [reflexivity|]. split; [reflexivity|].
  exact (proj1 (page_counters Demo.loads Demo.dumps Demo.year_month urlopen
                  Demo.disk_good (Some 1000) Demo.first_state Demo.fresh
                  [] w' Continue st' w' eq_refl eq_refl)).
Defined.

(** C6 as stated fails: of two entries with the same canonical ID the
    first has no title, and the record kept is the one of the second. *)
Lemma first_entry_can_lose :
  ¬ (∀ json_loads json_dumps current_year_month urlopen disk_ok fuel
       max_results start_date end_date w content n st w'
       pre e post entry_id,
       get_daily_papers json_loads json_dumps current_year_month urlopen
         disk_ok fuel max_results start_date end_date w =
         Some (Ok (content, n), st, w') →
       fetched st = pre ++ e :: post →
       e_id e = Some (Some entry_id) →
       (∀ e' id', e' ∈ pre → e_id e' = Some (Some id') →
          normalize_arxiv_id id' ≠ normalize_arxiv_id entry_id) →
       ∃ paper,
         dict_get (normalize_arxiv_id entry_id) content = Some paper ∧
         dict_get "entry_id" paper = Some (JStr entry_id)).
Proof.
  intros H.
  set (page := [Demo.untitled Demo.v1; Demo.paper Demo.v2 "T"]).
  destruct (get_daily_papers Demo.loads Demo.dumps Demo.year_month
              (Demo.server [Body (Some page)]) Demo.disk_good 20 100 None None
              Demo.fresh) as [[[[[content n]|e] st] w']|] eqn:Hrun;
    try (by vm_compute in Hrun).
  assert (fetched st = [] ++ Demo.untitled Demo.v1 :: [Demo.paper Demo.v2 "T"])
    as Hfetched.
  { clear -Hrun. vm_compute in Hrun. by injection Hrun as _ _ <- _. }
  destruct (H _ _ _ _ _ _ _ _ _ _ _ _ _ _ _ _ _ Demo.v1 Hrun Hfetched eq_refl)
    as (paper & Hpaper & Hentry).
  { by intros e' id' ?%elem_of_nil. }
  clear -Hrun Hpaper Hentry. vm_compute in Hrun. injection Hrun as <- _ _ _.
  vm_compute in Hpaper. injection Hpaper as <-.
  vm_compute in Hentry. discriminate Hentry.
Qed.

Lemma first_built_entry_wins_witness :
  let page := [Demo.untitled Demo.v1; Demo.paper Demo.v2 "T";
               Demo.paper Demo.v1 "Again"] in
  ∃ content n st w',
    get_daily_papers Demo.loads Demo.dumps Demo.year_month
      (Demo.server [Body (Some page)]) Demo.disk_good 20 100 None None
      Demo.fresh = Some (Ok (content, n), st, w') ∧
    NoDup (keys content) ∧
    (∀ p, dict_get p content = dict_get p (omap entry_record (fetched st))).
Proof.
  intros page.
  destruct (get_daily_papers Demo.loads Demo.dumps Demo.year_month
              (Demo.server [Body (Some page)]) Demo.disk_good 20 100 None None
              Demo.fresh) as [[[[[content n]|e] st] w']|] eqn:Hrun;
    try (by vm_compute in Hrun).
  exists content, n, st, w'. split; [reflexivity|].
  destruct (first_built_entry_wins Demo.loads Demo.dumps Demo.year_month
              (Demo.server [Body (Some page)]) Demo.disk_good 20 100 None None
              Demo.fresh content n st w' Hrun) as (Hnd & Hget & _).
  by split.
Defined.

(** ** More of the code, on concrete inputs *)

Lemma entry_paper_id_normalize_witness :
  entry_paper_id "http://arxiv.org/abs/2508.00001v1" =
  normalize_arxiv_id "http://arxiv.org/abs/2508.00001v1".
Proof.
  apply (entry_paper_id_normalize "http://arxiv.org/abs/2508.00001v1").
  intros _. vm_compute. reflexivity.
Defined.

Lemma entry_paper_id_domain_cut_witness :
  Py.contains "/abs/" ("http://arxiv.org/" +:+ "pdf/2508.00001v1") = false ∧
  entry_paper_id ("http://arxiv.org/" +:+ "pdf/2508.00001v1") = "http://arxi" ∧
  normalize_arxiv_id ("http://arxiv.org/" +:+ "pdf/2508.00001v1") ≠
    "http://arxi".
Proof.
  assert (Py.contains "/abs/" ("http://arxiv.org/" +:+ "pdf/2508.00001v1")
          = false) as Habs by (vm_compute; reflexivity).
  split; [exact Habs|].
  exact (entry_paper_id_domain_cut "pdf/2508.00001v1" Habs).
Defined.


Lemma fetched_record_item_id_witness :
  ∃ paper,
    entry_record (Demo.paper Demo.v1 "T") = Some ("2508.00001", paper) ∧
    item_id ("2508.00001", paper) = Ok "2508.00001" ∧
    dict_record_id paper = Some "2508.00001".
Proof.
  eexists. split; [vm_compute; reflexivity|].
  refine (let H := fetched_record_item_id (Demo.paper Demo.v1 "T")
                     "2508.00001" _ _ in
          conj (proj1 (proj2 H)) (proj2 (proj2 (proj2 H)))).
  vm_compute. reflexivity.
Defined.

Lemma process_entry_keeps_witness :
  (process_entry (0%nat, []) (Demo.untitled Demo.v1)).2 = [] ∧
  (process_entry (0%nat, []) (Demo.paper Demo.v1 "T")).2 ≠ [].
Proof.
  split.
  - apply (proj1 (process_entry_keeps 0 [] (Demo.untitled Demo.v1))).
    do 3 right. left. reflexivity.
  - intros Hkept.
    apply (proj1 (process_entry_keeps 0 [] (Demo.paper Demo.v1 "T")))
      in Hkept.
    destruct Hkept as [H|[H|[H|[H|[(i & _ & H)|[H|[H|[H|H]]]]]]]];
      try (vm_compute in H; discriminate).
    apply list_elem_of_singleton in H. discriminate.
Defined.

Lemma save_fresh_batch_witness :
  let batch := [Demo.record "2508.00001"; Demo.record "2508.00002"] in
  let known : gset string := {["2507.00009"]} in
  ∃ w',
    save_metadata_files Demo.loads Demo.dumps Demo.year_month Demo.disk_good
      batch (Some known) false Demo.unterminated =
      (Ok (2%nat, (size known + 2)%nat),
       known ∪ list_to_set (clean_id <$> batch), w') ∧
    store_content Demo.year_month w' =
      "{1}" +:+ PyStr.newline +:+ "{2508.00001}" +:+ PyStr.newline +:+
      "{2508.00002}" +:+ PyStr.newline.
Proof.
  intros batch known.
  destruct (save_fresh_batch Demo.loads Demo.dumps Demo.year_month
              Demo.disk_good batch known false Demo.unterminated)
    as (w' & Hsave & Hcontent & _).
  - intros k _. reflexivity.
  - repeat constructor.
  - apply (bool_decide_unpack _). vm_compute. reflexivity.
  - intros item Hin Hknown. apply elem_of_singleton in Hknown.
    apply elem_of_cons in Hin as [->|Hin];
      [vm_compute in Hknown; discriminate|].
    apply list_elem_of_singleton in Hin as ->.
    vm_compute in Hknown. discriminate.
  - exists w'. split; [exact Hsave|]. rewrite Hcontent.
    vm_compute. reflexivity.
Defined.

Lemma save_again_appends_nothing_witness :
  let batch := [Demo.record "2508.00001"; Demo.record "2508.00001v2"] in
  ∃ n total known1 w1,
    save_metadata_files Demo.loads Demo.dumps Demo.year_month Demo.disk_good
      batch (Some ∅) false Demo.fresh = (Ok (n, total), known1, w1) ∧
    save_metadata_files Demo.loads Demo.dumps Demo.year_month Demo.disk_good
      batch (Some known1) false w1 = (Ok (0%nat, total), known1, w1).
Proof.
  intros batch.
  destruct (save_metadata_files Demo.loads Demo.dumps Demo.year_month
              Demo.disk_good batch (Some ∅) false Demo.fresh)
    as [[[[n total]|e] known1] w1] eqn:Hsave;
    [|exfalso; clear -Hsave; vm_compute in Hsave; discriminate].
  exists n, total, known1, w1. split; [reflexivity|].
  exact (save_again_appends_nothing _ _ _ _ _ _ _ _ _ _ _ _ Hsave).
Defined.

Lemma loader_any_order_witness :
  let july := (store_name "202507", "{2507.00001}") in
  let august := (store_name "202508", "{2508.00001}") in
  load_listing Demo.loads "202508" false [july; august] =
  load_listing Demo.loads "202508" false [august; july].
Proof.
  intros july august.
  exact (proj1 (loader_any_order Demo.loads "202508" false [july; august]
                  [august; july] (perm_swap august july []))).
Defined.

Lemma loader_passes_over_witness :
  passed_over "202508" false "metadata-report-202508.md" ∧
  load_existing_metadata_files Demo.loads "202508" false
    (Some (<["metadata-report-202508.md" := "{2508.00009}"]> ∅)) =
  load_existing_metadata_files Demo.loads "202508" false
    (Some (delete "metadata-report-202508.md" ∅)).
Proof.
  assert (passed_over "202508" false "metadata-report-202508.md") as Hover
    by (left; vm_compute; reflexivity).
  split; [exact Hover|].
  exact (loader_passes_over Demo.loads "202508" false ∅ _ _ Hover).
Defined.

Lemma loader_skip_flag_witness :
  let dir : directory := Some {[store_name "202508" := "{2508.00001}"]} in
  load_existing_metadata_files Demo.loads "202508" true dir =
  load_existing_metadata_files Demo.loads "202508" false dir.
Proof.
  intros dir.
  apply (proj2 (loader_skip_flag Demo.loads "202508" dir)).
  intros files name [= <-] Hsome.
  destruct (decide (name = store_name "202508")) as [->|Hne].
  - vm_compute. discriminate.
  - rewrite lookup_singleton_ne in Hsome by done. by destruct Hsome.
Defined.

Lemma known_ids_canonical_witness :
  normalize_arxiv_id "2508.00001" = "2508.00001" ∧
  Py.contains "v" "2508.00001" = false ∧
  Py.contains "/abs/" "2508.00001" = false.
Proof.
  apply (proj1 (known_ids_canonical Demo.loads Demo.dumps "202508"
                  (Demo.server []) Demo.disk_good)
           false
           (Some {[store_name "202508" :=
                     "{http://arxiv.org/abs/2508.00001v2}"]})).
  apply (bool_decide_unpack _). vm_compute. reflexivity.
Defined.

Lemma call_appends_only_witness :
  ∃ r st w',
    get_daily_papers Demo.loads Demo.dumps Demo.year_month
      (Demo.server [Body (Some [Demo.paper Demo.v1 "T"])]) Demo.disk_good
      20 100 None None Demo.unterminated = Some (r, st, w') ∧
    ∃ appended,
      store_content Demo.year_month w' =
      store_content Demo.year_month Demo.unterminated +:+ appended.
Proof.
  destruct (get_daily_papers Demo.loads Demo.dumps Demo.year_month
              (Demo.server [Body (Some [Demo.paper Demo.v1 "T"])])
              Demo.disk_good 20 100 None None Demo.unterminated)
    as [[[r st] w']|] eqn:Hcall;
    [|exfalso; clear -Hcall; vm_compute in Hcall; discriminate].
  exists r, st, w'. split; [reflexivity|].
  exact (proj1 (call_appends_only _ _ _ _ _ _ _ _ _ _ _ _ _ Hcall)).
Defined.


Lemma faultless_call_writes_new_records_witness :
  ∃ content n st w',
    get_daily_papers Demo.loads Demo.dumps Demo.year_month
      (Demo.server [Body (Some [Demo.paper Demo.v1 "T";
                                Demo.paper Demo.other "U"])])
      Demo.disk_good 20 100 None None Demo.unterminated =
      Some (Ok (content, n), st, w') ∧
    n = Z.of_nat
          (length
             (filter
                (λ item : string * pydict,
                   item.1 ∉ load_existing_metadata_files Demo.loads
                              Demo.year_month false (w_dir Demo.unterminated))
                content)).
Proof.
  destruct (get_daily_papers Demo.loads Demo.dumps Demo.year_month
              (Demo.server [Body (Some [Demo.paper Demo.v1 "T";
                                        Demo.paper Demo.other "U"])])
              Demo.disk_good 20 100 None None Demo.unterminated)
    as [[[[[content n]|e] st] w']|] eqn:Hcall;
    [|exfalso; clear -Hcall; vm_compute in Hcall; discriminate..].
  exists content, n, st, w'. split; [reflexivity|].
  exact (proj1 (faultless_call_writes_new_records _ _ _ _ _ _ _ _ _ _ _ _ _
                  _ (λ k, eq_refl) Hcall)).
Defined.

Lemma bounded_call_returns_witness :
  ∃ content n st w',
    get_daily_papers Demo.loads Demo.dumps Demo.year_month (Demo.server [])
      Demo.disk_good 2 200 None None Demo.fresh =
    Some (Ok (content, n), st, w').
Proof.
  apply (bounded_call_returns Demo.loads Demo.dumps Demo.year_month
           (Demo.server []) Demo.disk_good 2 200 None None Demo.fresh).
  - intros n s m. unfold Demo.server. rewrite lookup_nil. discriminate.
  - reflexivity.
  - vm_compute. discriminate.
Defined.

Lemma unavailable_server_never_returns_witness :
  get_daily_papers Demo.loads Demo.dumps Demo.year_month
    (λ _ _ _, HttpFailure 503) Demo.disk_good 7 100 None None Demo.fresh =
  None.
Proof.
  apply (unavailable_server_never_returns Demo.loads Demo.dumps Demo.year_month
           (λ _ _ _, HttpFailure 503) Demo.disk_good 7 100 None None Demo.fresh).
  - intros n s m. reflexivity.
  - reflexivity.
Defined.

Lemma arxiv_match_not_anchored_witness :
  period "202501" ∧
  arxiv_match ("backup-" +:+ store_name "202501") = Some (Some "202501").
Proof.
  assert (period "202501") as Hp by (split; reflexivity).
  split; [exact Hp|].
  exact (proj1 (arxiv_match_not_anchored "backup-") "202501" Hp).
Defined.

Lemma arxiv_match_period_witness :
  arxiv_match "old-arxiv-metadata-oai-snapshot-202501.json" =
    Some (Some "202501") ∧
  period "202501".
Proof.
  assert (arxiv_match "old-arxiv-metadata-oai-snapshot-202501.json" =
          Some (Some "202501")) as Hmatch by (vm_compute; reflexivity).
  split; [exact Hmatch|].
  exact (arxiv_match_period _ _ Hmatch).
Defined.

Lemma period_order_witness :
  period "202412" ∧ period "202501" ∧
  String.leb "202412" "202501" =
    (period_number "202412" <=? period_number "202501").
Proof.
  assert (period "202412") as Hp by (split; reflexivity).
  assert (period "202501") as Hq by (split; reflexivity).
  split; [exact Hp|]. split; [exact Hq|].
  exact (period_order "202412" "202501" Hp Hq).
Defined.

Lemma parse_author_round_trip_witness :
  ∃ last first middle,
    parse_author "Augusta  Ada King Lovelace" =
      JArr [JStr last; JStr first; JStr middle] ∧
    PyStr.join " " (PyStr.words "Augusta  Ada King Lovelace") =
      first +:+ " " +:+
      (if Py.is_empty middle then "" else middle +:+ " ") +:+ last.
Proof.
  apply (proj1 (parse_author_round_trip "Augusta  Ada King Lovelace")).
  vm_compute. lia.
Defined.

Lemma main_category_spec_witness :
  Py.contains "." "acc-phys/9507001" = false ∧
  Py.contains "/" (main_category "acc-phys/9507001") = false.
Proof.
  assert (Py.contains "." "acc-phys/9507001" = false) as Hdot
    by (vm_compute; reflexivity).
  split; [exact Hdot|].
  exact (proj1 (proj2 (proj2 (main_category_spec "acc-phys/9507001")) Hdot)).
Defined.

Lemma tally_record_counts_witness :
  let d := [("id", JStr "2508.00001");
            ("categories", JArr [JStr "cs.AI"; JStr "cs.LG"; JStr "math.CO"])] in
  ∃ counts',
    tally_record ∅ (JObj d) = Ok counts' ∧
    default 0 (counts' !! "cs") = 2 ∧ default 0 (counts' !! "math") = 1.
Proof.
  intros d.
  destruct (proj1 (tally_record_counts ∅ d) ["cs.AI"; "cs.LG"; "math.CO"])
    as (counts' & Htally & Hcounts); [reflexivity|].
  exists counts'. split; [exact Htally|].
  rewrite !Hcounts. split; vm_compute; reflexivity.
Defined.

Lemma category_statistic_main_witness :
  let w :=
    World (Some {[store_name Demo.year_month :=
                    "cs.AI,cs.LG" +:+ PyStr.newline +:+
                    "math.CO,cs.CV,acc-phys/9507001" +:+ PyStr.newline]})
      0 0 [] in
  ∃ counts,
    category_statistic Demo.tagged Demo.year_month [] w = Some counts ∧
    counts !! "cs" = Some 3 ∧ counts !! "math" = Some 1 ∧
    counts !! "acc-phys" = Some 1 ∧ counts !! "cs.AI" = None ∧
    Py.contains "." "cs" = false ∧ 0 < 3.
Proof.
  intros w.
  pose (counts :=
          default ∅ (category_statistic Demo.tagged Demo.year_month [] w)).
  assert (category_statistic Demo.tagged Demo.year_month [] w = Some counts)
    as Hstat by (vm_compute; reflexivity).
  assert (counts !! "cs" = Some 3) as Hcs by (vm_compute; reflexivity).
  exists counts. split; [exact Hstat|]. split; [exact Hcs|].
  split; [vm_compute; reflexivity|].
  split; [vm_compute; reflexivity|].
  split; [vm_compute; reflexivity|].
  exact (proj1 (category_statistic_main Demo.tagged Demo.year_month w)
           counts "cs" 3 Hstat Hcs).
Defined.

Lemma loader_stops_at_bad_line_witness :
  is_raise (load_line Demo.loads "5") = true ∧
  load_lines Demo.loads (["{2508.00001}"] ++ "5" :: ["{2508.00002}"]) ∅ =
  load_lines Demo.loads ["{2508.00001}"] ∅.
Proof.
  assert (is_raise (load_line Demo.loads "5") = true) as Hbad.
  { apply (proj2 (loader_stops_at_bad_line Demo.loads) "5" (JNum 5));
      [reflexivity|reflexivity|exact I]. }
  split; [exact Hbad|].
  exact (proj1 (loader_stops_at_bad_line Demo.loads) _ _ _ _ Hbad).
Defined.

Lemma save_stops_at_bad_id_witness :
  let pre := [Demo.record "2508.00001"] in
  let item : string * pydict := ("2508.00007", [("id", JNum 7)]) in
  let post := [Demo.record "2508.00002"] in
  ∃ known' w' written,
    save_metadata_files Demo.loads Demo.dumps Demo.year_month Demo.disk_good
      (pre ++ item :: post) (Some ∅) false Demo.fresh =
      (Raise TypeError, known', w') ∧
    written `sublist_of` pre ∧
    store_content Demo.year_month w' =
      with_newline (store_content Demo.year_month Demo.fresh) +:+
      store_lines Demo.dumps written ∧
    known' = ∅ ∪ list_to_set (clean_id <$> written).
Proof.
  intros pre item post.
  apply (save_stops_at_bad_id Demo.loads Demo.dumps Demo.year_month
           Demo.disk_good pre item post ∅ false Demo.fresh TypeError).
  - intros k. reflexivity.
  - repeat constructor.
  - reflexivity.
Defined.
